(** * The Gmail tool-invocation broker of mcpilot

    A shallow embedding of [src/lib/ai/tools/gmail.ts]: the invocation
    executor [executeGmailToolEnhanced] with its module-level result cache,
    retry loop and session handling, the legacy wrapper [executeGmailTool],
    the query builder [buildGmailQuery] and the list normalizer
    [formatEmailResults]; then the listing with content
    [formatEmailResultsWithContent] and the tools that list and search.

    Conventions.
    - A JavaScript string is a Rocq [string] (its UTF-8 bytes).
    - A JavaScript value that can be [undefined] is an [option]: [None] is
      [undefined].
    - Code that awaits, throws and mutates module state is written in the
      monad [M]: a computation takes the [World] and yields an [Outcome]
      (returned value or thrown [Error]), the new [World] and the [Event]s
      it performed on its collaborators, oldest first. *)

From Stdlib Require Import String Ascii List ZArith Lia Bool DecimalString.
Import ListNotations.
Local Open Scope string_scope.
Local Open Scope Z_scope.
Set Warnings "-register-all".

(** ** Strings *)

(** The double quote, built from its code: U+0022. *)
Definition dquote : string := String (ascii_of_nat 34) EmptyString.

(** [String(n)] for an integral number. *)
Definition string_of_Z (z : Z) : string := NilZero.string_of_int (Z.to_int z).

(** [parts.join(sep)]. *)
Definition join (sep : string) (parts : list string) : string := String.concat sep parts.

(** JavaScript truthiness of a possibly-undefined string: [undefined],
    [null] and the empty string are falsy. *)
Definition truthy_string (s : option string) : bool :=
  match s with
  | Some (String _ _) => true
  | _ => false
  end.

(** ** JSON values *)

Module Json.

(** A JSON document as JavaScript holds it after [JSON.parse], or before
    [JSON.stringify].  A number is kept as its decimal text (the text
    [JSON.stringify] writes for it; IEEE-754 rounding is not modelled).
    An object lists its properties in enumeration order, keys distinct. *)
Inductive json : Type :=
| JNull
| JBool (b : bool)
| JNum (text : string)
| JStr (s : string)
| JArr (items : list json)
| JObj (members : list (string * json)).

(** [o[key]] on an object's property list; [None] is [undefined]. *)
Fixpoint assoc (key : string) (members : list (string * json)) : option json :=
  match members with
  | [] => None
  | (k, v) :: rest => if String.eqb k key then Some v else assoc key rest
  end.

(** [v.key] for a JSON value [v] other than [null]: a property read on a
    primitive or an array (for the names used in this file) is [undefined]. *)
Definition get (key : string) (v : json) : option json :=
  match v with
  | JObj members => assoc key members
  | _ => None
  end.

Definition hex_digit (n : nat) : ascii :=
  nth n (list_ascii_of_string "0123456789abcdef") "0"%char.

(** QuoteJSONString, one character: the two-character escapes, [\u00xx]
    for the other control characters, the character itself otherwise. *)
Definition quote_char (c : ascii) : string :=
  let n := nat_of_ascii c in
  if Nat.eqb n 8 then "\b"
  else if Nat.eqb n 9 then "\t"
  else if Nat.eqb n 10 then "\n"
  else if Nat.eqb n 12 then "\f"
  else if Nat.eqb n 13 then "\r"
  else if Nat.eqb n 34 then "\" ++ dquote
  else if Nat.eqb n 92 then "\\"
  else if Nat.ltb n 32 then
    "\u00" ++ String (hex_digit (Nat.div n 16)) (String (hex_digit (Nat.modulo n 16)) "")
  else String c "".

Fixpoint quote_chars (s : string) : string :=
  match s with
  | EmptyString => ""
  | String c rest => quote_char c ++ quote_chars rest
  end.

Definition quote (s : string) : string := dquote ++ quote_chars s ++ dquote.

Definition is_empty (s : string) : bool :=
  match s with EmptyString => true | _ => false end.

(** The LF character, U+000A. *)
Definition newline : string := String (ascii_of_nat 10) EmptyString.

(** SerializeJSONArray / SerializeJSONObject, the wrapping of the already
    serialized [partial] elements: [gap] is the indentation unit ([""] for
    the compact form), [stepback] the enclosing indentation. *)
Definition wrap (opening closing gap stepback : string) (partial : list string) : string :=
  match partial with
  | [] => opening ++ closing
  | _ =>
      if is_empty gap then opening ++ join "," partial ++ closing
      else
        let indent := stepback ++ gap in
        opening ++ newline ++ indent ++ join ("," ++ newline ++ indent) partial
                ++ newline ++ stepback ++ closing
  end.

(** SerializeJSONProperty on a JSON value. *)
Fixpoint serialize (gap indent : string) (v : json) {struct v} : string :=
  match v with
  | JNull => "null"
  | JBool true => "true"
  | JBool false => "false"
  | JNum text => text
  | JStr s => quote s
  | JArr items =>
      wrap "[" "]" gap indent (map (serialize gap (indent ++ gap)) items)
  | JObj members =>
      wrap "{" "}" gap indent
        (map (fun kv : string * json =>
                let (k, x) := kv in
                quote k ++ ":" ++ (if is_empty gap then "" else " ")
                        ++ serialize gap (indent ++ gap) x)
             members)
  end.

(** [JSON.stringify(v)]. *)
Definition stringify (v : json) : string := serialize "" "" v.

(** [JSON.stringify(v, null, 2)]. *)
Definition stringify2 (v : json) : string := serialize "  " "" v.

End Json.
Import Json.

(** JavaScript truthiness of a JSON value: [null], [false], zero and the
    empty string are falsy. *)
Fixpoint all_zero_digits (s : string) : bool :=
  match s with
  | EmptyString => true
  | String c rest =>
      if (c =? "e")%char || (c =? "E")%char then true
      else if (c =? "0")%char || (c =? "-")%char || (c =? ".")%char then all_zero_digits rest
      else false
  end.

Definition truthy (v : json) : bool :=
  match v with
  | JNull => false
  | JBool b => b
  | JNum text => negb (all_zero_digits text)
  | JStr s => negb (is_empty s)
  | JArr _ | JObj _ => true
  end.

(** A JavaScript value of type [any] that came out of JSON: [None] is
    [undefined]. *)
Definition jsval : Type := option json.

(** ** Base64 and the connection URL *)

Definition b64_char (n : nat) : ascii :=
  nth n (list_ascii_of_string
           "ABCDEFGHIJKLMNOPQRSTUVWXYZabcdefghijklmnopqrstuvwxyz0123456789+/") "A"%char.

Fixpoint b64_groups (bytes : list nat) : string :=
  match bytes with
  | [] => ""
  | [a] =>
      String (b64_char (Nat.div a 4))
        (String (b64_char (Nat.modulo a 4 * 16)) "==")
  | [a; b] =>
      String (b64_char (Nat.div a 4))
        (String (b64_char (Nat.modulo a 4 * 16 + Nat.div b 16))
           (String (b64_char (Nat.modulo b 16 * 4)) "="))
  | a :: b :: c :: rest =>
      String (b64_char (Nat.div a 4))
        (String (b64_char (Nat.modulo a 4 * 16 + Nat.div b 16))
           (String (b64_char (Nat.modulo b 16 * 4 + Nat.div c 64))
              (String (b64_char (Nat.modulo c 64)) (b64_groups rest))))
  end.

(** [Buffer.from(s).toString("base64")]. *)
Definition base64 (s : string) : string :=
  b64_groups (map nat_of_ascii (list_ascii_of_string s)).

(** A [URL]: the address up to the query, and [searchParams] as the list of
    its (name, value) pairs before percent-encoding. *)
Record URL : Type := mkURL {
  href : string;
  searchParams : list (string * string)
}.

Record SmitheryOptions : Type := mkSmitheryOptions {
  config : option json;
  apiKey : option string;
  profile : option string
}.

Definition truthy_jsval (v : jsval) : bool :=
  match v with Some j => truthy j | None => false end.

(** [url.searchParams.set(name, value)] for a name not yet present. *)
Definition searchParams_set (name value : string) (url : URL) : URL :=
  mkURL (href url) (searchParams url ++ [(name, value)])%list.

(** gmail.ts, lines 14-31. *)
Definition createSmitheryUrl (baseUrl : string) (options : SmitheryOptions) : URL :=
  let url := mkURL (baseUrl ++ "/mcp") [] in
  let url :=
    match config options with
    | Some c => if truthy c then searchParams_set "config" (base64 (stringify c)) url else url
    | None => url
    end in
  let url :=
    match apiKey options with
    | Some k => if truthy_string (Some k) then searchParams_set "api_key" k url else url
    | None => url
    end in
  match profile options with
  | Some p => if truthy_string (Some p) then searchParams_set "profile" p url else url
  | None => url
  end.

(** ** Errors, outcomes and the collaborators *)

(** [new Error(message)].  What the code throws and what its collaborators
    reject with are [Error] objects. *)
Record Error : Type := mkError { message : string }.

Inductive Outcome (A : Type) : Type :=
| Return (a : A)
| Throw (e : Error).
Arguments Return {A} a.
Arguments Throw {A} e.

(** How a remote step ends within an attempt: it resolves, it rejects, or
    it is still pending when the attempt's timer fires. *)
Inductive Settle (A : Type) : Type :=
| Resolves (a : A)
| Rejects (e : Error)
| Pending.
Arguments Resolves {A} a.
Arguments Rejects {A} e.
Arguments Pending {A}.

(** The reply of [client.callTool]; only [content] is read. *)
Record CallToolResult : Type := mkCallToolResult { content : jsval }.

(** What one MCP session does when it is used.
    - [on_connect], [on_callTool]: how the promise of [client.connect] and
      of [client.callTool] settles, raced against the attempt's timer.
    - [connect_ms], [callTool_ms]: the milliseconds that pass on the clock
      while the executor awaits the two races.
    - [on_close]: [None] when [client.close()] resolves on this session,
      [Some e] when it rejects with [e]. *)
Record Session : Type := mkSession {
  on_connect : Settle unit;
  connect_ms : Z;
  on_callTool : Settle CallToolResult;
  callTool_ms : Z;
  on_close : option Error
}.

(** What the executor does to its collaborators: a read of the credential
    store, [client.connect] (the session is opened, with the URL of its
    transport), [client.callTool], [client.close], and a backoff sleep. *)
Inductive Event : Type :=
| EvGetToken (userId : string)
| EvConnect (session : nat) (url : URL)
| EvCallTool (session : nat) (name : string) (args : json)
| EvClose (session : nat)
| EvSleep (ms : Z).

(** A value of the module-level [searchCache]. *)
Record CacheEntry : Type := mkCacheEntry { result : jsval; timestamp : Z }.

(** ** The module-level cache: a JavaScript [Map] *)

(** A [Map] keeps its keys in insertion order; [set] on a key already
    present replaces the value where it stands. *)
Module JsMap.

Definition t : Type := list (string * CacheEntry).

Fixpoint get (key : string) (m : t) : option CacheEntry :=
  match m with
  | [] => None
  | (k, v) :: rest => if String.eqb k key then Some v else get key rest
  end.

Fixpoint set (key : string) (v : CacheEntry) (m : t) : t :=
  match m with
  | [] => [(key, v)]
  | (k, x) :: rest =>
      if String.eqb k key then (k, v) :: rest else (k, x) :: set key v rest
  end.

Definition size (m : t) : Z := Z.of_nat (length m).

(** [m.keys().next().value]. *)
Definition first_key (m : t) : option string :=
  match m with
  | [] => None
  | (k, _) :: _ => Some k
  end.

Fixpoint delete (key : string) (m : t) : t :=
  match m with
  | [] => []
  | (k, x) :: rest =>
      if String.eqb k key then rest else (k, x) :: delete key rest
  end.

Definition keys (m : t) : list string := map fst m.

End JsMap.

Record ProcessEnv : Type := mkProcessEnv {
  SMITHERY_API_KEY : option string;
  GOOGLE_CLIENT_ID : option string;
  GOOGLE_CLIENT_SECRET : option string
}.

(** Everything a call can read or change.
    - [searchCache]: the module's [Map], in insertion order.
    - [now]: the value [Date.now()] returns.
    - [env]: [process.env].
    - [gmailTokens]: the credential store behind [getUserGmailToken].
    - [remote]: the behaviour of the n-th session the process creates.
    - [sessions]: how many sessions the process has created. *)
Record World : Type := mkWorld {
  searchCache : JsMap.t;
  now : Z;
  env : ProcessEnv;
  gmailTokens : string -> option string;
  remote : nat -> Session;
  sessions : nat
}.

Definition with_cache (c : JsMap.t) (w : World) : World :=
  mkWorld c (now w) (env w) (gmailTokens w) (remote w) (sessions w).

Definition with_now (t : Z) (w : World) : World :=
  mkWorld (searchCache w) t (env w) (gmailTokens w) (remote w) (sessions w).

Definition with_sessions (n : nat) (w : World) : World :=
  mkWorld (searchCache w) (now w) (env w) (gmailTokens w) (remote w) n.


(** ** The monad of asynchronous code *)

Definition M (A : Type) : Type := World -> Outcome A * World * list Event.

Definition ret {A : Type} (a : A) : M A := fun w => (Return a, w, []).

Definition throw {A : Type} (e : Error) : M A := fun w => (Throw e, w, []).

Definition bind {A B : Type} (m : M A) (k : A -> M B) : M B :=
  fun w =>
    match m w with
    | (Return a, w1, t1) =>
        match k a w1 with
        | (o, w2, t2) => (o, w2, (t1 ++ t2)%list)
        end
    | (Throw e, w1, t1) => (Throw e, w1, t1)
    end.

(** [try { m } catch (error) { handler(error) }]. *)
Definition try_catch {A : Type} (m : M A) (handler : Error -> M A) : M A :=
  fun w =>
    match m w with
    | (Return a, w1, t1) => (Return a, w1, t1)
    | (Throw e, w1, t1) =>
        match handler e w1 with
        | (o, w2, t2) => (o, w2, (t1 ++ t2)%list)
        end
    end.

(** The outcome of [m] as a value: how a loop body's [try] ended. *)
Definition reify {A : Type} (m : M A) : M (Outcome A) :=
  fun w => match m w with (o, w1, t1) => (Return o, w1, t1) end.

Definition emit (e : Event) : M unit := fun w => (Return tt, w, [e]).

Definition read {A : Type} (f : World -> A) : M A := fun w => (Return (f w), w, []).

Definition modify (f : World -> World) : M unit := fun w => (Return tt, f w, []).

Declare Scope monad_scope.
Delimit Scope monad_scope with monad.
Notation "x <- m ;; k" := (bind m (fun x => k))
  (at level 61, m at next level, right associativity) : monad_scope.
Notation "m ;; k" := (bind m (fun _ => k))
  (at level 61, right associativity) : monad_scope.
Local Open Scope monad_scope.

(** gmail.ts, line 9. *)
Definition CACHE_TTL : Z := 5 * 60 * 1000.

(** ** Primitive steps *)

(** [Date.now()]. *)
Definition Date_now : M Z := read now.

(** Modelled from the spec: [await getUserGmailToken(userId)] is the
    credential store's [get(callerId, integrationKind) -> secret|null] of
    section 6; the repository's [lib/db/queries], which defines it, is not
    among the sources. *)
Definition getUserGmailToken (userId : string) : M (option string) :=
  emit (EvGetToken userId) ;;
  read (fun w => gmailTokens w userId).

(** [new StreamableHTTPClientTransport(serverUrl)] and [new Client(...)]:
    the next session of the process. *)
Definition new_Client : M nat :=
  s <- read sessions ;;
  modify (with_sessions (S s)) ;;
  ret s.

(** [client.connect(transport)]: the promise's fate. *)
Definition client_connect (s : nat) (url : URL) : M (Settle unit) :=
  emit (EvConnect s url) ;;
  modify (fun w => with_now (now w + connect_ms (remote w s)) w) ;;
  read (fun w => on_connect (remote w s)).

(** [client.callTool({ name, arguments })]: the promise's fate. *)
Definition client_callTool (s : nat) (name : string) (args : json) : M (Settle CallToolResult) :=
  emit (EvCallTool s name args) ;;
  modify (fun w => with_now (now w + callTool_ms (remote w s)) w) ;;
  read (fun w => on_callTool (remote w s)).

(** [await client.close()]. *)
Definition client_close (s : nat) : M unit :=
  emit (EvClose s) ;;
  failure <- read (fun w => on_close (remote w s)) ;;
  match failure with
  | Some e => throw e
  | None => ret tt
  end.

(** [await Promise.race([step, timeoutPromise])], where [timeoutPromise]
    rejects with [timedOut] when the attempt's timer fires. *)
Definition race {A : Type} (step : Settle A) (timedOut : Error) : M A :=
  match step with
  | Resolves a => ret a
  | Rejects e => throw e
  | Pending => throw timedOut
  end.

(** [await new Promise(resolve => setTimeout(resolve, delay))]. *)
Definition sleep (delay : Z) : M unit :=
  emit (EvSleep delay) ;;
  modify (fun w => with_now (now w + delay) w).

(** ** The invocation executor (gmail.ts, lines 100-210) *)

Record Options : Type := mkOptions {
  useCache : option bool;
  retries : option Z;
  timeout : option Z
}.

(** A destructuring default: [const { x = d } = options]. *)
Definition default {A : Type} (d : A) (o : option A) : A :=
  match o with Some x => x | None => d end.

(** [toolName === 'list_messages' || toolName === 'search_emails']. *)
Definition is_search_tool (toolName : string) : bool :=
  String.eqb toolName "list_messages" || String.eqb toolName "search_emails".

(** [`${userId}:${toolName}:${JSON.stringify(args)}`]. *)
Definition cacheKey (userId toolName : string) (args : json) : string :=
  userId ++ ":" ++ toolName ++ ":" ++ stringify args.

(** [Array.isArray(v)]. *)
Definition Array_isArray (v : jsval) : bool :=
  match v with
  | Some (JArr _) => true
  | _ => false
  end.

(** [v[0]] on an array. *)
Definition item0 (v : jsval) : jsval :=
  match v with
  | Some (JArr (first :: _)) => Some first
  | _ => None
  end.

(** [v?.key], and [v.key] where [v] is known to be an object. *)
Definition opt_get (key : string) (v : jsval) : jsval :=
  match v with
  | Some j => get key j
  | None => None
  end.

(** [v === 'literal']. *)
Definition strict_equals_string (v : jsval) (literal : string) : bool :=
  match v with
  | Some (JStr s) => String.eqb s literal
  | _ => false
  end.

(** [JSON.stringify(v, null, 2)] on a value that may be [undefined]. *)
Definition JSON_stringify2 (v : jsval) : jsval :=
  match v with
  | Some j => Some (JStr (stringify2 j))
  | None => None
  end.

(** Lines 168-173: the text of the reply. *)
Definition extractResultText (reply : CallToolResult) : jsval :=
  if truthy_jsval (content reply) && Array_isArray (content reply)
     && strict_equals_string (opt_get "type" (item0 (content reply))) "text"
  then opt_get "text" (item0 (content reply))
  else JSON_stringify2 (content reply).

(** Lines 176-187: store a successful search result. *)
Definition cache_store (userId toolName : string) (args : json) (resultText : jsval) : M unit :=
  let key := cacheKey userId toolName args in
  t <- Date_now ;;
  modify (fun w => with_cache (JsMap.set key (mkCacheEntry resultText t) (searchCache w)) w) ;;
  size <- read (fun w => JsMap.size (searchCache w)) ;;
  if size >? 100 then
    oldestKey <- read (fun w => JsMap.first_key (searchCache w)) ;;
    if truthy_string oldestKey then
      modify (fun w => with_cache (JsMap.delete (default "" oldestKey) (searchCache w)) w)
    else ret tt
  else ret tt.

Definition timeoutError (toolName : string) (timeout : Z) : Error :=
  mkError ("Gmail tool " ++ toolName ++ " timed out after " ++ string_of_Z timeout ++ "ms").

Definition gmailServerUrl (smitheryApiKey clientId clientSecret refreshToken : string) : URL :=
  createSmitheryUrl "https://server.smithery.ai/@shinzo-labs/gmail-mcp"
    (mkSmitheryOptions
       (Some (JObj [("debug", JBool false);
                    ("CLIENT_ID", JStr clientId);
                    ("CLIENT_SECRET", JStr clientSecret);
                    ("REFRESH_TOKEN", JStr refreshToken)]))
       (Some smitheryApiKey)
       None).

(** Lines 135-197: the body of one iteration's outer [try]. *)
Definition attempt_body (toolName : string) (args : json) (userId : string)
    (useCache : bool) (timeout : Z) (serverUrl : URL) : M jsval :=
  client <- new_Client ;;
  let timeoutPromise := timeoutError toolName timeout in
  try_catch
    (connecting <- client_connect client serverUrl ;;
     race connecting timeoutPromise ;;
     calling <- client_callTool client toolName args ;;
     reply <- race calling timeoutPromise ;;
     client_close client ;;
     let resultText := extractResultText reply in
     (if useCache && is_search_tool toolName
      then cache_store userId toolName args resultText
      else ret tt) ;;
     ret resultText)
    (fun error =>
       try_catch (client_close client) (fun closeError => ret tt) ;;
       throw error).

(** Lines 133-209: [for (let attempt = 0; attempt <= retries; attempt++)],
    with [remaining] iterations to go ([attempt + remaining = retries + 1]),
    and the final [throw]. *)
Fixpoint retry_loop (remaining : nat) (attempt : Z) (lastError : option Error)
    (toolName : string) (retries : Z) (body : M jsval) : M jsval :=
  match remaining with
  | O =>
      throw (match lastError with
             | Some e => e
             | None => mkError ("Failed to execute " ++ toolName ++ " after "
                                  ++ string_of_Z (retries + 1) ++ " attempts")
             end)
  | S n =>
      tried <- reify body ;;
      match tried with
      | Return resultText => ret resultText
      | Throw error =>
          (if attempt <? retries then sleep (2 ^ attempt * 1000) else ret tt) ;;
          retry_loop n (attempt + 1) (Some error) toolName retries body
      end
  end.

(** Lines 109-116: the cache lookup; [Some r] when the call returns [r]
    from the cache. *)
Definition cache_lookup (useCache : bool) (toolName : string) (args : json) (userId : string)
    : M (option jsval) :=
  if useCache && is_search_tool toolName then
    cached <- read (fun w => JsMap.get (cacheKey userId toolName args) (searchCache w)) ;;
    match cached with
    | Some entry =>
        t <- Date_now ;;
        if t - timestamp entry <? CACHE_TTL then ret (Some (result entry)) else ret None
    | None => ret None
    end
  else ret None.

Definition executeGmailToolEnhanced (toolName : string) (args : json) (userId : string)
    (options : Options) : M jsval :=
  let useCache := default true (useCache options) in
  let retries := default 2 (retries options) in
  let timeout := default 45000 (timeout options) in
  hit <- cache_lookup useCache toolName args userId ;;
  match hit with
  | Some cachedResult => ret cachedResult
  | None =>
      smitheryApiKey <- read (fun w => SMITHERY_API_KEY (env w)) ;;
      clientId <- read (fun w => GOOGLE_CLIENT_ID (env w)) ;;
      clientSecret <- read (fun w => GOOGLE_CLIENT_SECRET (env w)) ;;
      if negb (truthy_string smitheryApiKey) || negb (truthy_string clientId)
         || negb (truthy_string clientSecret)
      then throw (mkError "Gmail configuration missing")
      else
        refreshToken <- getUserGmailToken userId ;;
        if negb (truthy_string refreshToken)
        then throw (mkError "Gmail not connected. Please connect your Gmail account first.")
        else
          retry_loop (Z.to_nat (retries + 1)) 0 None toolName retries
            (attempt_body toolName args userId useCache timeout
               (gmailServerUrl (default "" smitheryApiKey) (default "" clientId)
                  (default "" clientSecret) (default "" refreshToken)))
  end.

(** Lines 213-215. *)
Definition executeGmailTool (toolName : string) (args : json) (userId : string) : M jsval :=
  executeGmailToolEnhanced toolName args userId (mkOptions (Some false) (Some 1) None).

(** Lines 627-629. *)
Definition clearGmailSearchCache : M unit := modify (with_cache []).

(** ** [JSON.parse] *)

(** The JSON grammar of ECMA-404, as [JSON.parse] reads it: a recursive
    descent over the text.  A [\uXXXX] escape is stored as the UTF-8 bytes of
    its character (a surrogate pair as one character); a number keeps its
    text; a repeated key keeps its first place and its last value. *)
Module JsonParse.

Local Open Scope N_scope.

(** The code of a character. *)
Definition code (c : ascii) : N := N_of_ascii c.

Definition is_ws (c : ascii) : bool :=
  (code c =? 32) || (code c =? 9) || (code c =? 10) || (code c =? 13).

Definition is_digit (c : ascii) : bool := (48 <=? code c) && (code c <=? 57).

Definition hex_value (c : ascii) : option N :=
  let n := code c in
  if (48 <=? n) && (n <=? 57) then Some (n - 48)
  else if (97 <=? n) && (n <=? 102) then Some (n - 87)
  else if (65 <=? n) && (n <=? 70) then Some (n - 55)
  else None.

Fixpoint skip_ws (s : string) : string :=
  match s with
  | String c rest => if is_ws c then skip_ws rest else s
  | EmptyString => s
  end.

(** The UTF-8 bytes of the code point [n]. *)
Definition utf8 (n : N) : string :=
  let byte (k : N) : ascii := ascii_of_N k in
  if n <? 128 then String (byte n) ""
  else if n <? 2048 then
    String (byte (192 + n / 64)) (String (byte (128 + n mod 64)) "")
  else if n <? 65536 then
    String (byte (224 + n / 4096))
      (String (byte (128 + (n / 64) mod 64)) (String (byte (128 + n mod 64)) ""))
  else
    String (byte (240 + n / 262144))
      (String (byte (128 + (n / 4096) mod 64))
         (String (byte (128 + (n / 64) mod 64)) (String (byte (128 + n mod 64)) ""))).

(** The code unit written by four hexadecimal digits. *)
Definition hex4 (a b c d : ascii) : option N :=
  match hex_value a, hex_value b, hex_value c, hex_value d with
  | Some x, Some y, Some z, Some t => Some (((x * 16 + y) * 16 + z) * 16 + t)
  | _, _, _, _ => None
  end.

(** The character of a two-character escape. *)
Definition simple_escape (c : ascii) : option ascii :=
  let n := code c in
  if n =? 34 then Some c
  else if n =? 92 then Some c
  else if n =? 47 then Some c
  else if n =? 98 then Some (ascii_of_N 8)
  else if n =? 102 then Some (ascii_of_N 12)
  else if n =? 110 then Some (ascii_of_N 10)
  else if n =? 114 then Some (ascii_of_N 13)
  else if n =? 116 then Some (ascii_of_N 9)
  else None.

Definition is_high_surrogate (n : N) : bool := (55296 <=? n) && (n <=? 56319).

Definition is_low_surrogate (n : N) : bool := (56320 <=? n) && (n <=? 57343).

(** [prefix] in front of the string of a parse. *)
Definition prepend (prefix : string) (parsed : option (string * string))
    : option (string * string) :=
  match parsed with
  | Some (body, after) => Some ((prefix ++ body)%string, after)
  | None => None
  end.

(** The characters of a string literal after its opening quote, up to the
    closing quote: the string, and the text after the quote. *)
Fixpoint string_body (s : string) : option (string * string) :=
  match s with
  | EmptyString => None
  | String c rest =>
      if code c =? 34 then Some (EmptyString, rest)
      else if code c =? 92 then
        match rest with
        | EmptyString => None
        | String e rest1 =>
            if code e =? 117 then
              match rest1 with
              | String h1 (String h2 (String h3 (String h4 rest2))) =>
                  match hex4 h1 h2 h3 h4 with
                  | None => None
                  | Some hi =>
                      match rest2 with
                      | String b (String u (String l1 (String l2 (String l3 (String l4 rest3))))) =>
                          match hex4 l1 l2 l3 l4 with
                          | Some lo =>
                              if is_high_surrogate hi && (code b =? 92) && (code u =? 117)
                                 && is_low_surrogate lo
                              then prepend (utf8 (65536 + (hi - 55296) * 1024 + (lo - 56320)))
                                     (string_body rest3)
                              else prepend (utf8 hi) (string_body rest2)
                          | None => prepend (utf8 hi) (string_body rest2)
                          end
                      | _ => prepend (utf8 hi) (string_body rest2)
                      end
                  end
              | _ => None
              end
            else
              match simple_escape e with
              | None => None
              | Some ch => prepend (String ch "") (string_body rest1)
              end
        end
      else if code c <? 32 then None
      else prepend (String c "") (string_body rest)
  end.

(** The longest prefix of digits, and the rest. *)
Fixpoint digits (s : string) : string * string :=
  match s with
  | String c rest =>
      if is_digit c then let (ds, after) := digits rest in (String c ds, after)
      else (EmptyString, s)
  | EmptyString => (EmptyString, EmptyString)
  end.

(** The character at the head of [s] when it passes [test], and the rest. *)
Definition optional (test : ascii -> bool) (s : string) : string * string :=
  match s with
  | String c rest => if test c then (String c "", rest) else (""%string, s)
  | EmptyString => (""%string, s)
  end.

(** The integer part of a number: [0], or digits that do not start with
    [0]. *)
Definition int_part (s : string) : option (string * string) :=
  match digits s with
  | (EmptyString, _) => None
  | (String c EmptyString, rest) => Some (String c "", rest)
  | (String c more, rest) => if code c =? 48 then None else Some (String c more, rest)
  end.

(** The fraction of a number, if it has one: a point and digits. *)
Definition frac_part (s : string) : option (string * string) :=
  match s with
  | String c rest =>
      if code c =? 46 then
        match digits rest with
        | (EmptyString, _) => None
        | (ds, after) => Some (String c ds, after)
        end
      else Some (""%string, s)
  | EmptyString => Some (""%string, s)
  end.

(** The exponent of a number, if it has one: [e] or [E], a sign or none,
    and digits. *)
Definition exp_part (s : string) : option (string * string) :=
  match s with
  | String c rest =>
      if (code c =? 101) || (code c =? 69) then
        let (sign, rest1) := optional (fun d => (code d =? 43) || (code d =? 45)) rest in
        match digits rest1 with
        | (EmptyString, _) => None
        | (ds, after) => Some (String c (sign ++ ds), after)
        end
      else Some (""%string, s)
  | EmptyString => Some (""%string, s)
  end.

(** A number: its text and the rest. *)
Definition number (s : string) : option (string * string) :=
  let (sign, s1) := optional (fun c => code c =? 45) s in
  match int_part s1 with
  | None => None
  | Some (int, s2) =>
      match frac_part s2 with
      | None => None
      | Some (frac, s3) =>
          match exp_part s3 with
          | None => None
          | Some (exp, s4) => Some ((sign ++ int ++ frac ++ exp)%string, s4)
          end
      end
  end.

(** [s] starts with [word]: the rest of [s]. *)
Fixpoint expect (word s : string) : option string :=
  match word with
  | EmptyString => Some s
  | String c word' =>
      match s with
      | String d rest => if Ascii.eqb c d then expect word' rest else None
      | EmptyString => None
      end
  end.

(** The property list with [key] set to [v]: in place when [key] is
    there, at the end otherwise. *)
Fixpoint obj_set (key : string) (v : json) (members : list (string * json))
    : list (string * json) :=
  match members with
  | [] => [(key, v)]
  | (k, x) :: rest =>
      if String.eqb k key then (k, v) :: rest else (k, x) :: obj_set key v rest
  end.

(** A value, the elements of an array after its first, and the members of
    an object after its first; [fuel] bounds the number of values read. *)
Fixpoint value (fuel : nat) (s : string) {struct fuel} : option (json * string) :=
  match fuel with
  | O => None
  | S fuel' =>
      match skip_ws s with
      | EmptyString => None
      | String c rest =>
          let n := code c in
          if n =? 34 then
            match string_body rest with
            | Some (str, after) => Some (JStr str, after)
            | None => None
            end
          else if n =? 91 then
            match skip_ws rest with
            | String d after =>
                if code d =? 93 then Some (JArr [], after)
                else
                  match value fuel' rest with
                  | Some (first, rest1) =>
                      match elements fuel' rest1 with
                      | Some (others, after1) => Some (JArr (first :: others), after1)
                      | None => None
                      end
                  | None => None
                  end
            | EmptyString => None
            end
          else if n =? 123 then
            match skip_ws rest with
            | String d after =>
                if code d =? 125 then Some (JObj [], after)
                else
                  match member fuel' rest with
                  | Some (kv, rest1) =>
                      match members fuel' [kv] rest1 with
                      | Some (all, after1) => Some (JObj all, after1)
                      | None => None
                      end
                  | None => None
                  end
            | EmptyString => None
            end
          else if n =? 116 then
            match expect "true" (String c rest) with
            | Some after => Some (JBool true, after)
            | None => None
            end
          else if n =? 102 then
            match expect "false" (String c rest) with
            | Some after => Some (JBool false, after)
            | None => None
            end
          else if n =? 110 then
            match expect "null" (String c rest) with
            | Some after => Some (JNull, after)
            | None => None
            end
          else
            match number (String c rest) with
            | Some (text, after) => Some (JNum text, after)
            | None => None
            end
      end
  end

with elements (fuel : nat) (s : string) {struct fuel} : option (list json * string) :=
  match fuel with
  | O => None
  | S fuel' =>
      match skip_ws s with
      | String c rest =>
          let n := code c in
          if n =? 93 then Some ([], rest)
          else if n =? 44 then
            match value fuel' rest with
            | Some (v, rest1) =>
                match elements fuel' rest1 with
                | Some (vs, after) => Some (v :: vs, after)
                | None => None
                end
            | None => None
            end
          else None
      | EmptyString => None
      end
  end

with member (fuel : nat) (s : string) {struct fuel} : option ((string * json) * string) :=
  match fuel with
  | O => None
  | S fuel' =>
      match skip_ws s with
      | String c rest =>
          if code c =? 34 then
            match string_body rest with
            | Some (key, rest1) =>
                match skip_ws rest1 with
                | String d rest2 =>
                    if code d =? 58 then
                      match value fuel' rest2 with
                      | Some (v, after) => Some ((key, v), after)
                      | None => None
                      end
                    else None
                | EmptyString => None
                end
            | None => None
            end
          else None
      | EmptyString => None
      end
  end

with members (fuel : nat) (acc : list (string * json)) (s : string) {struct fuel}
    : option (list (string * json) * string) :=
  match fuel with
  | O => None
  | S fuel' =>
      match skip_ws s with
      | String c rest =>
          let n := code c in
          if n =? 125 then Some (acc, rest)
          else if n =? 44 then
            match member fuel' rest with
            | Some ((key, v), rest1) => members fuel' (obj_set key v acc) rest1
            | None => None
            end
          else None
      | EmptyString => None
      end
  end.

(** [JSON.parse(text)]: [None] when it throws a [SyntaxError]. *)
Definition parse (text : string) : option json :=
  match value (S (String.length text)) text with
  | Some (v, rest) =>
      match skip_ws rest with
      | EmptyString => Some v
      | _ => None
      end
  | None => None
  end.

End JsonParse.

(** ** The query builder (gmail.ts, lines 218-252) *)

Record DateRange : Type := mkDateRange {
  start : option string;
  end_ : option string
}.

Record QueryParams : Type := mkQueryParams {
  naturalQuery : option string;
  dateRange : option DateRange;
  sender : option string;
  hasAttachment : option bool;
  isUnread : option bool
}.

(** [queryParts.push(part)]. *)
Definition push (part : string) (queryParts : list string) : list string :=
  (queryParts ++ [part])%list.

(** [params.dateRange?.start] and [params.dateRange?.end]. *)
Definition dateRange_start (params : QueryParams) : option string :=
  match dateRange params with Some range => start range | None => None end.

Definition dateRange_end (params : QueryParams) : option string :=
  match dateRange params with Some range => end_ range | None => None end.

(** Truthiness of an optional flag. *)
Definition truthy_flag (flag : option bool) : bool := default false flag.

Definition buildGmailQuery (params : QueryParams) : string :=
  let queryParts : list string := [] in
  let queryParts :=
    if truthy_string (naturalQuery params)
    then push (default "" (naturalQuery params)) queryParts else queryParts in
  let queryParts :=
    if truthy_string (dateRange_start params)
    then push ("after:" ++ default "" (dateRange_start params)) queryParts else queryParts in
  let queryParts :=
    if truthy_string (dateRange_end params)
    then push ("before:" ++ default "" (dateRange_end params)) queryParts else queryParts in
  let queryParts :=
    if truthy_string (sender params)
    then push ("from:" ++ default "" (sender params)) queryParts else queryParts in
  let queryParts :=
    if truthy_flag (hasAttachment params)
    then push "has:attachment" queryParts else queryParts in
  let queryParts :=
    if truthy_flag (isUnread params)
    then push "is:unread" queryParts else queryParts in
  join " " queryParts.

(** ** The list normalizer (gmail.ts, lines 255-318) *)

(** Code that throws and catches but touches no module state: its
    [Outcome]. *)
Definition and_then {A B : Type} (o : Outcome A) (k : A -> Outcome B) : Outcome B :=
  match o with
  | Return a => k a
  | Throw e => Throw e
  end.

(** [JSON.parse(text)], which throws a [SyntaxError] on text that is not
    JSON. *)
Definition JSON_parse (text : string) : Outcome json :=
  match JsonParse.parse text with
  | Some v => Return v
  | None => Throw (mkError "SyntaxError: Unexpected token in JSON")
  end.

Definition no_emails_found : string := "No emails found matching your search criteria.".

(** Line 268. *)
Definition found_header (count : nat) : string :=
  "ðŸ“§ Found " ++ string_of_Z (Z.of_nat count) ++ " email"
    ++ (if Nat.eqb count 1 then "" else "s") ++ ":" ++ newline ++ newline.

(** Line 311. *)
Definition tip_line : string :=
  "ðŸ’¡ **Tip**: Ask me to " ++ dquote ++ "get the content of email ID [email-id]" ++ dquote
    ++ " to read the full email.".

Section FormatEmailResults.

(** Lines 271-308, the body of the [forEach] callback: the text it appends
    to [formattedResult] for [email] at [index], or the error it throws on an
    item it cannot read.  The properties below hold whatever this text is. *)
Variable format_email : json -> nat -> Outcome string.

(** Lines 270-309: [emails.forEach((email, index) => ...)]. *)
Fixpoint forEach_email (emails : list json) (index : nat) (formattedResult : string)
    : Outcome string :=
  match emails with
  | [] => Return formattedResult
  | email :: rest =>
      and_then (format_email email index)
        (fun block => forEach_email rest (S index) (formattedResult ++ block))
  end.

(** Lines 257-313: the body of the [try]. *)
Definition formatEmailResults_try (emailData : string) : Outcome string :=
  and_then (JSON_parse emailData) (fun parsed =>
    if negb (truthy parsed) || negb (Array_isArray (get "messages" parsed))
    then Return emailData
    else
      let emails :=
        match get "messages" parsed with
        | Some (JArr items) => items
        | _ => []
        end in
      if Nat.eqb (length emails) 0 then Return no_emails_found
      else
        and_then (forEach_email emails 0 (found_header (length emails)))
          (fun formattedResult => Return (formattedResult ++ tip_line))).

(** Lines 255-318. *)
Definition formatEmailResults (emailData : string) : string :=
  match formatEmailResults_try emailData with
  | Return formatted => formatted
  | Throw error => emailData
  end.

End FormatEmailResults.

(** ** Summaries of the executor's steps

    Pure descriptions of what one attempt and one cache store do; the
    lemmas below prove that the monadic code computes them. *)

(** The map after lines 177-186: the entry set, then the oldest key
    deleted when the population exceeds 100. *)
Definition stored (key : string) (entry : CacheEntry) (m : JsMap.t) : JsMap.t :=
  let m1 := JsMap.set key entry m in
  if JsMap.size m1 >? 100 then
    match JsMap.first_key m1 with
    | Some (String c k) => JsMap.delete (String c k) m1
    | _ => m1
    end
  else m1.

(** How an attempt on session [s] ends: with the reply, or with the error
    its [try] block throws. *)
Definition attempt_outcome (toolName : string) (timeout : Z) (s : Session) : Outcome CallToolResult :=
  match on_connect s with
  | Rejects e => Throw e
  | Pending => Throw (timeoutError toolName timeout)
  | Resolves _ =>
      match on_callTool s with
      | Rejects e => Throw e
      | Pending => Throw (timeoutError toolName timeout)
      | Resolves reply =>
          match on_close s with
          | Some e => Throw e
          | None => Return reply
          end
      end
  end.

Definition attempt_result (toolName : string) (timeout : Z) (s : Session) : Outcome jsval :=
  match attempt_outcome toolName timeout s with
  | Return reply => Return (extractResultText reply)
  | Throw e => Throw e
  end.

(** The events of an attempt on the [k]-th session. *)
Definition attempt_events (toolName : string) (args : json) (url : URL) (k : nat) (s : Session)
    : list Event :=
  EvConnect k url ::
  match on_connect s with
  | Resolves _ =>
      EvCallTool k toolName args ::
      match on_callTool s with
      | Resolves _ =>
          match on_close s with
          | Some _ => [EvClose k; EvClose k]
          | None => [EvClose k]
          end
      | _ => [EvClose k]
      end
  | _ => [EvClose k]
  end.

(** [Date.now()] at the end of an attempt that started at [t]. *)
Definition attempt_clock (s : Session) (t : Z) : Z :=
  match on_connect s with
  | Resolves _ => t + connect_ms s + callTool_ms s
  | _ => t + connect_ms s
  end.

(** The cache after an attempt. *)
Definition attempt_cache (toolName : string) (args : json) (userId : string) (useCache : bool)
    (timeout : Z) (s : Session) (t : Z) (m : JsMap.t) : JsMap.t :=
  match attempt_outcome toolName timeout s with
  | Return reply =>
      if useCache && is_search_tool toolName
      then stored (cacheKey userId toolName args)
             (mkCacheEntry (extractResultText reply) (attempt_clock s t)) m
      else m
  | Throw _ => m
  end.

(** The result the cache lookup of lines 109-116 returns, if any. *)
Definition cached_result (useCache : bool) (toolName : string) (args : json) (userId : string)
    (w : World) : option jsval :=
  if useCache && is_search_tool toolName then
    match JsMap.get (cacheKey userId toolName args) (searchCache w) with
    | Some entry =>
        if now w - timestamp entry <? CACHE_TTL then Some (result entry) else None
    | None => None
    end
  else None.

(** Line 122: the three settings are all present. *)
Definition config_present (e : ProcessEnv) : bool :=
  truthy_string (SMITHERY_API_KEY e) && truthy_string (GOOGLE_CLIENT_ID e)
  && truthy_string (GOOGLE_CLIENT_SECRET e).

(** The connection URL a call of [userId] uses in world [w]. *)
Definition serverUrl_of (w : World) (userId : string) : URL :=
  gmailServerUrl (default "" (SMITHERY_API_KEY (env w))) (default "" (GOOGLE_CLIENT_ID (env w)))
    (default "" (GOOGLE_CLIENT_SECRET (env w))) (default "" (gmailTokens w userId)).

(** The cache of the process: at most 100 entries, under keys that are not
    empty. *)
Definition cache_ok (m : JsMap.t) : Prop :=
  (length m <= 100)%nat /\ Forall (fun kv => fst kv <> ""%string) m.

(** ** Observations on a trace *)

(** The sessions opened, in order. *)
Fixpoint connects (tr : list Event) : list nat :=
  match tr with
  | [] => []
  | EvConnect k _ :: rest => k :: connects rest
  | _ :: rest => connects rest
  end.

(** How often session [k] was opened and closed. *)
Fixpoint opens_of (k : nat) (tr : list Event) : nat :=
  match tr with
  | [] => 0
  | EvConnect j _ :: rest => (if Nat.eqb j k then 1 else 0) + opens_of k rest
  | _ :: rest => opens_of k rest
  end.

Fixpoint closes_of (k : nat) (tr : list Event) : nat :=
  match tr with
  | [] => 0
  | EvClose j :: rest => (if Nat.eqb j k then 1 else 0) + closes_of k rest
  | _ :: rest => closes_of k rest
  end.

(** The backoff delays slept, in order. *)
Fixpoint sleeps (tr : list Event) : list Z :=
  match tr with
  | [] => []
  | EvSleep ms :: rest => ms :: sleeps rest
  | _ :: rest => sleeps rest
  end.

(** How often the remote procedure [name] was invoked. *)
Fixpoint tool_calls (name : string) (tr : list Event) : nat :=
  match tr with
  | [] => 0
  | EvCallTool _ n _ :: rest => (if String.eqb n name then 1 else 0) + tool_calls name rest
  | _ :: rest => tool_calls name rest
  end.

(** How often the credential store was read. *)
Fixpoint token_reads (tr : list Event) : nat :=
  match tr with
  | [] => 0
  | EvGetToken _ :: rest => 1 + token_reads rest
  | _ :: rest => token_reads rest
  end.

(** The delays [Math.pow(2, attempt) * 1000] of [count] consecutive
    attempts, the first numbered [attempt]. *)
Fixpoint backoff_delays (attempt : Z) (count : nat) : list Z :=
  match count with
  | O => []
  | S c => 2 ^ attempt * 1000 :: backoff_delays (attempt + 1) c
  end.

(** The world after one attempt started in [w]. *)
Definition after_attempt (toolName : string) (args : json) (userId : string) (useCache : bool)
    (timeout : Z) (w : World) : World :=
  let k := sessions w in
  let s := remote w k in
  with_sessions (S k)
    (with_now (attempt_clock s (now w))
       (with_cache (attempt_cache toolName args userId useCache timeout s (now w)
                      (searchCache w)) w)).

(** Line 209: the error thrown when the loop ends. *)
Definition exhausted_error (lastError : option Error) (toolName : string) (retries : Z) : Error :=
  match lastError with
  | Some e => e
  | None => mkError ("Failed to execute " ++ toolName ++ " after "
                       ++ string_of_Z (retries + 1) ++ " attempts")
  end.

(** ** Observations on a run *)

Definition outcome_of {A : Type} (run : Outcome A * World * list Event) : Outcome A :=
  fst (fst run).

Definition world_of {A : Type} (run : Outcome A * World * list Event) : World :=
  snd (fst run).

Definition trace_of {A : Type} (run : Outcome A * World * list Event) : list Event :=
  snd run.

(** The call is not answered from the cache, the process is configured and
    the caller has a credential: the call enters the retry loop. *)
Definition reaches_remote (options : Options) (toolName : string) (args : json) (userId : string)
    (w : World) : Prop :=
  cached_result (default true (useCache options)) toolName args userId w = None
  /\ config_present (env w) = true
  /\ truthy_string (gmailTokens w userId) = true.

(** ** The Gmail tools that go through the legacy wrapper (lines 459-512) *)

Definition sendMessage (userId : string) (args : json) : M jsval :=
  executeGmailTool "send_message" args userId.

Definition getMessage (userId : string) (args : json) : M jsval :=
  executeGmailTool "get_message" args userId.

Definition createDraft (userId : string) (args : json) : M jsval :=
  executeGmailTool "create_draft" args userId.

Definition listLabels (userId : string) (args : json) : M jsval :=
  executeGmailTool "list_labels" args userId.

Definition createLabel (userId : string) (args : json) : M jsval :=
  executeGmailTool "create_label" args userId.

(** ** The reply text, in words *)

(** The item is text-typed: [item?.type === 'text']. *)
Definition is_text_item (item : json) : bool :=
  match get "type" item with
  | Some (JStr t) => String.eqb t "text"
  | _ => false
  end.

(** What the executor returns for a content list: the text payload of the
    first item when that item is text-typed, the JSON dump of the whole
    content otherwise. *)
Definition first_item_text_else_dump (items : list json) : jsval :=
  match items with
  | first :: _ =>
      if is_text_item first then get "text" first
      else Some (JStr (stringify2 (JArr items)))
  | [] => Some (JStr (stringify2 (JArr items)))
  end.

(** The reading the specification gives: the text payload of the first
    text-typed item of the list, the JSON dump of the whole content when the
    list has no text-typed item. *)
Definition first_text_typed_else_dump (items : list json) : jsval :=
  match find is_text_item items with
  | Some item => get "text" item
  | None => Some (JStr (stringify2 (JArr items)))
  end.

(** ** Sample data *)

Module Sample.

Definition env0 : ProcessEnv :=
  mkProcessEnv (Some "smithery-key") (Some "client-id") (Some "client-secret").

(** Only alice has connected her account. *)
Definition tokens0 (userId : string) : option string :=
  if String.eqb userId "alice" then Some "refresh-token" else None.

Definition args0 : json :=
  JObj [("q", JStr "invoice"); ("maxResults", JNum "10"); ("labelIds", JArr [JStr "INBOX"])].

Definition mail0 : json :=
  JObj [("to", JArr [JStr "bob@example.com"]); ("subject", JStr "Hi"); ("body", JStr "Hello")].

Definition text_item (t : string) : json := JObj [("type", JStr "text"); ("text", JStr t)].

Definition image_item : json :=
  JObj [("type", JStr "image"); ("data", JStr "AAAA"); ("mimeType", JStr "image/png")].

Definition reply0 : CallToolResult := mkCallToolResult (Some (JArr [text_item "done"])).

Definition reply_image_then_text : CallToolResult :=
  mkCallToolResult (Some (JArr [image_item; text_item "hello"])).

Definition boom : Error := mkError "fetch failed".

(** A session that works. *)
Definition session_ok : Session := mkSession (Resolves tt) 120 (Resolves reply0) 340 None.

(** A session of a remote that is down. *)
Definition session_down : Session := mkSession (Rejects boom) 50 (Rejects boom) 0 None.

(** A session on which the tool call is accepted and never answered. *)
Definition session_hangs : Session := mkSession (Resolves tt) 120 Pending 44880 None.

(** A session that works until [close], which rejects. *)
Definition session_close_throws : Session :=
  mkSession (Resolves tt) 120 (Resolves reply0) 340 (Some (mkError "close failed")).

Definition session_image_then_text : Session :=
  mkSession (Resolves tt) 120 (Resolves reply_image_then_text) 340 None.

(** A fresh process at some instant, with the given remote. *)
Definition world0 (remote : nat -> Session) : World :=
  mkWorld [] 1700000000000 env0 tokens0 remote 0.

(** The first [n] sessions behave as [bad], the later ones as [good]. *)
Definition first_then (n : nat) (bad good : Session) (k : nat) : Session :=
  if Nat.ltb k n then bad else good.

Definition search_options : Options := mkOptions (Some true) None None.

(** One minute after a search of alice was cached, her credential is gone. *)
Definition world_cached_and_disconnected : World :=
  mkWorld
    [(cacheKey "alice" "list_messages" args0,
      mkCacheEntry (Some (JStr "cached text")) 1700000000000)]
    1700000060000 env0 (fun _ => None) (fun _ => session_ok) 1.

End Sample.

(** ** The query, in words *)

(** A text field of the query: present when it is a non-empty string, and
    then written behind its operator. *)
Definition text_field (operator : string) (value : option string) : option string :=
  if truthy_string value then Some (operator ++ default "" value) else None.

(** A flag of the query: present when it is [true], and then written as its
    operator. *)
Definition flag_field (operator : string) (flag : option bool) : option string :=
  if truthy_flag flag then Some operator else None.

(** The fields in their fixed order: free text, date-after, date-before,
    sender, attachment, unread. *)
Definition query_fields (params : QueryParams) : list (option string) :=
  [text_field "" (naturalQuery params);
   text_field "after:" (dateRange_start params);
   text_field "before:" (dateRange_end params);
   text_field "from:" (sender params);
   flag_field "has:attachment" (hasAttachment params);
   flag_field "is:unread" (isUnread params)].

(** The fields that are present, in order. *)
Fixpoint omit_absent (fields : list (option string)) : list string :=
  match fields with
  | [] => []
  | Some text :: rest => text :: omit_absent rest
  | None :: rest => omit_absent rest
  end.

(** The example of the specification. *)
Definition invoice_params : QueryParams :=
  mkQueryParams (Some "invoice") (Some (mkDateRange (Some "2024-01-01") None))
    (Some "a@b.com") (Some true) (Some true).

(** ** More sample data *)

Module Sample2.

(** A cache at its capacity: 100 entries under the keys k0 .. k99, k0 the
    oldest. *)
Definition full_cache : JsMap.t :=
  map (fun n : nat => ("k" ++ string_of_Z (Z.of_nat n), mkCacheEntry (Some (JStr "old")) 0))
      (seq 0 100).

Definition world_full (remote : nat -> Session) : World :=
  mkWorld full_cache 1700000000000 Sample.env0 Sample.tokens0 remote 0.

(** A process started without its Smithery key. *)
Definition world_unconfigured : World :=
  mkWorld [] 1700000000000
    (mkProcessEnv None (Some "client-id") (Some "client-secret"))
    Sample.tokens0 (fun _ => Sample.session_ok) 0.

End Sample2.

(** ** Tactics for running the monadic code *)

(** Unfolds the monad and the primitive steps, and computes on a world
    given by its fields. *)
Ltac run_steps :=
  cbv beta iota zeta delta
      [bind try_catch reify new_Client client_connect client_callTool client_close
       race Date_now read modify emit ret throw sleep getUserGmailToken
       with_now with_sessions with_cache
       now sessions remote env searchCache gmailTokens].

(** [run_steps], using the equations in the context for the behaviour of
    the session at hand. *)
Ltac crunch :=
  run_steps;
  repeat (match goal with
          | H : ?x = _ |- context [match ?x with _ => _ end] => rewrite H
          end; run_steps).

(** The components of equal runs are equal. *)
Definition triple_inv {A B C : Type} (a a' : A) (b b' : B) (c c' : C)
    (H : (a, b, c) = (a', b', c')) : a = a' /\ b = b' /\ c = c' :=
  conj (f_equal (fun x => fst (fst x)) H)
       (conj (f_equal (fun x => snd (fst x)) H) (f_equal (fun x => snd x) H)).

Ltac triple H := apply triple_inv in H; destruct H as (<- & <- & <-).

From Stdlib Require Import DecimalPos.

(** ** Further observations *)


(** The string holds a colon, the separator of the cache key. *)
Fixpoint has_colon (s : string) : bool :=
  match s with
  | EmptyString => false
  | String c rest => (c =? ":")%char || has_colon rest
  end.

(** The key was built for a caller other than [userId]; callers are
    identified by strings without a colon. *)
Definition key_of_another_caller (userId key : string) : Prop :=
  exists owner toolName args,
    key = cacheKey owner toolName args /\ has_colon owner = false /\ owner <> userId.


Module Sample3.

(** Alice and bob have both connected their accounts. *)
Definition tokens2 (userId : string) : option string :=
  if String.eqb userId "alice" then Some "refresh-token"
  else if String.eqb userId "bob" then Some "token-of-bob"
  else None.

(** Alice's search was cached one minute ago; bob has cached nothing. *)
Definition world_alice_cached : World :=
  mkWorld
    [(cacheKey "alice" "list_messages" Sample.args0,
      mkCacheEntry (Some (JStr "mail of alice")) 1700000000000)]
    1700000060000 Sample.env0 tokens2 (fun _ => Sample.session_ok) 1.


(** A cache at its capacity whose oldest entry is alice's search, stored
    five minutes before the current instant of [world_stale]. *)
Definition stale_cache : JsMap.t :=
  (cacheKey "alice" "list_messages" Sample.args0, mkCacheEntry (Some (JStr "old")) 1699999700000)
  :: tl Sample2.full_cache.

Definition world_stale (remote : nat -> Session) : World :=
  mkWorld stale_cache 1700000000000 Sample.env0 tokens2 remote 0.

(** Another search of alice. *)
Definition args1 : json :=
  JObj [("q", JStr "receipt"); ("maxResults", JNum "10"); ("labelIds", JArr [JStr "INBOX"])].

End Sample3.

(** * The tools that list and search (gmail.ts, lines 321-624) *)

(** ** JavaScript conversions *)

(** [haystack.startsWith(needle)]. *)
Fixpoint starts_with (haystack needle : string) : bool :=
  match needle, haystack with
  | EmptyString, _ => true
  | String a needle', String b haystack' => Ascii.eqb a b && starts_with haystack' needle'
  | String _ _, EmptyString => false
  end.

(** [haystack.includes(needle)]. *)
Fixpoint includes (haystack needle : string) : bool :=
  starts_with haystack needle
  || match haystack with
     | EmptyString => false
     | String _ rest => includes rest needle
     end.

(** The UTF-16 code units of the character that starts with byte [c] of a
    UTF-8 text: none for a continuation byte, two for the lead byte of a
    four-byte sequence, one otherwise. *)
Definition utf16_units (c : ascii) : nat :=
  let n := nat_of_ascii c in
  if Nat.ltb n 128 then 1%nat
  else if Nat.ltb n 192 then 0%nat
  else if Nat.ltb n 240 then 1%nat
  else 2%nat.

(** [s.length]. *)
Fixpoint utf16_length (s : string) : nat :=
  match s with
  | EmptyString => 0%nat
  | String c rest => (utf16_units c + utf16_length rest)%nat
  end.

Definition TypeError (what : string) : Error := mkError ("TypeError: " ++ what).

(** ToString on a value that came out of JSON.  An array is joined with
    commas, [null] elements as the empty string; an object is
    "[object Object]", unless it has a property [toString] of its own, which
    is not callable and leaves no way to a primitive. *)
Fixpoint ToString (v : json) : Outcome string :=
  match v with
  | JNull => Return "null"
  | JBool true => Return "true"
  | JBool false => Return "false"
  | JNum text => Return text
  | JStr s => Return s
  | JArr items =>
      and_then
        ((fix elements (l : list json) : Outcome (list string) :=
            match l with
            | [] => Return []
            | item :: rest =>
                and_then (match item with
                          | JNull => Return ""
                          | _ => ToString item
                          end)
                  (fun head => and_then (elements rest) (fun tail => Return (head :: tail)))
            end) items)
        (fun parts => Return (join "," parts))
  | JObj members =>
      match assoc "toString" members with
      | Some _ => Throw (TypeError "Cannot convert object to primitive value")
      | None => Return "[object Object]"
      end
  end.

(** [String(v)] on a value that may be [undefined]. *)
Definition String_of (v : jsval) : Outcome string :=
  match v with
  | Some j => ToString j
  | None => Return "undefined"
  end.

(** [JSON.parse(v)] on a value of type [any]: the argument is converted to
    a string first. *)
Definition JSON_parse_any (v : jsval) : Outcome json :=
  and_then (String_of v) JSON_parse.

(** [v.key], which throws on [null]. *)
Definition read_property (key : string) (v : json) : Outcome jsval :=
  match v with
  | JNull => Throw (TypeError ("Cannot read properties of null (reading '" ++ key ++ "')"))
  | _ => Return (get key v)
  end.

(** [v.length] on a value that is neither [null] nor [undefined]. *)
Definition length_of (v : json) : jsval :=
  match v with
  | JArr items => Some (JNum (string_of_Z (Z.of_nat (length items))))
  | JStr s => Some (JNum (string_of_Z (Z.of_nat (utf16_length s))))
  | JObj members => assoc "length" members
  | _ => None
  end.

(** An object literal's property [key: v]; a property whose value is
    [undefined] is not serialized and is left out. *)
Definition property (key : string) (v : jsval) : list (string * json) :=
  match v with
  | Some x => [(key, x)]
  | None => []
  end.

(** An asynchronous step that only computes. *)
Definition of_outcome {A : Type} (o : Outcome A) : M A :=
  match o with
  | Return a => ret a
  | Throw e => throw e
  end.

(** ** The search history *)

(** The record passed to [saveGmailSearchHistory]. *)
Record SearchHistory : Type := mkSearchHistory {
  history_userId : string;
  query : string;
  resultCount : json;
  executionTime : Z
}.

(** The history store: the rows it holds, oldest first, and the error with
    which it rejects a record, if it does. *)
Record HistoryStore : Type := mkHistoryStore {
  rows : list SearchHistory;
  refuses : SearchHistory -> option Error
}.

(** Modelled from the spec: [await saveGmailSearchHistory(record)] is the
    History Store's [append(record) -> ok|failure] of section 6; the
    repository's [lib/db/queries], which defines it, is not among the
    sources. *)
Definition saveGmailSearchHistory (record : SearchHistory) (store : HistoryStore)
    : Outcome unit * HistoryStore :=
  match refuses store record with
  | Some e => (Throw e, store)
  | None => (Return tt, mkHistoryStore (rows store ++ [record])%list (refuses store))
  end.

(** [parsed.messages?.length || 0] (lines 531, 574, 609). *)
Definition resultCount_of (parsed : json) : Outcome json :=
  and_then (read_property "messages" parsed) (fun messages =>
    let count :=
      match messages with
      | None | Some JNull => None
      | Some list => length_of list
      end in
    Return (if truthy_jsval count then default (JNum "0") count else JNum "0")).

(** Lines 529-540, 572-583 and 606-618: the [try] that saves the search,
    and its empty [catch]. *)
Definition save_search_history (userId query : string) (result : jsval) (executionTime : Z)
    (store : HistoryStore) : HistoryStore :=
  match and_then (JSON_parse_any result) resultCount_of with
  | Return resultCount =>
      snd (saveGmailSearchHistory (mkSearchHistory userId query resultCount executionTime) store)
  | Throw _ => store
  end.

(** ** The arguments of the tools, as their schemas validate them

    A validated argument object lists its properties in the order of the
    schema; an optional property that was not given is absent. *)

Definition strings (l : list string) : json := JArr (map JStr l).

(** Lines 42-46. *)
Module ListMessages.
Record Args : Type := mkArgs {
  q : option string;
  maxResults : string;
  labelIds : option (list string)
}.

(** [{ ...args }]. *)
Definition spread (args : Args) : list (string * json) :=
  (property "q" (option_map JStr (q args))
   ++ [("maxResults", JNum (maxResults args))]
   ++ property "labelIds" (option_map strings (labelIds args)))%list.
End ListMessages.

(** Lines 71-74. *)
Module SearchEmails.
Record Args : Type := mkArgs {
  q : string;
  maxResults : string
}.

Definition spread (args : Args) : list (string * json) :=
  [("q", JStr (q args)); ("maxResults", JNum (maxResults args))].
End SearchEmails.

(** Lines 77-84. *)
Module EnhancedSearch.
Record Args : Type := mkArgs {
  q : string;
  maxResults : string;
  pageToken : option string;
  includeSpamTrash : bool;
  format : string;
  labelIds : option (list string)
}.

Definition spread (args : Args) : list (string * json) :=
  ([("q", JStr (q args)); ("maxResults", JNum (maxResults args))]
   ++ property "pageToken" (option_map JStr (pageToken args))
   ++ [("includeSpamTrash", JBool (includeSpamTrash args)); ("format", JStr (format args))]
   ++ property "labelIds" (option_map strings (labelIds args)))%list.
End EnhancedSearch.

(** Lines 87-97: the fields of the query, and [maxResults]. *)
Module SemanticSearch.
Record Args : Type := mkArgs {
  params : QueryParams;
  maxResults : string
}.
End SemanticSearch.

(** Lines 473-475 and 598-600: the INBOX filter is added when no label was
    given and the query does not ask for sent mail. *)
Definition add_inbox_filter (q : option string) (searchArgs : list (string * json))
    : list (string * json) :=
  if negb (truthy_jsval (assoc "labelIds" searchArgs))
     && (negb (truthy_string q) || negb (includes (default "" q) "in:sent"))
  then JsonParse.obj_set "labelIds" (strings ["INBOX"]) searchArgs
  else searchArgs.

(** ** The listings *)

(** Line 446. *)
Definition showing_first_5 (count : nat) : string :=
  "ðŸ“ **Note:** Showing first 5 of " ++ string_of_Z (Z.of_nat count) ++ " emails. Ask me to search with more specific criteria to narrow results." ++ newline ++ newline.

(** Line 449. *)
Definition content_tip : string := "ðŸ’¡ **Tip:** I automatically fetched the email content for you. No need to ask for individual emails by ID!".

(** The [messages] of a parsed listing. *)
Definition messages_of (parsed : json) : list json :=
  match get "messages" parsed with
  | Some (JArr items) => items
  | _ => []
  end.

(** Line 344: the arguments of the fetch. *)
Definition get_message_args (id : jsval) : json :=
  JObj (property "id" id ++ [("format", JStr "full")])%list.

Section Listings.

(** Lines 271-308, as in [formatEmailResults]. *)
Variable format_email : json -> nat -> Outcome string.

(** Lines 352-431: what the [try] does with [email] once the full message
    [fullEmail] is fetched and parsed: the text it has appended to
    [formattedResult], and the error it throws, if it throws, on a message it
    cannot read.  A throw may come after some lines were appended. *)
Variable render_full : json -> json -> nat -> string * option Error.

(** Lines 435-441, the [catch]: the text it appends for [email], or the
    error it throws. *)
Variable render_fallback : json -> nat -> Outcome string.

(** [formatEmailResults] (lines 255-318) on the value the executor
    returned, which has type [any]. *)
Definition formatEmailResults_any (emailData : jsval) : jsval :=
  match
    and_then (JSON_parse_any emailData) (fun parsed =>
      if negb (truthy parsed) || negb (Array_isArray (get "messages" parsed))
      then Return emailData
      else
        let emails := messages_of parsed in
        if Nat.eqb (length emails) 0 then Return (Some (JStr no_emails_found))
        else
          and_then (forEach_email format_email emails 0 (found_header (length emails)))
            (fun formattedResult => Return (Some (JStr (formattedResult ++ tip_line)))))
  with
  | Return formatted => formatted
  | Throw error => emailData
  end.

(** Lines 340-442: one iteration of the loop. *)
Definition fetch_email (userId : string) (email : json) (index : nat) (formattedResult : string)
    : M string :=
  fetched <- reify
    (id <- of_outcome (read_property "id" email) ;;
     fullEmailData <- executeGmailTool "get_message" (get_message_args id) userId ;;
     of_outcome (JSON_parse_any fullEmailData)) ;;
  let rendered :=
    match fetched with
    | Return fullEmail => render_full email fullEmail index
    | Throw error => ("", Some error)
    end in
  match snd rendered with
  | None => ret (formattedResult ++ fst rendered)
  | Some error =>
      block <- of_outcome (render_fallback email index) ;;
      ret (formattedResult ++ fst rendered ++ block)
  end.

(** Lines 339-443: [for (let index = 0; index < emailsToProcess.length;
    index++)]. *)
Fixpoint fetch_emails (userId : string) (emailsToProcess : list json) (index : nat)
    (formattedResult : string) : M string :=
  match emailsToProcess with
  | [] => ret formattedResult
  | email :: rest =>
      formattedResult <- fetch_email userId email index formattedResult ;;
      fetch_emails userId rest (S index) formattedResult
  end.

(** Lines 321-456. *)
Definition formatEmailResultsWithContent (emailData : jsval) (userId : string) : M jsval :=
  try_catch
    (parsed <- of_outcome (JSON_parse_any emailData) ;;
     if negb (truthy parsed) || negb (Array_isArray (get "messages" parsed))
     then ret emailData
     else
       let emails := messages_of parsed in
       if Nat.eqb (length emails) 0 then ret (Some (JStr no_emails_found))
       else
         let emailsToProcess := firstn 5 emails in
         formattedResult <-
           fetch_emails userId emailsToProcess 0 (found_header (length emails)) ;;
         let formattedResult :=
           if Nat.ltb 5 (length emails)
           then formattedResult ++ showing_first_5 (length emails)
           else formattedResult in
         ret (Some (JStr (formattedResult ++ content_tip))))
    (fun error => ret emailData).

(** ** The tools *)

(** Lines 467-480. *)
Definition listMessages (userId : string) (args : ListMessages.Args) : M jsval :=
  let searchArgs := add_inbox_filter (ListMessages.q args) (ListMessages.spread args) in
  result <- executeGmailTool "list_messages" (JObj searchArgs) userId ;;
  formatEmailResultsWithContent result userId.

(** Lines 524-526, 567-569 and 602-604: the search through the executor,
    with the cache enabled, and the time it took. *)
Definition timed_search (searchArgs : json) (userId : string) : M (jsval * Z) :=
  startTime <- Date_now ;;
  result <- executeGmailToolEnhanced "list_messages" searchArgs userId
              (mkOptions (Some true) None None) ;;
  endTime <- Date_now ;;
  ret (result, endTime - startTime).

(** Lines 514-546.  The tool returns its text; the history store is passed
    along. *)
Definition searchEmails (userId : string) (args : SearchEmails.Args) (history : HistoryStore)
    : M (jsval * HistoryStore) :=
  let searchArgs :=
    JsonParse.obj_set "labelIds" (strings ["INBOX"]) (SearchEmails.spread args) in
  timed <- timed_search (JObj searchArgs) userId ;;
  let (result, executionTime) := timed in
  let history := save_search_history userId (SearchEmails.q args) result executionTime history in
  formattedResult <- formatEmailResultsWithContent result userId ;;
  ret (formattedResult, history).

(** Lines 549-589. *)
Definition semanticEmailSearch (userId : string) (args : SemanticSearch.Args)
    (history : HistoryStore) : M (jsval * HistoryStore) :=
  let gmailQuery := buildGmailQuery (SemanticSearch.params args) in
  let labelIds :=
    if includes gmailQuery "in:sent" || includes gmailQuery ("from:" ++ userId)
    then ["SENT"] else ["INBOX"] in
  let searchArgs :=
    JObj [("q", JStr gmailQuery);
          ("maxResults", JNum (SemanticSearch.maxResults args));
          ("labelIds", strings labelIds)] in
  timed <- timed_search searchArgs userId ;;
  let (result, executionTime) := timed in
  let history := save_search_history userId gmailQuery result executionTime history in
  let formattedResult := formatEmailResults_any result in
  ret (formattedResult, history).

(** Lines 592-624. *)
Definition enhancedEmailSearch (userId : string) (args : EnhancedSearch.Args)
    (history : HistoryStore) : M (jsval * HistoryStore) :=
  let searchArgs :=
    add_inbox_filter (Some (EnhancedSearch.q args)) (EnhancedSearch.spread args) in
  timed <- timed_search (JObj searchArgs) userId ;;
  let (result, executionTime) := timed in
  let history :=
    save_search_history userId (EnhancedSearch.q args) result executionTime history in
  let formattedResult := formatEmailResults_any result in
  ret (formattedResult, history).

End Listings.

(** ** Observations on the tools *)

(** The computation neither reads nor writes the cache: on any other cache
    it does the same, and leaves that cache as it found it. *)
Definition cache_oblivious {A : Type} (m : M A) : Prop :=
  forall w c,
    m (with_cache c w) = match m w with (o, w', tr) => (o, with_cache c w', tr) end.

(** The text a search tool returns, without the history store. *)
Definition text_of (o : Outcome (jsval * HistoryStore)) : Outcome jsval :=
  match o with
  | Return (text, _) => Return text
  | Throw e => Throw e
  end.

(** The history store a search tool leaves: the one it returns, or the one
    it was given when it throws. *)
Definition history_of (o : Outcome (jsval * HistoryStore)) (given : HistoryStore)
    : HistoryStore :=
  match o with
  | Return (_, history) => history
  | Throw _ => given
  end.

(** The messages a listing holds: those of its [messages] array, none when
    the text is not JSON or holds no such array. *)
Definition listed_messages (emailData : jsval) : list json :=
  match JSON_parse_any emailData with
  | Return parsed =>
      if negb (truthy parsed) || negb (Array_isArray (get "messages" parsed)) then []
      else messages_of parsed
  | Throw _ => []
  end.

(** The event is an invocation of [list_messages] with [searchArgs], or of
    [get_message] for one message in full; or no invocation at all. *)
Definition lists_or_gets (searchArgs : json) (e : Event) : Prop :=
  match e with
  | EvCallTool _ name args =>
      (name = "list_messages" /\ args = searchArgs)
      \/ (name = "get_message" /\ exists id, args = get_message_args id)
  | _ => True
  end.

(** What a run from [w] to [w'] with events [tr] does when it does nothing
    but fetch at most [n] messages, each through the legacy wrapper: at most
    two sessions and two invocations for each message and one credential read,
    invocations of [get_message] for one message in full only, and no change
    to the configuration, the credential store or the remote. *)
Definition fetches_at_most (n : nat) (w w' : World) (tr : list Event) : Prop :=
  (length (connects tr) <= 2 * n)%nat
  /\ (tool_calls "get_message" tr <= 2 * n)%nat
  /\ (token_reads tr <= n)%nat
  /\ (forall j name a,
        In (EvCallTool j name a) tr -> name = "get_message" /\ exists id, a = get_message_args id)
  /\ env w' = env w /\ gmailTokens w' = gmailTokens w /\ remote w' = remote w.

(** The blocks [preview] gives for [emails], the first numbered [index],
    one after the other. *)
Fixpoint previews (preview : json -> nat -> string) (emails : list json) (index : nat)
    : string :=
  match emails with
  | [] => ""
  | email :: rest => preview email index ++ previews preview rest (S index)
  end.

(** One read of the credential store for every message that is not [null]. *)
Fixpoint credential_reads (userId : string) (emails : list json) : list Event :=
  match emails with
  | [] => []
  | JNull :: rest => credential_reads userId rest
  | _ :: rest => EvGetToken userId :: credential_reads userId rest
  end.

Module Sample4.

(** A listing of two messages, and the text the remote returns for it. *)
Definition listing : json :=
  JObj [("messages",
         JArr [JObj [("id", JStr "m1"); ("snippet", JStr "first")];
               JObj [("id", JStr "m2"); ("snippet", JStr "second")]]);
        ("resultSizeEstimate", JNum "2")].

Definition listing_text : string := stringify listing.

(** A listing of six messages, the third of them [null]. *)
Definition long_listing_text : string :=
  stringify
    (JObj [("messages",
            JArr [JObj [("id", JStr "m1")]; JObj [("id", JStr "m2")]; JNull;
                  JObj [("id", JStr "m4")]; JObj [("id", JStr "m5")];
                  JObj [("id", JStr "m6")]])]).

(** A full message, and the text the remote returns for it. *)
Definition message_text : string :=
  stringify (JObj [("id", JStr "m1"); ("snippet", JStr "first")]).

(** The remote: [list_messages] is answered on the first session, every
    later session answers [get_message]. *)
Definition session_lists : Session :=
  mkSession (Resolves tt) 120
    (Resolves (mkCallToolResult (Some (JArr [Sample.text_item listing_text])))) 340 None.

Definition session_gets : Session :=
  mkSession (Resolves tt) 120
    (Resolves (mkCallToolResult (Some (JArr [Sample.text_item message_text])))) 340 None.

(** A session whose reply has no content. *)
Definition session_no_content : Session :=
  mkSession (Resolves tt) 120 (Resolves (mkCallToolResult None)) 340 None.

Definition mailbox (k : nat) : Session :=
  if Nat.eqb k 0 then session_lists else session_gets.

(** Stand-ins for the rendering of a message: one line each. *)
Definition plain_email (email : json) (index : nat) : Outcome string :=
  Return ("* listed" ++ newline).

Definition plain_full (email fullEmail : json) (index : nat) : string * option Error :=
  ("+ fetched" ++ newline, None).

Definition plain_fallback (email : json) (index : nat) : Outcome string :=
  match email with
  | JNull => Throw (TypeError "Cannot read properties of null (reading 'payload')")
  | _ => Return ("- preview" ++ newline)
  end.

(** A history store that accepts every record, and one that is down. *)
Definition store0 : HistoryStore := mkHistoryStore [] (fun _ => None).

Definition store_down : HistoryStore :=
  mkHistoryStore [] (fun _ => Some (mkError "connection refused")).

Definition search_invoice : SearchEmails.Args := SearchEmails.mkArgs "invoice" "10".

Definition semantic_invoice : SemanticSearch.Args :=
  SemanticSearch.mkArgs (mkQueryParams (Some "invoice") None None None None) "10".

Definition list_inbox : ListMessages.Args := ListMessages.mkArgs None "10" None.

(** One minute after alice's search for "invoice" was cached, her
    credential is gone. *)
Definition world_listing_cached : World :=
  mkWorld
    [(cacheKey "alice" "list_messages" Sample.args0,
      mkCacheEntry (Some (JStr listing_text)) 1700000000000)]
    1700000060000 Sample.env0 (fun _ => None) mailbox 1.

End Sample4.

(** ** JSON values as [JSON.stringify] writes them *)

(** The text of a number starts with a digit or a minus sign and holds
    digits, signs, a point and an exponent mark only. *)
Definition is_number_char (c : ascii) : bool :=
  JsonParse.is_digit c
  || (c =? "-")%char || (c =? "+")%char || (c =? ".")%char || (c =? "e")%char || (c =? "E")%char.

Fixpoint number_chars (s : string) : bool :=
  match s with
  | EmptyString => true
  | String c rest => is_number_char c && number_chars rest
  end.

Definition number_text (text : string) : bool :=
  match text with
  | EmptyString => false
  | String c rest => (JsonParse.is_digit c || (c =? "-")%char) && number_chars rest
  end.

(** Every number of the value has the text of a number. *)
Fixpoint well_formed (v : json) : bool :=
  match v with
  | JNum text => number_text text
  | JArr items => forallb well_formed items
  | JObj members => forallb (fun kv : string * json => well_formed (snd kv)) members
  | _ => true
  end.

(** What follows a value in a JSON text: nothing, a comma, or a closing
    bracket or brace. *)
Definition delimited (rest : string) : bool :=
  match rest with
  | EmptyString => true
  | String c _ => (c =? ",")%char || (c =? "]")%char || (c =? "}")%char
  end.

(** The parts of an array or object after the first, each behind its comma,
    and then [closing]. *)
Fixpoint after_first (parts : list string) (closing : string) : string :=
  match parts with
  | [] => closing
  | part :: rest => "," ++ part ++ after_first rest closing
  end.

(** The serialization of a member of an object. *)
Definition member_text (kv : string * json) : string :=
  quote (fst kv) ++ ":" ++ stringify (snd kv).

(** Induction on JSON values, with the hypothesis for every item of an
    array and every member of an object. *)
Fixpoint json_induction (P : json -> Prop)
    (Hnull : P JNull) (Hbool : forall b, P (JBool b)) (Hnum : forall text, P (JNum text))
    (Hstr : forall s, P (JStr s))
    (Harr : forall items, Forall P items -> P (JArr items))
    (Hobj : forall members, Forall (fun kv => P (snd kv)) members -> P (JObj members))
    (v : json) {struct v} : P v :=
  match v with
  | JNull => Hnull
  | JBool b => Hbool b
  | JNum text => Hnum text
  | JStr s => Hstr s
  | JArr items =>
      Harr items
        ((fix all (l : list json) : Forall P l :=
            match l with
            | [] => Forall_nil P
            | x :: rest =>
                Forall_cons x (json_induction P Hnull Hbool Hnum Hstr Harr Hobj x) (all rest)
            end) items)
  | JObj members =>
      Hobj members
        ((fix all (l : list (string * json)) : Forall (fun kv => P (snd kv)) l :=
            match l with
            | [] => Forall_nil _
            | kv :: rest =>
                Forall_cons kv (json_induction P Hnull Hbool Hnum Hstr Harr Hobj (snd kv))
                  (all rest)
            end) members)
  end.

(** The parts of an array or object, the first without a comma, and then
    [closing]. *)
Definition seq_text (parts : list string) (closing : string) : string :=
  match parts with
  | [] => closing
  | part :: rest => part ++ after_first rest closing
  end.

(** Every entry of the cache holds, under a key built for some caller, tool
    and arguments, a result that [belongs] to that caller, tool and
    arguments. *)
Definition labelled (belongs : string -> string -> json -> jsval -> Prop) (m : JsMap.t) : Prop :=
  Forall (fun kv : string * CacheEntry =>
            exists userId toolName args,
              fst kv = cacheKey userId toolName args
              /\ has_colon userId = false /\ has_colon toolName = false
              /\ well_formed args = true
              /\ belongs userId toolName args (result (snd kv))) m.

(** ** Reading base64 back *)

(** The place of [c] in [alphabet]. *)
Fixpoint index_in (c : ascii) (alphabet : list ascii) : nat :=
  match alphabet with
  | [] => 0%nat
  | a :: rest => if Ascii.eqb a c then 0%nat else S (index_in c rest)
  end.

Definition b64_index (c : ascii) : nat :=
  index_in c (list_ascii_of_string
                "ABCDEFGHIJKLMNOPQRSTUVWXYZabcdefghijklmnopqrstuvwxyz0123456789+/").

(** The bytes that groups of four base64 characters stand for (RFC 4648),
    as the receiver of the connection URL decodes them. *)
Fixpoint decode_groups (s : string) : list nat :=
  match s with
  | String c1 (String c2 (String c3 (String c4 rest))) =>
      let i1 := b64_index c1 in
      let i2 := b64_index c2 in
      let i3 := b64_index c3 in
      let i4 := b64_index c4 in
      if Ascii.eqb c3 "=" then [i1 * 4 + Nat.div i2 16]%nat
      else if Ascii.eqb c4 "=" then
        [i1 * 4 + Nat.div i2 16; Nat.modulo i2 16 * 16 + Nat.div i3 4]%nat
      else
        (i1 * 4 + Nat.div i2 16
         :: Nat.modulo i2 16 * 16 + Nat.div i3 4
         :: Nat.modulo i3 4 * 64 + i4
         :: decode_groups rest)%nat
  | _ => []
  end.

(** [Buffer.from(s, "base64").toString("latin1")] on a text that [base64]
    wrote. *)
Definition base64_decode (s : string) : string :=
  string_of_list_ascii (map ascii_of_nat (decode_groups s)).

(** The remote procedures invoked, with their arguments, in order. *)
Fixpoint invocations (tr : list Event) : list (string * json) :=
  match tr with
  | [] => []
  | EvCallTool _ name args :: rest => (name, args) :: invocations rest
  | _ :: rest => invocations rest
  end.

(** The fetch the listing makes for [email]. *)
Definition fetch_of (email : json) : string * json :=
  ("get_message", get_message_args (get "id" email)).

(** The session that fetches [email] as number [index] answers, with a
    message that parses and that [render_full] renders as [block]. *)
Definition answers (render_full : json -> json -> nat -> string * option Error)
    (block : json -> nat -> string) (s : Session) (email : json) (index : nat) : Prop :=
  email <> JNull
  /\ exists reply fullEmail,
       attempt_outcome "get_message" 45000 s = Return reply
       /\ JSON_parse_any (extractResultText reply) = Return fullEmail
       /\ render_full email fullEmail index = (block email index, None).

(** An item of a sequence is read in one way: a text that starts with the
    text of [x], followed by a delimiter, starts with the text of no other
    item. *)
Definition read_once {A : Type} (text : A -> string) (ok : A -> Prop) (x : A) : Prop :=
  forall y t1 t2,
    ok y -> delimited t1 = true -> delimited t2 = true ->
    text x ++ t1 = text y ++ t2 -> x = y /\ t1 = t2.

(** ** The fallback block of a message (gmail.ts, lines 433-442) *)

(** [headers.find(h => h.name === name)]. *)
Fixpoint find_header (name : string) (headers : list json) : Outcome jsval :=
  match headers with
  | [] => Return None
  | h :: rest =>
      and_then (read_property "name" h) (fun found =>
        if strict_equals_string found name then Return (Some h) else find_header name rest)
  end.

(** [email.payload?.headers?.find(h => h.name === name)?.value]: a
    [payload] or [headers] that is [undefined] or [null] gives [undefined];
    [headers] that is not an array has no [find] to call. *)
Definition header_value (name : string) (email : json) : Outcome jsval :=
  and_then (read_property "payload" email) (fun payload =>
    match payload with
    | None | Some JNull => Return None
    | Some p =>
        match get "headers" p with
        | None | Some JNull => Return None
        | Some (JArr headers) =>
            and_then (find_header name headers) (fun found => Return (opt_get "value" found))
        | Some _ => Throw (TypeError "email.payload?.headers?.find is not a function")
        end
    end).

(** [v || 'literal']. *)
Definition or_else (v : jsval) (literal : string) : jsval :=
  if truthy_jsval v then v else Some (JStr literal).

(** Lines 435-441: the text the [catch] appends for [email] at [index], or
    the error it throws. *)
Definition fallback_block (email : json) (index : nat) : Outcome string :=
  and_then (header_value "Subject" email) (fun found =>
    let subject := or_else found "No Subject" in
    let snippet := or_else (get "snippet" email) "No preview available" in
    and_then (String_of subject) (fun subject_text =>
      and_then (String_of snippet) (fun snippet_text =>
        and_then (String_of (get "id" email)) (fun id_text =>
          Return (string_of_Z (Z.of_nat index + 1) ++ ". **" ++ subject_text ++ "**" ++ newline
                    ++ "   ðŸ’¬ Preview: " ++ snippet_text ++ newline
                    ++ "   ðŸ”— ID: " ++ id_text ++ newline
                    ++ "   âš ï¸ Could not fetch full content" ++ newline ++ newline))))).

(** The fallback block of a message that carries no subject and no
    snippet. *)
Definition bare_block (id : string) (index : nat) : string :=
  string_of_Z (Z.of_nat index + 1) ++ ". **No Subject**" ++ newline
    ++ "   ðŸ’¬ Preview: " ++ "No preview available" ++ newline
    ++ "   ðŸ”— ID: " ++ id ++ newline
    ++ "   âš ï¸ Could not fetch full content" ++ newline ++ newline.

(** The message carries its [id], a string, and neither [payload] nor
    [snippet]: a message as [list_messages] lists it. *)
Definition bare_message (email : json) (id : string) : Prop :=
  exists members,
    email = JObj members
    /\ assoc "id" members = Some (JStr id)
    /\ assoc "payload" members = None
    /\ assoc "snippet" members = None.

(** The [id] of a message, when it is a string. *)
Definition id_of (email : json) : string :=
  match get "id" email with
  | Some (JStr id) => id
  | _ => ""
  end.

Module Sample5.

(** A listing as [list_messages] gives it: messages with their ids only. *)
Definition bare_listing_text : string :=
  stringify
    (JObj [("messages",
            JArr [JObj [("id", JStr "m1"); ("threadId", JStr "t1")];
                  JObj [("id", JStr "m2"); ("threadId", JStr "t2")]]);
           ("resultSizeEstimate", JNum "2")]).

End Sample5.

(** * Properties *)

(** ** Running the monadic code *)

Lemma cache_store_run userId toolName args resultText w :
  cache_store userId toolName args resultText w
  = (Return tt,
     with_cache (stored (cacheKey userId toolName args) (mkCacheEntry resultText (now w))
                   (searchCache w)) w,
     []).
Proof.
  destruct w as [cache t0 en tok rem n].
  unfold cache_store, stored. run_steps.
  destruct (JsMap.size _ >? 100); run_steps; [|reflexivity].
  destruct (JsMap.first_key _) as [[|c k]|]; reflexivity.
Qed.

Lemma cache_lookup_run useCache toolName args userId w :
  cache_lookup useCache toolName args userId w
  = (Return (cached_result useCache toolName args userId w), w, []).
Proof.
  destruct w as [cache t0 en tok rem n].
  unfold cache_lookup, cached_result.
  destruct (useCache && is_search_tool toolName); run_steps; [|reflexivity].
  destruct (JsMap.get _ cache) as [entry|]; run_steps; [|reflexivity].
  destruct (t0 - timestamp entry <? CACHE_TTL); reflexivity.
Qed.

(** One attempt, as a function of the session it runs on. *)
Lemma attempt_body_run toolName args userId useCache timeout url w :
  let k := sessions w in
  let s := remote w k in
  attempt_body toolName args userId useCache timeout url w
  = (attempt_result toolName timeout s,
     with_sessions (S k)
       (with_now (attempt_clock s (now w))
          (with_cache (attempt_cache toolName args userId useCache timeout s (now w)
                         (searchCache w)) w)),
     attempt_events toolName args url k s).
Proof.
  destruct w as [cache t0 en tok rem n]. cbv zeta.
  unfold attempt_body, attempt_result, attempt_cache, attempt_outcome, attempt_events,
    attempt_clock.
  run_steps.
  destruct (on_connect (rem n)) eqn:Hc; crunch.
  - destruct (on_callTool (rem n)) eqn:Hr; crunch.
    + destruct (on_close (rem n)) eqn:Hx; crunch.
      * reflexivity.
      * destruct (useCache && is_search_tool toolName); [|reflexivity].
        rewrite cache_store_run. reflexivity.
    + destruct (on_close (rem n)); reflexivity.
    + destruct (on_close (rem n)); reflexivity.
  - destruct (on_close (rem n)); reflexivity.
  - destruct (on_close (rem n)); reflexivity.
Qed.

(** The executor, as a case distinction on the world it starts in. *)
Lemma executeGmailToolEnhanced_run toolName args userId options w :
  let uc := default true (useCache options) in
  let r := default 2 (retries options) in
  let tmo := default 45000 (timeout options) in
  executeGmailToolEnhanced toolName args userId options w
  = match cached_result uc toolName args userId w with
    | Some cachedResult => (Return cachedResult, w, [])
    | None =>
        if negb (config_present (env w))
        then (Throw (mkError "Gmail configuration missing"), w, [])
        else if negb (truthy_string (gmailTokens w userId))
        then (Throw (mkError "Gmail not connected. Please connect your Gmail account first."),
              w, [EvGetToken userId])
        else
          match retry_loop (Z.to_nat (r + 1)) 0 None toolName r
                  (attempt_body toolName args userId uc tmo (serverUrl_of w userId)) w with
          | (o, w', tr) => (o, w', EvGetToken userId :: tr)
          end
    end.
Proof.
  cbv zeta. unfold executeGmailToolEnhanced.
  unfold bind at 1. rewrite cache_lookup_run.
  destruct (cached_result _ _ _ _ w) as [res|]; [reflexivity|].
  unfold config_present, serverUrl_of.
  destruct w as [cache t0 en tok rem n]. run_steps.
  destruct (truthy_string (SMITHERY_API_KEY en)); [|reflexivity].
  destruct (truthy_string (GOOGLE_CLIENT_ID en)); [|reflexivity].
  destruct (truthy_string (GOOGLE_CLIENT_SECRET en)); [|reflexivity].
  cbn [negb orb andb].
  destruct (truthy_string (tok userId)); [|reflexivity].
  cbn [negb app].
  destruct (retry_loop _ _ _ _ _ _ _) as [[o w'] tr]. reflexivity.
Qed.

(** ** Observations on concatenated traces *)

Lemma connects_app a b : connects (a ++ b)%list = (connects a ++ connects b)%list.
Proof. induction a as [|[] a IH]; simpl; congruence. Qed.

Lemma sleeps_app a b : sleeps (a ++ b)%list = (sleeps a ++ sleeps b)%list.
Proof. induction a as [|[] a IH]; simpl; congruence. Qed.

Lemma opens_of_app k a b : opens_of k (a ++ b)%list = (opens_of k a + opens_of k b)%nat.
Proof. induction a as [|[] a IH]; simpl; rewrite ?IH; lia. Qed.

Lemma closes_of_app k a b : closes_of k (a ++ b)%list = (closes_of k a + closes_of k b)%nat.
Proof. induction a as [|[] a IH]; simpl; rewrite ?IH; lia. Qed.

Lemma tool_calls_app name a b :
  tool_calls name (a ++ b)%list = (tool_calls name a + tool_calls name b)%nat.
Proof. induction a as [|[] a IH]; simpl; rewrite ?IH; lia. Qed.

Lemma token_reads_app a b : token_reads (a ++ b)%list = (token_reads a + token_reads b)%nat.
Proof. induction a as [|[] a IH]; simpl; rewrite ?IH; lia. Qed.

(** ** Observations on one attempt *)

Lemma connects_attempt toolName args url k s :
  connects (attempt_events toolName args url k s) = [k].
Proof.
  unfold attempt_events.
  destruct (on_connect s); [destruct (on_callTool s); [destruct (on_close s)|..]|..];
    reflexivity.
Qed.

Lemma sleeps_attempt toolName args url k s :
  sleeps (attempt_events toolName args url k s) = [].
Proof.
  unfold attempt_events.
  destruct (on_connect s); [destruct (on_callTool s); [destruct (on_close s)|..]|..];
    reflexivity.
Qed.

Lemma token_reads_attempt toolName args url k s :
  token_reads (attempt_events toolName args url k s) = 0%nat.
Proof.
  unfold attempt_events.
  destruct (on_connect s); [destruct (on_callTool s); [destruct (on_close s)|..]|..];
    reflexivity.
Qed.

(** Every session an attempt opens, it opens with the URL it was given. *)
Lemma attempt_events_url toolName args url k s j u :
  In (EvConnect j u) (attempt_events toolName args url k s) -> j = k /\ u = url.
Proof.
  unfold attempt_events.
  destruct (on_connect s); [destruct (on_callTool s); [destruct (on_close s)|..]|..];
    simpl; intuition (try discriminate; try congruence).
Qed.

(** ** The retry loop *)

Section RetryLoop.

Variables (toolName : string) (args : json) (userId : string) (uc : bool).
Variables (tmo r : Z) (url : URL).

Local Abbreviation body := (attempt_body toolName args userId uc tmo url).
Local Abbreviation next := (after_attempt toolName args userId uc tmo).

Lemma retry_loop_O attempt last w :
  retry_loop 0 attempt last toolName r body w
  = (Throw (exhausted_error last toolName r), w, []).
Proof. reflexivity. Qed.

Lemma retry_loop_S n attempt last w :
  retry_loop (S n) attempt last toolName r body w
  = let k := sessions w in
    let s := remote w k in
    match attempt_result toolName tmo s with
    | Return resultText => (Return resultText, next w, attempt_events toolName args url k s)
    | Throw e =>
        if attempt <? r then
          match retry_loop n (attempt + 1) (Some e) toolName r body
                  (with_now (now (next w) + 2 ^ attempt * 1000) (next w)) with
          | (o, w2, t2) =>
              (o, w2, (attempt_events toolName args url k s
                         ++ EvSleep (2 ^ attempt * 1000) :: t2)%list)
          end
        else
          match retry_loop n (attempt + 1) (Some e) toolName r body (next w) with
          | (o, w2, t2) => (o, w2, (attempt_events toolName args url k s ++ t2)%list)
          end
    end.
Proof.
  cbv zeta. cbn [retry_loop]. unfold bind at 1, reify.
  rewrite attempt_body_run. cbv zeta. fold (next w).
  destruct (attempt_result toolName tmo _) as [x|e].
  - unfold ret. rewrite app_nil_r. reflexivity.
  - destruct (attempt <? r).
    + unfold bind at 1, sleep. run_steps. fold (next w).
      destruct (retry_loop n _ _ _ _ _ _) as [[o w2] t2]. simpl. reflexivity.
    + unfold bind at 1, ret.
      destruct (retry_loop n _ _ _ _ _ _) as [[o w2] t2]. reflexivity.
Qed.

Lemma next_frame w :
  env (next w) = env w /\ gmailTokens (next w) = gmailTokens w
  /\ remote (next w) = remote w /\ sessions (next w) = S (sessions w).
Proof. repeat split. Qed.

(** The loop reads no credential, and opens every session with [url]. *)
Lemma retry_loop_events n :
  forall attempt last w o w' tr,
    retry_loop n attempt last toolName r body w = (o, w', tr) ->
    token_reads tr = 0%nat
    /\ (forall j u, In (EvConnect j u) tr -> u = url)
    /\ env w' = env w /\ gmailTokens w' = gmailTokens w /\ remote w' = remote w.
Proof.
  induction n as [|n IH]; intros attempt last w o w' tr.
  - rewrite retry_loop_O. intros H; triple H. repeat split. intros j u [].
  - rewrite retry_loop_S. cbv zeta.
    destruct (attempt_result toolName tmo _) as [x|e].
    + intros H; triple H. rewrite token_reads_attempt. repeat split.
      intros j u H. apply attempt_events_url in H. tauto.
    + destruct (attempt <? r);
        destruct (retry_loop n _ _ _ _ _ _) as [[o2 w2] t2] eqn:Hrec;
        intros H; triple H; apply IH in Hrec;
        destruct Hrec as (Ht & Hu & He & Hg & Hr);
        rewrite token_reads_app, token_reads_attempt;
        (split; [simpl; lia|]);
        (split; [|auto]);
        intros j u H; apply in_app_or in H; destruct H as [H|H];
        try (apply attempt_events_url in H; tauto);
        try (destruct H as [H|H]; [discriminate|]); eauto.
Qed.

(** The first [k] attempts fail and the next succeeds, with attempts to
    spare: the loop returns that reply's text after [k] backoff sleeps. *)
Lemma retry_loop_succeeds k :
  forall n attempt last w reply,
    (k < n)%nat ->
    attempt + Z.of_nat n = r + 1 ->
    (forall i, (i < k)%nat ->
       exists e, attempt_outcome toolName tmo (remote w (sessions w + i)) = Throw e) ->
    attempt_outcome toolName tmo (remote w (sessions w + k)) = Return reply ->
    exists w' tr,
      retry_loop n attempt last toolName r body w = (Return (extractResultText reply), w', tr)
      /\ connects tr = seq (sessions w) (S k)
      /\ sleeps tr = backoff_delays attempt k.
Proof.
  induction k as [|k IH]; intros n attempt last w reply Hk Hn Hfail Hok.
  - destruct n as [|n]; [lia|]. rewrite retry_loop_S. cbv zeta.
    unfold attempt_result. rewrite Nat.add_0_r in Hok. rewrite Hok.
    eexists _, _. split; [reflexivity|].
    rewrite connects_attempt, sleeps_attempt. split; reflexivity.
  - destruct n as [|n]; [lia|]. rewrite retry_loop_S. cbv zeta.
    destruct (Hfail 0%nat ltac:(lia)) as [e He]. rewrite Nat.add_0_r in He.
    unfold attempt_result. rewrite He.
    replace (attempt <? r) with true by (symmetry; apply Z.ltb_lt; lia).
    destruct (IH n (attempt + 1) (Some e)
                (with_now (now (next w) + 2 ^ attempt * 1000) (next w)) reply)
      as (w' & tr & Hrun & Hc & Hs).
    + lia.
    + lia.
    + intros i Hi. destruct (Hfail (S i) ltac:(lia)) as [e' He'].
      exists e'. change (remote (with_now _ (next w))) with (remote w).
      change (sessions (with_now _ (next w))) with (S (sessions w)).
      replace (S (sessions w) + i)%nat with (sessions w + S i)%nat by lia. exact He'.
    + change (remote (with_now _ (next w))) with (remote w).
      change (sessions (with_now _ (next w))) with (S (sessions w)).
      replace (S (sessions w) + k)%nat with (sessions w + S k)%nat by lia. exact Hok.
    + rewrite Hrun. eexists _, _. split; [reflexivity|].
      rewrite connects_app, sleeps_app, connects_attempt, sleeps_attempt.
      cbn [connects sleeps app]. rewrite Hc, Hs. split; reflexivity.
Qed.

(** All [n] remaining attempts fail: the loop throws the last error after
    [n] attempts and a sleep between each two. *)
Lemma retry_loop_exhausted n :
  forall attempt last w (errs : nat -> Error),
    attempt + Z.of_nat n = r + 1 ->
    (forall i, (i < n)%nat ->
       attempt_outcome toolName tmo (remote w (sessions w + i)) = Throw (errs i)) ->
    exists w' tr,
      retry_loop n attempt last toolName r body w
      = (Throw (match n with
                | O => exhausted_error last toolName r
                | S m => errs m
                end), w', tr)
      /\ connects tr = seq (sessions w) n
      /\ sleeps tr = backoff_delays attempt (pred n).
Proof.
  induction n as [|n IH]; intros attempt last w errs Hn Hfail.
  - rewrite retry_loop_O. eexists _, _. repeat split.
  - rewrite retry_loop_S. cbv zeta.
    pose proof (Hfail 0%nat ltac:(lia)) as He. rewrite Nat.add_0_r in He.
    unfold attempt_result. rewrite He.
    assert (Hshift : forall w1, remote w1 = remote w -> sessions w1 = S (sessions w) ->
              forall i, (i < n)%nat ->
                attempt_outcome toolName tmo (remote w1 (sessions w1 + i))
                = Throw (errs (S i))).
    { intros w1 Hr Hs i Hi. rewrite Hr, Hs.
      replace (S (sessions w) + i)%nat with (sessions w + S i)%nat by lia.
      apply Hfail. lia. }
    destruct n as [|n].
    + replace (attempt <? r) with false by (symmetry; apply Z.ltb_ge; lia).
      rewrite retry_loop_O. eexists _, _. split; [reflexivity|].
      rewrite app_nil_r, connects_attempt, sleeps_attempt. split; reflexivity.
    + replace (attempt <? r) with true by (symmetry; apply Z.ltb_lt; lia).
      destruct (IH (attempt + 1) (Some (errs 0%nat))
                  (with_now (now (next w) + 2 ^ attempt * 1000) (next w))
                  (fun i => errs (S i)))
        as (w' & tr & Hrun & Hc & Hs).
      * lia.
      * apply Hshift; reflexivity.
      * rewrite Hrun. eexists _, _. split; [reflexivity|].
        rewrite connects_app, sleeps_app, connects_attempt, sleeps_attempt.
        cbn [connects sleeps app pred]. rewrite Hc, Hs. split; reflexivity.
Qed.

End RetryLoop.

(** ** Calls that do not use the cache *)

Section NoCache.

Variables (toolName : string) (args : json) (userId : string) (uc : bool).
Variables (tmo r : Z) (url : URL).
Hypothesis not_cached : uc && is_search_tool toolName = false.

Lemma after_attempt_with_cache c w :
  after_attempt toolName args userId uc tmo (with_cache c w)
  = with_cache c (after_attempt toolName args userId uc tmo w).
Proof.
  unfold after_attempt, attempt_cache. rewrite not_cached.
  destruct w as [cache t0 en tok rem n]. simpl.
  destruct (attempt_outcome toolName tmo (rem n)); reflexivity.
Qed.

Lemma after_attempt_cache w :
  searchCache (after_attempt toolName args userId uc tmo w) = searchCache w.
Proof.
  unfold after_attempt, attempt_cache. rewrite not_cached.
  destruct w as [cache t0 en tok rem n]. simpl.
  destruct (attempt_outcome toolName tmo (rem n)); reflexivity.
Qed.

(** The loop neither reads nor writes the cache. *)
Lemma retry_loop_ignores_cache n :
  forall attempt last w o w' tr,
    retry_loop n attempt last toolName r
      (attempt_body toolName args userId uc tmo url) w = (o, w', tr) ->
    searchCache w' = searchCache w
    /\ forall c,
         retry_loop n attempt last toolName r
           (attempt_body toolName args userId uc tmo url) (with_cache c w)
         = (o, with_cache c w', tr).
Proof.
  induction n as [|n IH]; intros attempt last w o w' tr.
  - rewrite retry_loop_O. intros H; triple H. split; reflexivity.
  - rewrite retry_loop_S. cbv zeta. intros H.
    assert (Hsame : forall c,
              retry_loop (S n) attempt last toolName r
                (attempt_body toolName args userId uc tmo url) (with_cache c w)
              = match attempt_result toolName tmo (remote w (sessions w)) with
                | Return x =>
                    (Return x, with_cache c (after_attempt toolName args userId uc tmo w),
                     attempt_events toolName args url (sessions w) (remote w (sessions w)))
                | Throw e =>
                    if attempt <? r then
                      match retry_loop n (attempt + 1) (Some e) toolName r
                              (attempt_body toolName args userId uc tmo url)
                              (with_cache c
                                 (with_now (now (after_attempt toolName args userId uc tmo w)
                                            + 2 ^ attempt * 1000)
                                    (after_attempt toolName args userId uc tmo w))) with
                      | (o, w2, t2) =>
                          (o, w2, (attempt_events toolName args url (sessions w)
                                     (remote w (sessions w))
                                     ++ EvSleep (2 ^ attempt * 1000) :: t2)%list)
                      end
                    else
                      match retry_loop n (attempt + 1) (Some e) toolName r
                              (attempt_body toolName args userId uc tmo url)
                              (with_cache c (after_attempt toolName args userId uc tmo w)) with
                      | (o, w2, t2) =>
                          (o, w2, (attempt_events toolName args url (sessions w)
                                     (remote w (sessions w)) ++ t2)%list)
                      end
                end).
    { intros c. rewrite retry_loop_S. cbv zeta. rewrite after_attempt_with_cache.
      reflexivity. }
    destruct (attempt_result toolName tmo _) as [x|e].
    + triple H. split; [apply after_attempt_cache|]. intros c. rewrite Hsame. reflexivity.
    + destruct (attempt <? r);
        destruct (retry_loop n _ _ _ _ _ _) as [[o2 w2] t2] eqn:Hrec;
        triple H; apply IH in Hrec; destruct Hrec as [Hc Hind];
        (split; [rewrite Hc; apply after_attempt_cache|]);
        intros c; rewrite Hsame, Hind; reflexivity.
Qed.

End NoCache.

(** The executor changes nothing of the process but its cache, its clock and
    the number of sessions it has created. *)
Lemma executor_frame toolName args userId options w :
  let w' := world_of (executeGmailToolEnhanced toolName args userId options w) in
  env w' = env w /\ gmailTokens w' = gmailTokens w /\ remote w' = remote w.
Proof.
  cbv zeta. rewrite executeGmailToolEnhanced_run. cbv zeta.
  destruct (cached_result _ _ _ _ w); [repeat split|].
  destruct (negb (config_present (env w))); [repeat split|].
  destruct (negb (truthy_string (gmailTokens w userId))); [repeat split|].
  destruct (retry_loop _ _ _ _ _ _ _) as [[o w'] tr] eqn:Hrun.
  apply retry_loop_events in Hrun. unfold world_of. simpl. tauto.
Qed.


(** ** The cache as a map *)

Lemma get_set_same k v m : JsMap.get k (JsMap.set k v m) = Some v.
Proof.
  induction m as [|[k0 v0] m IH]; simpl.
  - rewrite String.eqb_refl. reflexivity.
  - destruct (String.eqb k0 k) eqn:E; simpl; rewrite E; auto.
Qed.

Lemma get_set_other k k' v m :
  k <> k' -> JsMap.get k' (JsMap.set k v m) = JsMap.get k' m.
Proof.
  intros Hne. induction m as [|[k0 v0] m IH]; simpl.
  - apply String.eqb_neq in Hne. rewrite Hne. reflexivity.
  - destruct (String.eqb k0 k) eqn:E; simpl.
    + apply String.eqb_eq in E. subst k0.
      apply String.eqb_neq in Hne. rewrite Hne. reflexivity.
    + rewrite IH. reflexivity.
Qed.

Lemma get_delete_other k k' m :
  k <> k' -> JsMap.get k' (JsMap.delete k m) = JsMap.get k' m.
Proof.
  intros Hne. induction m as [|[k0 v0] m IH]; simpl; [reflexivity|].
  destruct (String.eqb k0 k) eqn:E; simpl.
  - apply String.eqb_eq in E. subst k0.
    apply String.eqb_neq in Hne. rewrite Hne. reflexivity.
  - rewrite IH. reflexivity.
Qed.

Lemma set_length k v m :
  length (JsMap.set k v m)
  = match JsMap.get k m with Some _ => length m | None => S (length m) end.
Proof.
  induction m as [|[k0 v0] m IH]; simpl; [reflexivity|].
  destruct (String.eqb k0 k); simpl; [reflexivity|].
  rewrite IH. destruct (JsMap.get k m); reflexivity.
Qed.

Lemma set_absent k v m :
  JsMap.get k m = None -> JsMap.set k v m = (m ++ [(k, v)])%list.
Proof.
  induction m as [|[k0 v0] m IH]; simpl; [reflexivity|].
  destruct (String.eqb k0 k); [discriminate|]. intros H. rewrite IH by assumption.
  reflexivity.
Qed.

(** In a cache of at most 100 entries, the entry just stored survives the
    eviction that follows it. *)
Lemma stored_get key entry m :
  (length m <= 100)%nat -> JsMap.get key (stored key entry m) = Some entry.
Proof.
  intros Hlen. unfold stored.
  pose proof (get_set_same key entry m) as Hg.
  destruct (JsMap.size (JsMap.set key entry m) >? 100) eqn:Hsize; [|exact Hg].
  destruct (JsMap.first_key (JsMap.set key entry m)) as [[|c k]|] eqn:Hfk;
    try exact Hg.
  rewrite get_delete_other; [exact Hg|].
  intros Heq.
  apply Z.gtb_lt in Hsize. unfold JsMap.size in Hsize. rewrite set_length in Hsize.
  destruct (JsMap.get key m) eqn:Hget; [lia|].
  destruct m as [|[k0 v0] m]; [simpl in Hsize; lia|].
  simpl in Hget, Hfk.
  destruct (String.eqb k0 key) eqn:E; [discriminate|].
  simpl in Hfk. injection Hfk as Hk0. subst k0.
  rewrite Heq, String.eqb_refl in E. discriminate.
Qed.

(** ** Calls that use the cache *)

Section Cached.

Variables (toolName : string) (args : json) (userId : string) (uc : bool).
Variables (tmo r : Z) (url : URL).
Hypothesis cached : uc && is_search_tool toolName = true.

(** A loop that returns has stored what it returns, stamped with the time
    at which it returns. *)
Lemma retry_loop_stores n :
  forall attempt last w x w' tr,
    (length (searchCache w) <= 100)%nat ->
    retry_loop n attempt last toolName r
      (attempt_body toolName args userId uc tmo url) w = (Return x, w', tr) ->
    JsMap.get (cacheKey userId toolName args) (searchCache w')
    = Some (mkCacheEntry x (now w')).
Proof.
  induction n as [|n IH]; intros attempt last w x w' tr Hlen.
  - rewrite retry_loop_O. intros H. apply triple_inv in H. destruct H as [H _].
    discriminate.
  - rewrite retry_loop_S. cbv zeta.
    assert (Hkeep : forall e,
              attempt_result toolName tmo (remote w (sessions w)) = Throw e ->
              searchCache (after_attempt toolName args userId uc tmo w) = searchCache w).
    { intros e. unfold attempt_result, after_attempt, attempt_cache.
      destruct w as [cache t0 en tok rem k]. simpl.
      destruct (attempt_outcome toolName tmo (rem k)); [discriminate|reflexivity]. }
    destruct (attempt_result toolName tmo _) as [x0|e] eqn:Hres.
    + intros H. apply triple_inv in H. destruct H as (Hx & <- & _).
      injection Hx as ->.
      unfold attempt_result in Hres.
      unfold after_attempt, attempt_cache. rewrite cached.
      destruct w as [cache t0 en tok rem k]. simpl in *.
      destruct (attempt_outcome toolName tmo (rem k)) as [reply|]; [|discriminate].
      injection Hres as <-. apply stored_get. exact Hlen.
    + specialize (Hkeep e eq_refl).
      destruct (attempt <? r);
        destruct (retry_loop n _ _ _ _ _ _) as [[o2 w2] t2] eqn:Hrec;
        intros H; apply triple_inv in H; destruct H as (-> & -> & _);
        apply IH in Hrec; try exact Hrec;
        change (searchCache (with_now _ ?w0)) with (searchCache w0);
        rewrite Hkeep; exact Hlen.
Qed.

End Cached.

(** ** A successful attempt *)

Lemma attempt_success_events toolName tmo args url k s reply :
  attempt_outcome toolName tmo s = Return reply ->
  attempt_events toolName args url k s
  = [EvConnect k url; EvCallTool k toolName args; EvClose k].
Proof.
  unfold attempt_outcome, attempt_events.
  destruct (on_connect s); [|discriminate..].
  destruct (on_callTool s); [|discriminate..].
  destruct (on_close s); [discriminate|reflexivity].
Qed.

(** When [close] does not reject, an attempt closes its session once. *)
Lemma attempt_closes_once toolName args url k s j :
  on_close s = None ->
  closes_of j (attempt_events toolName args url k s)
  = opens_of j (attempt_events toolName args url k s).
Proof.
  intros Hclose. unfold attempt_events. rewrite Hclose.
  destruct (on_connect s); [destruct (on_callTool s)|..]; simpl; lia.
Qed.

Lemma retry_loop_closes_what_it_opens toolName args userId uc tmo r url n :
  forall attempt last w j,
    (forall k, on_close (remote w k) = None) ->
    let tr := trace_of (retry_loop n attempt last toolName r
                          (attempt_body toolName args userId uc tmo url) w) in
    closes_of j tr = opens_of j tr.
Proof.
  induction n as [|n IH]; intros attempt last w j Hclose; cbv zeta.
  - rewrite retry_loop_O. reflexivity.
  - rewrite retry_loop_S. cbv zeta.
    pose proof (attempt_closes_once toolName args url (sessions w) _ j
                  (Hclose (sessions w))) as Hone.
    destruct (attempt_result toolName tmo _) as [x|e]; [exact Hone|].
    destruct (attempt <? r).
    + specialize (IH (attempt + 1) (Some e)
                    (with_now (now (after_attempt toolName args userId uc tmo w)
                               + 2 ^ attempt * 1000)
                       (after_attempt toolName args userId uc tmo w)) j Hclose).
      cbv zeta in IH.
      destruct (retry_loop n _ _ _ _ _ _) as [[o2 w2] t2].
      unfold trace_of in *. cbn [snd] in *.
      rewrite closes_of_app, opens_of_app. cbn [closes_of opens_of]. lia.
    + specialize (IH (attempt + 1) (Some e)
                    (after_attempt toolName args userId uc tmo w) j Hclose).
      cbv zeta in IH.
      destruct (retry_loop n _ _ _ _ _ _) as [[o2 w2] t2].
      unfold trace_of in *. cbn [snd] in *.
      rewrite closes_of_app, opens_of_app. lia.
Qed.

(** ** What a call does to the cache *)

(** The cache after the loop: untouched by a loop that throws, and by a
    loop that does not cache; otherwise the cache at the start with the
    returned text stored. *)
Lemma retry_loop_cache toolName args userId uc tmo r url n :
  forall attempt last w o w' tr,
    retry_loop n attempt last toolName r
      (attempt_body toolName args userId uc tmo url) w = (o, w', tr) ->
    match o with
    | Throw _ => searchCache w' = searchCache w
    | Return x =>
        searchCache w'
        = if uc && is_search_tool toolName
          then stored (cacheKey userId toolName args) (mkCacheEntry x (now w')) (searchCache w)
          else searchCache w
    end.
Proof.
  induction n as [|n IH]; intros attempt last w o w' tr.
  - rewrite retry_loop_O. intros H; triple H. reflexivity.
  - rewrite retry_loop_S. cbv zeta.
    assert (Hkeep : forall e,
              attempt_result toolName tmo (remote w (sessions w)) = Throw e ->
              searchCache (after_attempt toolName args userId uc tmo w) = searchCache w).
    { intros e. unfold attempt_result, after_attempt, attempt_cache.
      destruct w as [cache t0 en tok rem k]. simpl.
      destruct (attempt_outcome toolName tmo (rem k)); [discriminate|reflexivity]. }
    destruct (attempt_result toolName tmo _) as [x0|e] eqn:Hres.
    + intros H; triple H.
      unfold attempt_result in Hres. unfold after_attempt, attempt_cache.
      destruct w as [cache t0 en tok rem k]. simpl in *.
      destruct (attempt_outcome toolName tmo (rem k)) as [reply|]; [|discriminate].
      injection Hres as <-. reflexivity.
    + specialize (Hkeep e eq_refl).
      destruct (attempt <? r);
        destruct (retry_loop n _ _ _ _ _ _) as [[o2 w2] t2] eqn:Hrec;
        intros H; triple H; apply IH in Hrec;
        change (searchCache (with_now _ ?w0)) with (searchCache w0) in Hrec;
        rewrite Hkeep in Hrec; exact Hrec.
Qed.

Lemma set_keys_nonempty key entry m :
  key <> ""%string ->
  Forall (fun kv : string * CacheEntry => fst kv <> ""%string) m ->
  Forall (fun kv : string * CacheEntry => fst kv <> ""%string) (JsMap.set key entry m).
Proof.
  intros Hkey. induction 1 as [|[k v] m Hk Hm IH]; simpl.
  - constructor; [exact Hkey|constructor].
  - destruct (String.eqb k key); constructor; auto.
Qed.

Lemma delete_keys_nonempty key m :
  Forall (fun kv : string * CacheEntry => fst kv <> ""%string) m ->
  Forall (fun kv : string * CacheEntry => fst kv <> ""%string) (JsMap.delete key m).
Proof.
  induction 1 as [|[k v] m Hk Hm IH]; simpl; [constructor|].
  destruct (String.eqb k key); [exact Hm|constructor; auto].
Qed.

Lemma delete_first_key k v m : JsMap.delete k ((k, v) :: m) = m.
Proof. simpl. rewrite String.eqb_refl. reflexivity. Qed.

Lemma stored_ok key entry m :
  key <> ""%string -> cache_ok m -> cache_ok (stored key entry m).
Proof.
  intros Hkey [Hlen Hkeys]. unfold stored.
  pose proof (set_keys_nonempty key entry m Hkey Hkeys) as Hset.
  pose proof (set_length key entry m) as Hsl.
  destruct (JsMap.size (JsMap.set key entry m) >? 100) eqn:Hsize.
  - destruct (JsMap.set key entry m) as [|[k0 v0] m1] eqn:Hm1; [split; simpl; [lia|constructor]|].
    cbn [JsMap.first_key]. inversion Hset as [|? ? Hk0 Hrest]; subst.
    destruct k0 as [|c k0]; [simpl in Hk0; congruence|].
    rewrite delete_first_key. split; [|exact Hrest].
    simpl in Hsl. destruct (JsMap.get key m); lia.
  - rewrite Z.gtb_ltb in Hsize. apply Z.ltb_ge in Hsize. unfold JsMap.size in Hsize.
    split; [lia|exact Hset].
Qed.

(** First in, first out: storing a new key in a full cache drops the
    entry that was inserted first and keeps the others in their order. *)
Lemma stored_evicts_oldest key entry k0 v0 m :
  length ((k0, v0) :: m) = 100%nat ->
  k0 <> ""%string ->
  JsMap.get key ((k0, v0) :: m) = None ->
  stored key entry ((k0, v0) :: m) = (m ++ [(key, entry)])%list.
Proof.
  intros Hlen Hk0 Hget. unfold stored.
  rewrite set_absent by exact Hget.
  assert (Hfull : (JsMap.size (((k0, v0) :: m) ++ [(key, entry)])%list >? 100) = true).
  { unfold JsMap.size. rewrite length_app. apply Z.gtb_lt. simpl in *. lia. }
  rewrite Hfull. cbn [app JsMap.first_key]. destruct k0 as [|c k0]; [congruence|].
  apply delete_first_key.
Qed.

Lemma cacheKey_nonempty userId toolName args : cacheKey userId toolName args <> ""%string.
Proof.
  unfold cacheKey. destruct userId; discriminate.
Qed.

(** ** The clock *)

(** Time does not run backwards during a call when no remote step takes a
    negative time. *)
Lemma retry_loop_clock toolName args userId uc tmo r url n :
  forall attempt last w o w' tr,
    (forall k, 0 <= connect_ms (remote w k) /\ 0 <= callTool_ms (remote w k)) ->
    retry_loop n attempt last toolName r
      (attempt_body toolName args userId uc tmo url) w = (o, w', tr) ->
    now w <= now w'.
Proof.
  induction n as [|n IH]; intros attempt last w o w' tr Hpos.
  - rewrite retry_loop_O. intros H; triple H. lia.
  - rewrite retry_loop_S. cbv zeta.
    assert (Hstep : now w <= now (after_attempt toolName args userId uc tmo w)).
    { unfold after_attempt, attempt_clock. destruct (Hpos (sessions w)) as [Hc Ht].
      destruct w as [cache t0 en tok rem k]. simpl in *.
      destruct (on_connect (rem k)); lia. }
    destruct (attempt_result toolName tmo _) as [x|e].
    + intros H; triple H. exact Hstep.
    + pose proof (Z.pow_nonneg 2 attempt ltac:(lia)) as Hpow.
      destruct (attempt <? r);
        destruct (retry_loop n _ _ _ _ _ _) as [[o2 w2] t2] eqn:Hrec;
        intros H; triple H; apply IH in Hrec; try exact Hpos;
        cbn [now with_now] in Hrec; lia.
Qed.

(** ** The JSON functions on sample texts *)

Example base64_samples :
  map base64 [""; "M"; "Ma"; "Man"; "{}"] = [""; "TQ=="; "TWE="; "TWFu"; "e30="].
Proof. reflexivity. Qed.

Example stringify_sample :
  stringify (JObj [("q", JStr "from:a@b.com"); ("maxResults", JNum "10");
                   ("labelIds", JArr [JStr "INBOX"])])
  = "{" ++ dquote ++ "q" ++ dquote ++ ":" ++ dquote ++ "from:a@b.com" ++ dquote ++ ","
        ++ dquote ++ "maxResults" ++ dquote ++ ":10,"
        ++ dquote ++ "labelIds" ++ dquote ++ ":[" ++ dquote ++ "INBOX" ++ dquote ++ "]}".
Proof. reflexivity. Qed.

Example stringify2_sample :
  stringify2 (JArr [JObj [("type", JStr "image")]; JArr []; JNull])
  = "[" ++ newline
    ++ "  {" ++ newline
    ++ "    " ++ dquote ++ "type" ++ dquote ++ ": " ++ dquote ++ "image" ++ dquote ++ newline
    ++ "  }," ++ newline
    ++ "  []," ++ newline
    ++ "  null" ++ newline
    ++ "]".
Proof. reflexivity. Qed.

(** Texts that are JSON. *)
Example parse_accepts :
  JsonParse.parse " [1, -2.5e+3, true, null, [], {}] "
  = Some (JArr [JNum "1"; JNum "-2.5e+3"; JBool true; JNull; JArr []; JObj []])
  /\ JsonParse.parse ("{" ++ dquote ++ "messages" ++ dquote ++ ":[{" ++ dquote ++ "id"
                        ++ dquote ++ ":" ++ dquote ++ "18cA" ++ dquote ++ "}],"
                        ++ dquote ++ "messages" ++ dquote ++ ":[]}")
     = Some (JObj [("messages", JArr [])])
  /\ JsonParse.parse (dquote ++ "a\né" ++ dquote)
     = Some (JStr ("a" ++ newline ++ String (ascii_of_nat 195) (String (ascii_of_nat 169) ""))).
Proof. repeat split. Qed.

(** Texts that are not. *)
Example parse_rejects :
  map JsonParse.parse
      [""; "Error: quota exceeded"; "[1,]"; "[1 2]"; "01"; "1."; "-"; "nul"; "{}x";
       "{a:1}"; "[" ++ dquote ++ "a"; "'a'"]
  = repeat None 12.
Proof. reflexivity. Qed.

(** ** The parser reads forward, and its fuel suffices *)

Module ParseFacts.
Import JsonParse.

Lemma skip_ws_length s : (String.length (skip_ws s) <= String.length s)%nat.
Proof.
  induction s as [|c s IH]; simpl; [lia|].
  destruct (is_ws c); simpl; lia.
Qed.

Lemma prepend_some prefix parsed body after :
  prepend prefix parsed = Some (body, after) ->
  exists body', parsed = Some (body', after).
Proof.
  destruct parsed as [[b a]|]; simpl; [|discriminate].
  intros [= <- <-]. eexists. reflexivity.
Qed.

Lemma string_body_length n :
  forall s body after,
    (String.length s <= n)%nat ->
    string_body s = Some (body, after) ->
    (String.length after < String.length s)%nat.
Proof.
  induction n as [|n IH]; intros s body after Hlen.
  - destruct s; [discriminate|simpl in Hlen; lia].
  - destruct s as [|c rest]; [discriminate|]. simpl in Hlen.
    cbn [string_body].
    destruct (code c =? 34)%N; [intros [= <- <-]; simpl; lia|].
    destruct (code c =? 92)%N.
    + destruct rest as [|e rest1]; [discriminate|].
      destruct (code e =? 117)%N.
      * destruct rest1 as [|h1 [|h2 [|h3 [|h4 rest2]]]]; try discriminate.
        destruct (hex4 h1 h2 h3 h4) as [hi|]; [|discriminate].
        assert (Hr2 : forall b a,
                  prepend (utf8 hi) (string_body rest2) = Some (b, a) ->
                  (String.length a
                   < String.length
                       (String c (String e (String h1 (String h2 (String h3 (String h4 rest2)))))))%nat).
        { intros b a H. apply prepend_some in H. destruct H as [b' H].
          apply IH in H; simpl in *; lia. }
        destruct rest2 as [|b [|u [|l1 [|l2 [|l3 [|l4 rest3]]]]]]; try (apply Hr2).
        destruct (hex4 l1 l2 l3 l4) as [lo|]; [|apply Hr2].
        destruct (is_high_surrogate hi && (code b =? 92)%N && (code u =? 117)%N
                  && is_low_surrogate lo); [|apply Hr2].
        intros H. apply prepend_some in H. destruct H as [b' H].
        apply IH in H; simpl in *; lia.
      * destruct (simple_escape e); [|discriminate].
        intros H. apply prepend_some in H. destruct H as [b' H].
        apply IH in H; simpl in *; lia.
    + destruct (code c <? 32)%N; [discriminate|].
      intros H. apply prepend_some in H. destruct H as [b' H].
      apply IH in H; simpl in *; lia.
Qed.

Lemma string_body_shorter s body after :
  string_body s = Some (body, after) -> (String.length after < String.length s)%nat.
Proof. apply (string_body_length (String.length s)). lia. Qed.

Lemma digits_length s d r :
  digits s = (d, r) -> (String.length r + String.length d = String.length s)%nat.
Proof.
  revert d r. induction s as [|c s IH]; intros d r; simpl.
  - intros [= <- <-]. reflexivity.
  - destruct (is_digit c).
    + destruct (digits s) as [ds after]. intros [= <- <-].
      specialize (IH ds after eq_refl). simpl. lia.
    + intros [= <- <-]. simpl. lia.
Qed.

Lemma optional_length test s c r :
  optional test s = (c, r) -> (String.length r <= String.length s)%nat.
Proof.
  destruct s as [|x s]; simpl; [intros [= <- <-]; simpl; lia|].
  destruct (test x); intros [= <- <-]; simpl; lia.
Qed.

Lemma int_part_length s t r :
  int_part s = Some (t, r) -> (String.length r < String.length s)%nat.
Proof.
  unfold int_part. destruct (digits s) as [d r0] eqn:Hd. apply digits_length in Hd.
  destruct d as [|c [|c' d]]; [discriminate|intros [= <- <-]; simpl in *; lia|].
  destruct (code c =? 48)%N; [discriminate|]. intros [= <- <-]. simpl in *. lia.
Qed.

Lemma frac_part_length s t r :
  frac_part s = Some (t, r) -> (String.length r <= String.length s)%nat.
Proof.
  unfold frac_part. destruct s as [|c rest]; [intros [= <- <-]; simpl; lia|].
  destruct (code c =? 46)%N; [|intros [= <- <-]; simpl; lia].
  destruct (digits rest) as [d r0] eqn:Hd. apply digits_length in Hd.
  destruct d; [discriminate|]. intros [= <- <-]. simpl in *. lia.
Qed.

Lemma exp_part_length s t r :
  exp_part s = Some (t, r) -> (String.length r <= String.length s)%nat.
Proof.
  unfold exp_part. destruct s as [|c rest]; [intros [= <- <-]; simpl; lia|].
  destruct ((code c =? 101)%N || (code c =? 69)%N); [|intros [= <- <-]; simpl; lia].
  destruct (optional _ rest) as [sign rest1] eqn:Ho. apply optional_length in Ho.
  destruct (digits rest1) as [d r0] eqn:Hd. apply digits_length in Hd.
  destruct d; [discriminate|]. intros [= <- <-]. simpl in *. lia.
Qed.

Lemma number_length s t r :
  number s = Some (t, r) -> (String.length r < String.length s)%nat.
Proof.
  unfold number. destruct (optional _ s) as [sign s1] eqn:Ho. apply optional_length in Ho.
  destruct (int_part s1) as [[int s2]|] eqn:Hi; [|discriminate]. apply int_part_length in Hi.
  destruct (frac_part s2) as [[frac s3]|] eqn:Hf; [|discriminate].
  apply frac_part_length in Hf.
  destruct (exp_part s3) as [[exp s4]|] eqn:He; [|discriminate].
  apply exp_part_length in He. intros [= <- <-]. lia.
Qed.

Lemma expect_length word s r :
  expect word s = Some r -> (String.length r + String.length word = String.length s)%nat.
Proof.
  revert s. induction word as [|c word IH]; intros s; simpl.
  - intros [= <-]. lia.
  - destruct s as [|d rest]; [discriminate|].
    destruct (Ascii.eqb c d); [|discriminate]. intros H. apply IH in H. simpl. lia.
Qed.


(** Every successful parse consumes text. *)
Lemma parse_progress fuel :
  (forall s v r, value fuel s = Some (v, r) -> (String.length r < String.length s)%nat)
  /\ (forall s vs r, elements fuel s = Some (vs, r) -> (String.length r < String.length s)%nat)
  /\ (forall s kv r, member fuel s = Some (kv, r) -> (String.length r < String.length s)%nat)
  /\ (forall acc s all r,
        members fuel acc s = Some (all, r) -> (String.length r < String.length s)%nat).
Proof.
  induction fuel as [|fuel (IHv & IHe & IHm & IHms)].
  { repeat split; intros; discriminate. }
  repeat split.
  - intros s v r. cbn [value].
    pose proof (skip_ws_length s) as Hws.
    destruct (skip_ws s) as [|c rest]; [discriminate|]. simpl in Hws. cbv zeta.
    destruct (code c =? 34)%N.
    { destruct (string_body rest) as [[str after]|] eqn:Hs; [|discriminate].
      apply string_body_shorter in Hs. intros [= <- <-]. lia. }
    destruct (code c =? 91)%N.
    { pose proof (skip_ws_length rest) as Hws'.
      destruct (skip_ws rest) as [|d after]; [discriminate|]. simpl in Hws'.
      destruct (code d =? 93)%N; [intros [= <- <-]; lia|].
      destruct (value fuel rest) as [[first rest1]|] eqn:H1; [|discriminate].
      apply IHv in H1.
      destruct (elements fuel rest1) as [[others after1]|] eqn:H2; [|discriminate].
      apply IHe in H2. intros [= <- <-]. lia. }
    destruct (code c =? 123)%N.
    { pose proof (skip_ws_length rest) as Hws'.
      destruct (skip_ws rest) as [|d after]; [discriminate|]. simpl in Hws'.
      destruct (code d =? 125)%N; [intros [= <- <-]; lia|].
      destruct (member fuel rest) as [[kv rest1]|] eqn:H1; [|discriminate].
      apply IHm in H1.
      destruct (members fuel [kv] rest1) as [[all after1]|] eqn:H2; [|discriminate].
      apply IHms in H2. intros [= <- <-]. lia. }
    destruct (code c =? 116)%N.
    { destruct (expect "true" (String c rest)) as [after|] eqn:He; [|discriminate].
      apply expect_length in He. intros [= <- <-]. simpl in *. lia. }
    destruct (code c =? 102)%N.
    { destruct (expect "false" (String c rest)) as [after|] eqn:He; [|discriminate].
      apply expect_length in He. intros [= <- <-]. simpl in *. lia. }
    destruct (code c =? 110)%N.
    { destruct (expect "null" (String c rest)) as [after|] eqn:He; [|discriminate].
      apply expect_length in He. intros [= <- <-]. simpl in *. lia. }
    destruct (number (String c rest)) as [[text after]|] eqn:Hn; [|discriminate].
    apply number_length in Hn. intros [= <- <-]. simpl in *. lia.
  - intros s vs r. cbn [elements].
    pose proof (skip_ws_length s) as Hws.
    destruct (skip_ws s) as [|c rest]; [discriminate|]. simpl in Hws. cbv zeta.
    destruct (code c =? 93)%N; [intros [= <- <-]; lia|].
    destruct (code c =? 44)%N; [|discriminate].
    destruct (value fuel rest) as [[v rest1]|] eqn:H1; [|discriminate]. apply IHv in H1.
    destruct (elements fuel rest1) as [[others after]|] eqn:H2; [|discriminate].
    apply IHe in H2. intros [= <- <-]. lia.
  - intros s kv r. cbn [member].
    pose proof (skip_ws_length s) as Hws.
    destruct (skip_ws s) as [|c rest]; [discriminate|]. simpl in Hws.
    destruct (code c =? 34)%N; [|discriminate].
    destruct (string_body rest) as [[key rest1]|] eqn:Hs; [|discriminate].
    apply string_body_shorter in Hs.
    pose proof (skip_ws_length rest1) as Hws'.
    destruct (skip_ws rest1) as [|d rest2]; [discriminate|]. simpl in Hws'.
    destruct (code d =? 58)%N; [|discriminate].
    destruct (value fuel rest2) as [[v after]|] eqn:H1; [|discriminate]. apply IHv in H1.
    intros [= <- <-]. lia.
  - intros acc s all r. cbn [members].
    pose proof (skip_ws_length s) as Hws.
    destruct (skip_ws s) as [|c rest]; [discriminate|]. simpl in Hws. cbv zeta.
    destruct (code c =? 125)%N; [intros [= <- <-]; lia|].
    destruct (code c =? 44)%N; [|discriminate].
    destruct (member fuel rest) as [[[key v] rest1]|] eqn:H1; [|discriminate].
    apply IHm in H1. intros H2. apply IHms in H2. lia.
Qed.

(** With more fuel than the text has characters, the fuel does not matter. *)
Lemma parse_fuel fuel1 :
  forall fuel2,
    (forall s, (String.length s < fuel1)%nat -> (String.length s < fuel2)%nat ->
               value fuel1 s = value fuel2 s)
    /\ (forall s, (String.length s < fuel1)%nat -> (String.length s < fuel2)%nat ->
                  elements fuel1 s = elements fuel2 s)
    /\ (forall s, (String.length s < fuel1)%nat -> (String.length s < fuel2)%nat ->
                  member fuel1 s = member fuel2 s)
    /\ (forall acc s, (String.length s < fuel1)%nat -> (String.length s < fuel2)%nat ->
                      members fuel1 acc s = members fuel2 acc s).
Proof.
  induction fuel1 as [|fuel1 IH]; intros fuel2.
  { repeat split; intros; lia. }
  destruct fuel2 as [|fuel2]; [repeat split; intros; lia|].
  destruct (IH fuel2) as (IHv & IHe & IHm & IHms).
  destruct (parse_progress fuel2) as (Pv & Pe & Pm & Pms).
  repeat split.
  - intros s H1 H2. cbn [value].
    pose proof (skip_ws_length s) as Hws.
    destruct (skip_ws s) as [|c rest]; [reflexivity|]. simpl in Hws. cbv zeta.
    destruct (code c =? 34)%N; [reflexivity|].
    destruct (code c =? 91)%N.
    { pose proof (skip_ws_length rest) as Hws'.
      destruct (skip_ws rest) as [|d after]; [reflexivity|].
      destruct (code d =? 93)%N; [reflexivity|].
      rewrite (IHv rest) by lia.
      destruct (value fuel2 rest) as [[first rest1]|] eqn:Hv; [|reflexivity].
      apply Pv in Hv. rewrite (IHe rest1) by lia. reflexivity. }
    destruct (code c =? 123)%N.
    { pose proof (skip_ws_length rest) as Hws'.
      destruct (skip_ws rest) as [|d after]; [reflexivity|].
      destruct (code d =? 125)%N; [reflexivity|].
      rewrite (IHm rest) by lia.
      destruct (member fuel2 rest) as [[kv rest1]|] eqn:Hv; [|reflexivity].
      apply Pm in Hv. rewrite (IHms [kv] rest1) by lia. reflexivity. }
    reflexivity.
  - intros s H1 H2. cbn [elements].
    pose proof (skip_ws_length s) as Hws.
    destruct (skip_ws s) as [|c rest]; [reflexivity|]. simpl in Hws. cbv zeta.
    destruct (code c =? 93)%N; [reflexivity|].
    destruct (code c =? 44)%N; [|reflexivity].
    rewrite (IHv rest) by lia.
    destruct (value fuel2 rest) as [[v rest1]|] eqn:Hv; [|reflexivity].
    apply Pv in Hv. rewrite (IHe rest1) by lia. reflexivity.
  - intros s H1 H2. cbn [member].
    pose proof (skip_ws_length s) as Hws.
    destruct (skip_ws s) as [|c rest]; [reflexivity|]. simpl in Hws.
    destruct (code c =? 34)%N; [|reflexivity].
    destruct (string_body rest) as [[key rest1]|] eqn:Hs; [|reflexivity].
    apply string_body_shorter in Hs.
    pose proof (skip_ws_length rest1) as Hws'.
    destruct (skip_ws rest1) as [|d rest2]; [reflexivity|]. simpl in Hws'.
    destruct (code d =? 58)%N; [|reflexivity].
    rewrite (IHv rest2) by lia. reflexivity.
  - intros acc s H1 H2. cbn [members].
    pose proof (skip_ws_length s) as Hws.
    destruct (skip_ws s) as [|c rest]; [reflexivity|]. simpl in Hws. cbv zeta.
    destruct (code c =? 125)%N; [reflexivity|].
    destruct (code c =? 44)%N; [|reflexivity].
    rewrite (IHm rest) by lia.
    destruct (member fuel2 rest) as [[[key v] rest1]|] eqn:Hv; [|reflexivity].
    apply Pm in Hv. apply IHms; lia.
Qed.

(** [parse] gives the answer of the grammar: no text fails for want of
    fuel, since any larger fuel gives the same answer. *)
Lemma parse_fuel_suffices text fuel :
  (String.length text < fuel)%nat ->
  parse text
  = match value fuel text with
    | Some (v, rest) =>
        match skip_ws rest with
        | EmptyString => Some v
        | _ => None
        end
    | None => None
    end.
Proof.
  intros H. unfold parse.
  destruct (parse_fuel (S (String.length text)) fuel) as (Hv & _).
  rewrite (Hv text) by lia. reflexivity.
Qed.

End ParseFacts.

(** ** The executor past the credential check *)

Lemma executor_enters_loop toolName args userId options w :
  reaches_remote options toolName args userId w ->
  executeGmailToolEnhanced toolName args userId options w
  = match retry_loop (Z.to_nat (default 2 (retries options) + 1)) 0 None toolName
            (default 2 (retries options))
            (attempt_body toolName args userId (default true (useCache options))
               (default 45000 (timeout options)) (serverUrl_of w userId)) w with
    | (o, w', tr) => (o, w', EvGetToken userId :: tr)
    end.
Proof.
  intros (Hmiss & Hcfg & Htok).
  rewrite executeGmailToolEnhanced_run. cbv zeta.
  rewrite Hmiss, Hcfg, Htok. reflexivity.
Qed.

(** A loop with an iteration to run opens a session first. *)
Lemma retry_loop_opens_first toolName args userId uc tmo r url n attempt last w :
  exists rest,
    trace_of (retry_loop (S n) attempt last toolName r
                (attempt_body toolName args userId uc tmo url) w)
    = EvConnect (sessions w) url :: rest.
Proof.
  rewrite retry_loop_S. cbv zeta.
  destruct (attempt_result toolName tmo _) as [x|e].
  - eexists. reflexivity.
  - destruct (attempt <? r);
      destruct (retry_loop n _ _ _ _ _ _) as [[o2 w2] t2];
      eexists; reflexivity.
Qed.

Lemma executor_goes_remote toolName args userId options w :
  reaches_remote options toolName args userId w ->
  0 <= default 2 (retries options) ->
  exists rest,
    trace_of (executeGmailToolEnhanced toolName args userId options w)
    = EvGetToken userId :: EvConnect (sessions w) (serverUrl_of w userId) :: rest.
Proof.
  intros Hreach Hr. rewrite (executor_enters_loop _ _ _ _ _ Hreach).
  destruct (Z.to_nat (default 2 (retries options) + 1)) as [|n] eqn:Hn; [lia|].
  destruct (retry_loop_opens_first toolName args userId (default true (useCache options))
              (default 45000 (timeout options)) (default 2 (retries options))
              (serverUrl_of w userId) n 0 None w) as [rest Hrest].
  destruct (retry_loop (S n) _ _ _ _ _ _) as [[o w'] tr].
  unfold trace_of in *. simpl in *. subst tr. eexists. reflexivity.
Qed.

(** C3: with [retries = 2], a call whose three attempts all fail makes exactly
    three attempts, sleeps 1000 ms and then 2000 ms between them, and throws
    the error of the third; a call whose first two attempts fail and whose
    third succeeds returns the text of that reply after the same two sleeps,
    each delay [2 ^ attempt * 1000], the second twice the first. *)
Theorem retries_two_gives_three_attempts_with_doubling_backoff :
  forall toolName args userId options w,
    default 2 (retries options) = 2 ->
    reaches_remote options toolName args userId w ->
    let attempt i :=
      attempt_outcome toolName (default 45000 (timeout options)) (remote w (sessions w + i)) in
    let run := executeGmailToolEnhanced toolName args userId options w in
    let s := sessions w in
    (forall e0 e1 e2,
        attempt 0%nat = Throw e0 -> attempt 1%nat = Throw e1 -> attempt 2%nat = Throw e2 ->
        outcome_of run = Throw e2
        /\ connects (trace_of run) = [s; S s; S (S s)]
        /\ sleeps (trace_of run) = [2 ^ 0 * 1000; 2 ^ 1 * 1000]
        /\ sleeps (trace_of run) = [1000; 2 * 1000])
    /\ (forall e0 e1 reply,
        attempt 0%nat = Throw e0 -> attempt 1%nat = Throw e1 -> attempt 2%nat = Return reply ->
        outcome_of run = Return (extractResultText reply)
        /\ connects (trace_of run) = [s; S s; S (S s)]
        /\ sleeps (trace_of run) = [2 ^ 0 * 1000; 2 ^ 1 * 1000]
        /\ sleeps (trace_of run) = [1000; 2 * 1000]).
Proof.
  intros toolName args userId options w Hr Hreach. cbv zeta.
  rewrite (executor_enters_loop _ _ _ _ _ Hreach), Hr. split.
  - intros e0 e1 e2 H0 H1 H2.
    destruct (retry_loop_exhausted toolName args userId (default true (useCache options))
                (default 45000 (timeout options)) 2 (serverUrl_of w userId)
                3 0 None w
                (fun i => match i with 0%nat => e0 | 1%nat => e1 | _ => e2 end))
      as (w' & tr & Hrun & Hc & Hs).
    + reflexivity.
    + intros [|[|[|i]]] Hi; [exact H0|exact H1|exact H2|lia].
    + change (Z.to_nat (2 + 1)) with 3%nat. rewrite Hrun.
      unfold outcome_of, trace_of. cbn [fst snd connects sleeps].
      rewrite Hc, Hs. repeat split.
  - intros e0 e1 reply H0 H1 H2.
    destruct (retry_loop_succeeds toolName args userId (default true (useCache options))
                (default 45000 (timeout options)) 2 (serverUrl_of w userId)
                2 3 0 None w reply)
      as (w' & tr & Hrun & Hc & Hs).
    + lia.
    + reflexivity.
    + intros [|[|i]] Hi; [exists e0; exact H0|exists e1; exact H1|lia].
    + exact H2.
    + change (Z.to_nat (2 + 1)) with 3%nat. rewrite Hrun.
      unfold outcome_of, trace_of. cbn [fst snd connects sleeps].
      rewrite Hc, Hs. repeat split.
Qed.

(** ** Tools outside the cache *)

Lemma uncached_tool_never_hits uc toolName args userId w :
  is_search_tool toolName = false ->
  cached_result uc toolName args userId w = None.
Proof.
  intros H. unfold cached_result. rewrite H, andb_false_r. reflexivity.
Qed.

(** C2: a call whose tool name is not one of the two search operations (so
    every sending, creating or deleting tool) leaves the cache as it found
    it, and its outcome, its events and the rest of the world are the same
    whatever the cache holds: nothing is served from the cache and nothing is
    stored.  Called a second time with the same arguments, with [useCache]
    enabled or not, the call opens a session again whenever the process is
    configured, the caller has a credential and [retries] is not negative. *)
Theorem mutating_tools_never_touch_the_cache :
  forall toolName args userId options w,
    is_search_tool toolName = false ->
    let call := executeGmailToolEnhanced toolName args userId options in
    let first := call w in
    let second := call (world_of first) in
    searchCache (world_of first) = searchCache w
    /\ (forall c, call (with_cache c w)
                  = (outcome_of first, with_cache c (world_of first), trace_of first))
    /\ searchCache (world_of second) = searchCache w
    /\ (config_present (env w) = true ->
        truthy_string (gmailTokens w userId) = true ->
        0 <= default 2 (retries options) ->
        hd_error (connects (trace_of second)) = Some (sessions (world_of first))).
Proof.
  intros toolName args userId options w Hmut. cbv zeta.
  assert (Hnc : default true (useCache options) && is_search_tool toolName = false)
    by (rewrite Hmut; apply andb_false_r).
  assert (Hcall : forall w0,
            searchCache (world_of (executeGmailToolEnhanced toolName args userId options w0))
            = searchCache w0
            /\ forall c,
                 executeGmailToolEnhanced toolName args userId options (with_cache c w0)
                 = (outcome_of (executeGmailToolEnhanced toolName args userId options w0),
                    with_cache c (world_of (executeGmailToolEnhanced toolName args userId options w0)),
                    trace_of (executeGmailToolEnhanced toolName args userId options w0))).
  { intros w0. rewrite executeGmailToolEnhanced_run. cbv zeta.
    assert (Hrun : forall c,
              executeGmailToolEnhanced toolName args userId options (with_cache c w0)
              = if negb (config_present (env w0))
                then (Throw (mkError "Gmail configuration missing"), with_cache c w0, [])
                else if negb (truthy_string (gmailTokens w0 userId))
                then (Throw (mkError "Gmail not connected. Please connect your Gmail account first."),
                      with_cache c w0, [EvGetToken userId])
                else
                  match retry_loop (Z.to_nat (default 2 (retries options) + 1)) 0 None toolName
                          (default 2 (retries options))
                          (attempt_body toolName args userId (default true (useCache options))
                             (default 45000 (timeout options)) (serverUrl_of w0 userId))
                          (with_cache c w0) with
                  | (o, w', tr) => (o, w', EvGetToken userId :: tr)
                  end).
    { intros c. rewrite executeGmailToolEnhanced_run. cbv zeta.
      rewrite !uncached_tool_never_hits by assumption. reflexivity. }
    rewrite uncached_tool_never_hits by assumption.
    destruct (negb (config_present (env w0))).
    { split; [reflexivity|]. intros c. rewrite Hrun. reflexivity. }
    destruct (negb (truthy_string (gmailTokens w0 userId))).
    { split; [reflexivity|]. intros c. rewrite Hrun. reflexivity. }
    destruct (retry_loop _ _ _ _ _ _ w0) as [[o w'] tr] eqn:Hloop.
    apply retry_loop_ignores_cache in Hloop; [|assumption].
    destruct Hloop as [Hc Hind]. split; [exact Hc|].
    intros c. rewrite Hrun, Hind. reflexivity. }
  destruct (Hcall w) as [H1 H2].
  destruct (Hcall (world_of (executeGmailToolEnhanced toolName args userId options w)))
    as [H3 _].
  split; [exact H1|]. split; [exact H2|]. split; [congruence|].
  intros Hcfg Htok Hr.
  destruct (executor_frame toolName args userId options w) as (He & Hg & _).
  destruct (executor_goes_remote toolName args userId options
              (world_of (executeGmailToolEnhanced toolName args userId options w)))
    as [rest Hrest].
  - split; [apply uncached_tool_never_hits; assumption|].
    rewrite He, Hg. split; assumption.
  - assumption.
  - rewrite Hrest. reflexivity.
Qed.

(** ** Search calls and the cache *)

(** A live entry is served as it is: no credential is read, no session is
    opened, nothing changes. *)
Lemma executor_serves_live_entry toolName args userId options w entry :
  is_search_tool toolName = true ->
  default true (useCache options) = true ->
  JsMap.get (cacheKey userId toolName args) (searchCache w) = Some entry ->
  now w - timestamp entry < CACHE_TTL ->
  executeGmailToolEnhanced toolName args userId options w = (Return (result entry), w, []).
Proof.
  intros Hs Hu Hget Hlive. rewrite executeGmailToolEnhanced_run. cbv zeta.
  unfold cached_result. rewrite Hu, Hs, Hget. cbn [andb].
  apply Z.ltb_lt in Hlive. rewrite Hlive. reflexivity.
Qed.

(** Whatever a search call returns is in the cache when it returns. *)
Lemma executor_result_is_cached toolName args userId options w r1 w1 tr1 :
  is_search_tool toolName = true ->
  default true (useCache options) = true ->
  (length (searchCache w) <= 100)%nat ->
  executeGmailToolEnhanced toolName args userId options w = (Return r1, w1, tr1) ->
  exists entry,
    JsMap.get (cacheKey userId toolName args) (searchCache w1) = Some entry
    /\ result entry = r1
    /\ (tr1 <> [] -> timestamp entry = now w1)
    /\ (tr1 <> [] ->
        (forall k, 0 <= connect_ms (remote w k) /\ 0 <= callTool_ms (remote w k)) ->
        now w <= timestamp entry).
Proof.
  intros Hs Hu Hlen. rewrite executeGmailToolEnhanced_run. cbv zeta. rewrite Hu.
  assert (Hloop : forall o w' tr,
            retry_loop (Z.to_nat (default 2 (retries options) + 1)) 0 None toolName
              (default 2 (retries options))
              (attempt_body toolName args userId true
                 (default 45000 (timeout options)) (serverUrl_of w userId)) w = (o, w', tr) ->
            (o, w', EvGetToken userId :: tr) = (Return r1, w1, tr1) ->
            exists entry,
              JsMap.get (cacheKey userId toolName args) (searchCache w1) = Some entry
              /\ result entry = r1
              /\ (tr1 <> [] -> timestamp entry = now w1)
              /\ (tr1 <> [] ->
                  (forall k, 0 <= connect_ms (remote w k) /\ 0 <= callTool_ms (remote w k)) ->
                  now w <= timestamp entry)).
  { intros o w' tr Hrun H. apply triple_inv in H. destruct H as (-> & -> & _).
    pose proof Hrun as Hclock.
    apply retry_loop_stores in Hrun; [|rewrite Hs; reflexivity|exact Hlen].
    eexists. split; [exact Hrun|]. split; [reflexivity|]. split; [reflexivity|].
    intros _ Hpos. cbn [timestamp]. eapply retry_loop_clock; eassumption. }
  unfold cached_result at 1. rewrite Hs. cbn [andb].
  destruct (JsMap.get _ (searchCache w)) as [entry|] eqn:Hget.
  - destruct (now w - timestamp entry <? CACHE_TTL) eqn:Hlive.
    + intros H. apply triple_inv in H. destruct H as (Hr & <- & <-).
      injection Hr as <-. exists entry.
      repeat split; try exact Hget; intros []; reflexivity.
    + destruct (negb (config_present (env w)));
        [intros H; apply triple_inv in H; destruct H as [H _]; discriminate|].
      destruct (negb (truthy_string (gmailTokens w userId)));
        [intros H; apply triple_inv in H; destruct H as [H _]; discriminate|].
      destruct (retry_loop _ _ _ _ _ _ w) as [[o w'] tr] eqn:Hrun.
      apply (Hloop o w' tr eq_refl).
  - destruct (negb (config_present (env w)));
      [intros H; apply triple_inv in H; destruct H as [H _]; discriminate|].
    destruct (negb (truthy_string (gmailTokens w userId)));
      [intros H; apply triple_inv in H; destruct H as [H _]; discriminate|].
    destruct (retry_loop _ _ _ _ _ _ w) as [[o w'] tr] eqn:Hrun.
    apply (Hloop o w' tr eq_refl).
Qed.

(** C1, as the code has it: when a call with [useCache] enabled for one of
    the two search operations returns a result, the cache (of at most 100
    entries before the call) holds that result under the call's key; if the
    call went to the remote, the entry is stamped with the time the call
    ended, which is not before the call began when no remote step takes a
    negative time.  Every later call with the same caller, tool name and
    serialized arguments that finds this cache, less than [CACHE_TTL] after
    the stamp, returns the stored result at once: it reads no credential,
    opens no session, sleeps for no retry and changes nothing. *)
Theorem second_search_call_is_served_from_cache :
  forall toolName args userId options1 options2 w r1 w1 tr1,
    is_search_tool toolName = true ->
    default true (useCache options1) = true ->
    default true (useCache options2) = true ->
    (length (searchCache w) <= 100)%nat ->
    executeGmailToolEnhanced toolName args userId options1 w = (Return r1, w1, tr1) ->
    exists entry,
      JsMap.get (cacheKey userId toolName args) (searchCache w1) = Some entry
      /\ result entry = r1
      /\ (tr1 <> [] -> timestamp entry = now w1)
      /\ (tr1 <> [] ->
          (forall k, 0 <= connect_ms (remote w k) /\ 0 <= callTool_ms (remote w k)) ->
          now w <= timestamp entry)
      /\ forall w2,
           searchCache w2 = searchCache w1 ->
           now w2 - timestamp entry < CACHE_TTL ->
           executeGmailToolEnhanced toolName args userId options2 w2 = (Return r1, w2, []).
Proof.
  intros toolName args userId options1 options2 w r1 w1 tr1 Hs Hu1 Hu2 Hlen Hrun.
  destruct (executor_result_is_cached _ _ _ _ _ _ _ _ Hs Hu1 Hlen Hrun)
    as (entry & Hget & Hres & Hstamp & Hclock).
  exists entry. repeat split; try assumption.
  intros w2 Hcache Hlive. rewrite <- Hres.
  apply executor_serves_live_entry; try assumption.
  rewrite Hcache. exact Hget.
Qed.

(** ** Callers without a credential *)

Lemma executor_without_credential toolName args userId options w :
  gmailTokens w userId = None ->
  let run := executeGmailToolEnhanced toolName args userId options w in
  let hit := cached_result (default true (useCache options)) toolName args userId w in
  connects (trace_of run) = []
  /\ sleeps (trace_of run) = []
  /\ (forall name, tool_calls name (trace_of run) = 0%nat)
  /\ (hit = None -> config_present (env w) = true ->
      run = (Throw (mkError "Gmail not connected. Please connect your Gmail account first."),
             w, [EvGetToken userId]))
  /\ (hit = None -> config_present (env w) = false ->
      run = (Throw (mkError "Gmail configuration missing"), w, []))
  /\ (forall cachedResult, hit = Some cachedResult -> run = (Return cachedResult, w, [])).
Proof.
  intros Hnone. cbv zeta.
  rewrite executeGmailToolEnhanced_run. cbv zeta. rewrite Hnone. cbn [truthy_string negb].
  destruct (cached_result _ _ _ _ w) as [res|].
  - repeat split; try (intros; discriminate). intros c [= <-]. reflexivity.
  - destruct (config_present (env w)); cbn [negb];
      repeat split; intros; discriminate.
Qed.

(** C4, as the code has it: a call by a caller with no stored credential
    opens no session, invokes no remote procedure and sleeps for no retry.
    When the call is not answered from the cache and the process
    configuration is present, it throws "Gmail not connected. Please connect
    your Gmail account first." having done nothing but read the credential
    store; without the configuration it throws "Gmail configuration missing"
    before the store is read; and answered from a live cache entry it returns
    the cached text. *)
Theorem no_credential_fails_before_any_session :
  forall toolName args userId options w,
    gmailTokens w userId = None ->
    let run := executeGmailToolEnhanced toolName args userId options w in
    let hit := cached_result (default true (useCache options)) toolName args userId w in
    connects (trace_of run) = []
    /\ sleeps (trace_of run) = []
    /\ (forall name, tool_calls name (trace_of run) = 0%nat)
    /\ (hit = None -> config_present (env w) = true ->
        run = (Throw (mkError "Gmail not connected. Please connect your Gmail account first."),
               w, [EvGetToken userId]))
    /\ (hit = None -> config_present (env w) = false ->
        run = (Throw (mkError "Gmail configuration missing"), w, []))
    /\ (forall cachedResult, hit = Some cachedResult -> run = (Return cachedResult, w, [])).
Proof.
  intros toolName args userId options w. apply executor_without_credential.
Qed.

(** ** The credential a session is opened with *)


(** ** The text of a reply *)

Lemma extractResultText_list reply items :
  content reply = Some (JArr items) ->
  extractResultText reply = first_item_text_else_dump items.
Proof.
  intros Hc. unfold extractResultText, first_item_text_else_dump. rewrite Hc.
  destruct items as [|first rest]; [reflexivity|].
  cbn [truthy_jsval truthy Array_isArray item0 opt_get andb].
  unfold strict_equals_string, is_text_item.
  destruct (get "type" first) as [[]|]; reflexivity.
Qed.

(** Where the first text-typed item, if there is one, heads the list, the
    two readings agree. *)
Lemma readings_agree items :
  (forall item, find is_text_item items = Some item -> hd_error items = Some item) ->
  first_item_text_else_dump items = first_text_typed_else_dump items.
Proof.
  unfold first_item_text_else_dump, first_text_typed_else_dump.
  destruct items as [|first rest]; [reflexivity|]. cbn [find hd_error].
  destruct (is_text_item first) eqn:Hfirst; [reflexivity|].
  intros Hhead. destruct (find is_text_item rest) as [item|] eqn:Hfind; [|reflexivity].
  specialize (Hhead item eq_refl). injection Hhead as ->.
  apply find_some in Hfind. destruct Hfind as [_ Htext]. congruence.
Qed.

(** C6, as the code has it: when an attempt of a call succeeds with a reply
    whose content is a list, the call returns the text payload of the first
    item of the list if that item is text-typed, and the JSON stringification
    of the whole content (indented by two spaces) otherwise, also when a
    text-typed item stands later in the list; this is the text payload of the
    first text-typed item, or the stringification when there is none, exactly
    when no text-typed item stands behind an item of another type. *)
Theorem result_text_is_first_item_text_else_dump :
  forall toolName args userId options w k reply items,
    reaches_remote options toolName args userId w ->
    Z.of_nat k <= default 2 (retries options) ->
    (forall i, (i < k)%nat ->
       exists e, attempt_outcome toolName (default 45000 (timeout options))
                   (remote w (sessions w + i)) = Throw e) ->
    attempt_outcome toolName (default 45000 (timeout options))
      (remote w (sessions w + k)) = Return reply ->
    content reply = Some (JArr items) ->
    let run := executeGmailToolEnhanced toolName args userId options w in
    outcome_of run = Return (first_item_text_else_dump items)
    /\ ((forall item, find is_text_item items = Some item -> hd_error items = Some item) ->
        outcome_of run = Return (first_text_typed_else_dump items)).
Proof.
  intros toolName args userId options w k reply items Hreach Hk Hfail Hok Hc. cbv zeta.
  assert (Hout : outcome_of (executeGmailToolEnhanced toolName args userId options w)
                 = Return (first_item_text_else_dump items)).
  { rewrite (executor_enters_loop _ _ _ _ _ Hreach).
    destruct (retry_loop_succeeds toolName args userId (default true (useCache options))
                (default 45000 (timeout options)) (default 2 (retries options))
                (serverUrl_of w userId) k
                (Z.to_nat (default 2 (retries options) + 1)) 0 None w reply)
      as (w' & tr & Hrun & _); try assumption; try lia.
    rewrite Hrun. unfold outcome_of. cbn [fst].
    rewrite (extractResultText_list _ _ Hc). reflexivity. }
  split; [exact Hout|].
  intros Hhead. rewrite Hout, (readings_agree _ Hhead). reflexivity.
Qed.

(** ** The legacy wrapper *)

(** C10: the tools [sendMessage], [createDraft], [createLabel] and
    [getMessage] run through [executeGmailTool], that is with
    [useCache = false] and [retries = 1]; and when the first session of such
    a call accepts the tool call but does not answer before the timer fires,
    and the second attempt succeeds, the call returns the second reply after
    one sleep of 1000 ms, having invoked the remote procedure exactly twice. *)
Theorem legacy_wrapper_invokes_a_mutating_tool_twice :
  forall toolName args userId w reply,
    config_present (env w) = true ->
    truthy_string (gmailTokens w userId) = true ->
    on_connect (remote w (sessions w)) = Resolves tt ->
    on_callTool (remote w (sessions w)) = Pending ->
    attempt_outcome toolName 45000 (remote w (S (sessions w))) = Return reply ->
    (forall u a, sendMessage u a
                 = executeGmailToolEnhanced "send_message" a u (mkOptions (Some false) (Some 1) None))
    /\ (forall u a, createDraft u a
                 = executeGmailToolEnhanced "create_draft" a u (mkOptions (Some false) (Some 1) None))
    /\ (forall u a, createLabel u a
                 = executeGmailToolEnhanced "create_label" a u (mkOptions (Some false) (Some 1) None))
    /\ (forall u a, getMessage u a
                 = executeGmailToolEnhanced "get_message" a u (mkOptions (Some false) (Some 1) None))
    /\ let run := executeGmailTool toolName args userId w in
       outcome_of run = Return (extractResultText reply)
       /\ tool_calls toolName (trace_of run) = 2%nat
       /\ connects (trace_of run) = [sessions w; S (sessions w)]
       /\ sleeps (trace_of run) = [1000].
Proof.
  intros toolName args userId w reply Hcfg Htok Hconn Hcall Hok.
  do 4 (split; [reflexivity|]). cbv zeta.
  assert (H0 : attempt_result toolName 45000 (remote w (sessions w))
               = Throw (timeoutError toolName 45000))
    by (unfold attempt_result, attempt_outcome; rewrite Hconn, Hcall; reflexivity).
  assert (E0 : attempt_events toolName args (serverUrl_of w userId) (sessions w)
                 (remote w (sessions w))
               = [EvConnect (sessions w) (serverUrl_of w userId);
                  EvCallTool (sessions w) toolName args; EvClose (sessions w)])
    by (unfold attempt_events; rewrite Hconn, Hcall; reflexivity).
  assert (H1 : attempt_result toolName 45000 (remote w (S (sessions w)))
               = Return (extractResultText reply))
    by (unfold attempt_result; rewrite Hok; reflexivity).
  pose proof (attempt_success_events toolName 45000 args (serverUrl_of w userId)
                (S (sessions w)) _ _ Hok) as E1.
  unfold executeGmailTool.
  rewrite executor_enters_loop
    by (split; [reflexivity|split; assumption]).
  cbn [default useCache retries timeout].
  change (Z.to_nat (1 + 1)) with 2%nat.
  rewrite retry_loop_S. cbv zeta. rewrite H0, E0.
  change (0 <? 1) with true. cbv iota.
  rewrite retry_loop_S. cbv zeta.
  change (sessions (with_now _ (after_attempt _ _ _ _ _ w))) with (S (sessions w)).
  change (remote (with_now _ (after_attempt _ _ _ _ _ w))) with (remote w).
  rewrite H1, E1.
  unfold outcome_of, trace_of.
  cbn [fst snd app tool_calls connects sleeps].
  rewrite String.eqb_refl. repeat split.
Qed.

(** ** Further properties of the executor *)

(** X1: on a remote whose [close] never rejects, every call closes each
    session exactly as often as it opens it, on every path: success, remote
    error, timeout. *)
Theorem sessions_are_closed_once_when_close_resolves :
  forall toolName args userId options w,
    (forall k, on_close (remote w k) = None) ->
    forall j,
      closes_of j (trace_of (executeGmailToolEnhanced toolName args userId options w))
      = opens_of j (trace_of (executeGmailToolEnhanced toolName args userId options w)).
Proof.
  intros toolName args userId options w Hclose j.
  rewrite executeGmailToolEnhanced_run. cbv zeta.
  destruct (cached_result _ _ _ _ w); [reflexivity|].
  destruct (negb (config_present (env w))); [reflexivity|].
  destruct (negb (truthy_string (gmailTokens w userId))); [reflexivity|].
  pose proof (retry_loop_closes_what_it_opens toolName args userId
                (default true (useCache options)) (default 45000 (timeout options))
                (default 2 (retries options)) (serverUrl_of w userId)
                (Z.to_nat (default 2 (retries options) + 1)) 0 None w j Hclose) as H.
  cbv zeta in H.
  destruct (retry_loop _ _ _ _ _ _ _) as [[o w'] tr].
  unfold trace_of in *. cbn [snd closes_of opens_of] in *. exact H.
Qed.

(** What a call leaves in the cache. *)
Lemma executor_cache toolName args userId options w :
  let run := executeGmailToolEnhanced toolName args userId options w in
  match outcome_of run with
  | Throw _ => searchCache (world_of run) = searchCache w
  | Return x =>
      searchCache (world_of run) = searchCache w
      \/ (default true (useCache options) && is_search_tool toolName = true
          /\ cached_result (default true (useCache options)) toolName args userId w = None
          /\ searchCache (world_of run)
             = stored (cacheKey userId toolName args) (mkCacheEntry x (now (world_of run)))
                 (searchCache w))
  end.
Proof.
  cbv zeta. rewrite executeGmailToolEnhanced_run. cbv zeta.
  destruct (cached_result _ _ _ _ w) eqn:Hhit; [left; reflexivity|].
  destruct (negb (config_present (env w))); [reflexivity|].
  destruct (negb (truthy_string (gmailTokens w userId))); [reflexivity|].
  destruct (retry_loop _ _ _ _ _ _ _) as [[o w'] tr] eqn:Hrun.
  apply retry_loop_cache in Hrun. unfold outcome_of, world_of. cbn [fst snd].
  destruct o as [x|e]; [|exact Hrun].
  destruct (default true (useCache options) && is_search_tool toolName);
    [right; auto|left; exact Hrun].
Qed.

(** X2: the cache never grows beyond 100 entries: a call started with a
    cache of at most 100 entries under non-empty keys (as the empty cache of
    a fresh process is) ends with such a cache. *)
Theorem cache_stays_within_its_capacity :
  forall toolName args userId options w,
    cache_ok (searchCache w) ->
    cache_ok (searchCache (world_of (executeGmailToolEnhanced toolName args userId options w))).
Proof.
  intros toolName args userId options w Hok.
  pose proof (executor_cache toolName args userId options w) as H. cbv zeta in H.
  destruct (outcome_of _) as [x|e].
  - destruct H as [H|(_ & _ & H)]; rewrite H; [exact Hok|].
    apply stored_ok; [apply cacheKey_nonempty|exact Hok].
  - rewrite H. exact Hok.
Qed.

(** X3: only successful results are cached: a call that throws leaves the
    cache as it found it. *)
Theorem failed_call_stores_nothing :
  forall toolName args userId options w e,
    outcome_of (executeGmailToolEnhanced toolName args userId options w) = Throw e ->
    searchCache (world_of (executeGmailToolEnhanced toolName args userId options w))
    = searchCache w.
Proof.
  intros toolName args userId options w e He.
  pose proof (executor_cache toolName args userId options w) as H. cbv zeta in H.
  rewrite He in H. exact H.
Qed.


(** X5: a process without one of its three settings fails every call that
    is not answered from the cache with "Gmail configuration missing",
    before it reads the credential store or opens a session. *)
Theorem missing_configuration_fails_at_once :
  forall toolName args userId options w,
    cached_result (default true (useCache options)) toolName args userId w = None ->
    config_present (env w) = false ->
    executeGmailToolEnhanced toolName args userId options w
    = (Throw (mkError "Gmail configuration missing"), w, []).
Proof.
  intros toolName args userId options w Hmiss Hcfg.
  rewrite executeGmailToolEnhanced_run. cbv zeta. rewrite Hmiss, Hcfg. reflexivity.
Qed.

(** ** The query builder *)

Lemma append_assoc (a b c : string) : ((a ++ b) ++ c = a ++ (b ++ c))%string.
Proof. induction a as [|x a IH]; simpl; [reflexivity|]. rewrite IH. reflexivity. Qed.

(** C9: the query is the space-joined list of the fields that are present
    (a text field that is a non-empty string, a flag that is [true]), each
    behind its operator, in the order free text, [after:], [before:],
    [from:], [has:attachment], [is:unread]; and the example of the
    specification gives exactly
    "invoice after:2024-01-01 from:a@b.com has:attachment is:unread". *)
Theorem buildGmailQuery_joins_present_fields_in_order :
  (forall params, buildGmailQuery params = join " " (omit_absent (query_fields params)))
  /\ buildGmailQuery invoice_params
     = "invoice after:2024-01-01 from:a@b.com has:attachment is:unread"
  /\ (forall text after before from,
        text <> "" -> after <> "" -> before <> "" -> from <> "" ->
        buildGmailQuery
          (mkQueryParams (Some text) (Some (mkDateRange (Some after) (Some before)))
             (Some from) (Some true) (Some true))
        = text ++ " after:" ++ after ++ " before:" ++ before ++ " from:" ++ from
               ++ " has:attachment is:unread").
Proof.
  split; [|split].
  - intros params. unfold buildGmailQuery, query_fields, text_field, flag_field, push.
    destruct (truthy_string (naturalQuery params));
      destruct (truthy_string (dateRange_start params));
      destruct (truthy_string (dateRange_end params));
      destruct (truthy_string (sender params));
      destruct (truthy_flag (hasAttachment params));
      destruct (truthy_flag (isUnread params)); reflexivity.
  - reflexivity.
  - intros text after before from Ht Ha Hb Hf.
    destruct text as [|c1 text]; [congruence|].
    destruct after as [|c2 after]; [congruence|].
    destruct before as [|c3 before]; [congruence|].
    destruct from as [|c4 from]; [congruence|].
    unfold buildGmailQuery, push, join.
    cbn [truthy_string truthy_flag default naturalQuery dateRange_start dateRange_end
         dateRange start end_ sender hasAttachment isUnread app String.concat].
    rewrite !append_assoc. reflexivity.
Qed.

(** ** The list normalizer *)

Lemma formatEmailResults_unparseable format_email emailData :
  JsonParse.parse emailData = None ->
  formatEmailResults format_email emailData = emailData.
Proof.
  intros Hparse. unfold formatEmailResults, formatEmailResults_try, JSON_parse.
  rewrite Hparse. reflexivity.
Qed.

Lemma formatEmailResults_no_list format_email emailData parsed :
  JsonParse.parse emailData = Some parsed ->
  Array_isArray (get "messages" parsed) = false ->
  formatEmailResults format_email emailData = emailData.
Proof.
  intros Hparse Hlist. unfold formatEmailResults, formatEmailResults_try, JSON_parse.
  rewrite Hparse. cbn [and_then]. rewrite Hlist. cbn [negb]. rewrite orb_true_r.
  reflexivity.
Qed.

Lemma formatEmailResults_empty_list format_email emailData parsed :
  JsonParse.parse emailData = Some parsed ->
  get "messages" parsed = Some (JArr []) ->
  formatEmailResults format_email emailData = no_emails_found.
Proof.
  intros Hparse Hlist. unfold formatEmailResults, formatEmailResults_try, JSON_parse.
  rewrite Hparse. cbn [and_then]. rewrite Hlist.
  destruct parsed; try discriminate. reflexivity.
Qed.

(** C8: the list normalizer returns its input unchanged when the input is
    not JSON, and when it is JSON without a [messages] array; it returns the
    sentence "No emails found matching your search criteria." when the
    [messages] array is empty; and it throws in no case: whenever the body of
    its [try] throws, on any input and whatever the rendering of an item
    does, the result is the input. *)
Theorem formatEmailResults_is_total_and_fails_open :
  forall (format_email : json -> nat -> Outcome string) (emailData : string),
    (JsonParse.parse emailData = None ->
     formatEmailResults format_email emailData = emailData)
    /\ (forall parsed,
          JsonParse.parse emailData = Some parsed ->
          Array_isArray (get "messages" parsed) = false ->
          formatEmailResults format_email emailData = emailData)
    /\ (forall parsed,
          JsonParse.parse emailData = Some parsed ->
          get "messages" parsed = Some (JArr []) ->
          formatEmailResults format_email emailData
          = "No emails found matching your search criteria.")
    /\ (forall error,
          formatEmailResults_try format_email emailData = Throw error ->
          formatEmailResults format_email emailData = emailData)
    /\ (forall formatted,
          formatEmailResults_try format_email emailData = Return formatted ->
          formatEmailResults format_email emailData = formatted).
Proof.
  intros format_email emailData. repeat split.
  - apply formatEmailResults_unparseable.
  - apply formatEmailResults_no_list.
  - apply formatEmailResults_empty_list.
  - intros error H. unfold formatEmailResults. rewrite H. reflexivity.
  - intros formatted H. unfold formatEmailResults. rewrite H. reflexivity.
Qed.

(** The normalizer on sample payloads: text that is not JSON, an error
    object, a [null], a list under another name, and an empty list. *)
Example formatEmailResults_samples :
  forall format_email,
    formatEmailResults format_email "Error: quota exceeded" = "Error: quota exceeded"
    /\ formatEmailResults format_email ("{" ++ dquote ++ "error" ++ dquote ++ ":404}")
       = "{" ++ dquote ++ "error" ++ dquote ++ ":404}"
    /\ formatEmailResults format_email "null" = "null"
    /\ formatEmailResults format_email ("{" ++ dquote ++ "items" ++ dquote ++ ":[]}")
       = "{" ++ dquote ++ "items" ++ dquote ++ ":[]}"
    /\ formatEmailResults format_email ("{" ++ dquote ++ "messages" ++ dquote ++ ": [ ]}")
       = "No emails found matching your search criteria.".
Proof. intros format_email. repeat split. Qed.

(** ** The executor on sample worlds *)

Import Sample.

(** The tool names of the sending and creating tools are not search tools;
    the two names the cache accepts are. *)
Example tool_names :
  map is_search_tool ["send_message"; "create_draft"; "create_label"; "get_message";
                      "list_labels"; "delete_message"; "list_messages"; "search_emails"]
  = [false; false; false; false; false; false; true; true].
Proof. reflexivity. Qed.

(** C1, where the claim as stated fails: alice searches with the cache
    enabled while the remote is down for three sessions, and repeats the same
    search 3150 ms later.  The first call opens three sessions and throws;
    nothing is stored, and the second call opens a fourth.  With the remote
    down for one session only, the first call alone opens two sessions before
    the second call is answered from the cache. *)
Lemma failed_search_is_retried_and_not_cached :
  let call := executeGmailToolEnhanced "list_messages" args0 "alice" search_options in
  let first := call (world0 (first_then 3 session_down session_ok)) in
  let second := call (world_of first) in
  let first' := call (world0 (first_then 1 session_down session_ok)) in
  let second' := call (world_of first') in
  (outcome_of first = Throw boom
   /\ now (world_of first) - now (world0 (first_then 3 session_down session_ok)) = 3150
   /\ 3150 < CACHE_TTL
   /\ searchCache (world_of first) = []
   /\ connects (trace_of first ++ trace_of second) = [0; 1; 2; 3]%nat
   /\ (1 < length (connects (trace_of first ++ trace_of second)))%nat
   /\ trace_of second <> []
   /\ outcome_of second = Return (Some (JStr "done")))
  /\ (outcome_of first' = Return (Some (JStr "done"))
      /\ connects (trace_of first' ++ trace_of second') = [0; 1]%nat
      /\ (1 < length (connects (trace_of first' ++ trace_of second')))%nat
      /\ trace_of second' = []).
Proof. vm_compute. repeat split; try lia; discriminate. Qed.

(** The same search twice on a working remote: the second is served from
    the entry the first stored. *)
Lemma second_search_call_witness :
  let call := executeGmailToolEnhanced "list_messages" args0 "alice" search_options in
  let w := world0 (fun _ => session_ok) in
  exists entry,
    JsMap.get (cacheKey "alice" "list_messages" args0) (searchCache (world_of (call w)))
    = Some entry
    /\ result entry = Some (JStr "done")
    /\ (trace_of (call w) <> [] -> timestamp entry = now (world_of (call w)))
    /\ (trace_of (call w) <> [] ->
        (forall k, 0 <= connect_ms (remote w k) /\ 0 <= callTool_ms (remote w k)) ->
        now w <= timestamp entry)
    /\ forall w2,
         searchCache w2 = searchCache (world_of (call w)) ->
         now w2 - timestamp entry < CACHE_TTL ->
         call w2 = (Return (Some (JStr "done")), w2, []).
Proof.
  cbv zeta.
  refine (second_search_call_is_served_from_cache "list_messages" args0 "alice"
            search_options search_options (world0 (fun _ => session_ok))
            (Some (JStr "done")) _ _ eq_refl eq_refl eq_refl _ _).
  - apply Nat.le_0_l.
  - vm_compute. reflexivity.
Defined.

(** [send_message] twice with [useCache] enabled: the cache stays empty and
    the second call opens the second session of the process. *)
Lemma mutating_tools_witness :
  let call := executeGmailToolEnhanced "send_message" mail0 "alice" (mkOptions (Some true) None None) in
  let w := world0 (fun _ => session_ok) in
  searchCache (world_of (call w)) = searchCache w
  /\ hd_error (connects (trace_of (call (world_of (call w))))) = Some 1%nat.
Proof.
  cbv zeta.
  destruct (mutating_tools_never_touch_the_cache "send_message" mail0 "alice"
              (mkOptions (Some true) None None) (world0 (fun _ => session_ok)) eq_refl)
    as (Hcache & _ & _ & Hsecond).
  split; [exact Hcache|].
  apply Hsecond; [reflexivity|reflexivity|discriminate].
Defined.

(** A remote that is down, and a remote that is down for two sessions. *)
Lemma retries_two_witness :
  let call := executeGmailToolEnhanced "list_messages" args0 "alice" (mkOptions None (Some 2) None) in
  let down := call (world0 (fun _ => session_down)) in
  let recovers := call (world0 (first_then 2 session_down session_ok)) in
  (outcome_of down = Throw boom
   /\ connects (trace_of down) = [0; 1; 2]%nat
   /\ sleeps (trace_of down) = [1000; 2000])
  /\ (outcome_of recovers = Return (Some (JStr "done"))
      /\ connects (trace_of recovers) = [0; 1; 2]%nat
      /\ sleeps (trace_of recovers) = [1000; 2000]).
Proof.
  cbv zeta. split.
  - destruct (retries_two_gives_three_attempts_with_doubling_backoff
                "list_messages" args0 "alice" (mkOptions None (Some 2) None)
                (world0 (fun _ => session_down)) eq_refl
                (conj eq_refl (conj eq_refl eq_refl))) as [Hdown _].
    destruct (Hdown boom boom boom eq_refl eq_refl eq_refl) as (Ho & Hc & _ & Hs).
    repeat split; assumption.
  - destruct (retries_two_gives_three_attempts_with_doubling_backoff
                "list_messages" args0 "alice" (mkOptions None (Some 2) None)
                (world0 (first_then 2 session_down session_ok)) eq_refl
                (conj eq_refl (conj eq_refl eq_refl))) as [_ Hup].
    destruct (Hup boom boom reply0 eq_refl eq_refl eq_refl) as (Ho & Hc & _ & Hs).
    repeat split; assumption.
Defined.

(** C4, where the claim as stated fails: alice's search was cached one
    minute ago and her credential has been deleted since; the same search
    returns the cached text and throws nothing. *)
Lemma cached_search_is_served_without_credential :
  gmailTokens world_cached_and_disconnected "alice" = None
  /\ executeGmailToolEnhanced "list_messages" args0 "alice" search_options
       world_cached_and_disconnected
     = (Return (Some (JStr "cached text")), world_cached_and_disconnected, []).
Proof. split; reflexivity. Qed.

(** Bob never connected his account. *)
Lemma no_credential_witness :
  let run := executeGmailToolEnhanced "list_messages" args0 "bob" search_options
               (world0 (fun _ => session_ok)) in
  connects (trace_of run) = []
  /\ run = (Throw (mkError "Gmail not connected. Please connect your Gmail account first."),
            world0 (fun _ => session_ok), [EvGetToken "bob"]).
Proof.
  cbv zeta.
  destruct (no_credential_fails_before_any_session "list_messages" args0 "bob"
              search_options (world0 (fun _ => session_ok)) eq_refl)
    as (Hc & _ & _ & Hthrow & _).
  split; [exact Hc|]. apply Hthrow; reflexivity.
Defined.

(** C5, the failing input: [sendMessage] on a remote whose sessions work
    until [close], which rejects.  The first attempt sends the message and
    calls [close] twice on its one session; the rejection of [close] counts
    as a failure of the attempt, so the message is sent a second time and the
    call throws the error of [close]. *)
Theorem close_is_called_twice_when_close_rejects :
  let run := sendMessage "alice" mail0 (world0 (fun _ => session_close_throws)) in
  trace_of run
  = [EvGetToken "alice";
     EvConnect 0 (serverUrl_of (world0 (fun _ => session_close_throws)) "alice");
     EvCallTool 0 "send_message" mail0; EvClose 0; EvClose 0;
     EvSleep 1000;
     EvConnect 1 (serverUrl_of (world0 (fun _ => session_close_throws)) "alice");
     EvCallTool 1 "send_message" mail0; EvClose 1; EvClose 1]
  /\ opens_of 0 (trace_of run) = 1%nat
  /\ closes_of 0 (trace_of run) = 2%nat
  /\ outcome_of run = Throw (mkError "close failed").
Proof. vm_compute. repeat split. Qed.

(** C6, where the claim as stated fails: the reply holds an image item and
    then a text item with payload "hello".  The first text-typed item of the
    list has payload "hello"; the call returns the JSON dump of the list. *)
Lemma text_item_behind_an_image_is_not_extracted :
  let items := [image_item; text_item "hello"] in
  let run := executeGmailToolEnhanced "get_message" args0 "alice" (mkOptions None None None)
               (world0 (fun _ => session_image_then_text)) in
  content reply_image_then_text = Some (JArr items)
  /\ first_text_typed_else_dump items = Some (JStr "hello")
  /\ outcome_of run = Return (Some (JStr (stringify2 (JArr items))))
  /\ outcome_of run <> Return (first_text_typed_else_dump items).
Proof.
  cbv zeta. split; [reflexivity|]. split; [reflexivity|]. split.
  - vm_compute. reflexivity.
  - vm_compute. discriminate.
Qed.

(** A reply with one text item, on the second attempt. *)
Lemma result_text_witness :
  outcome_of (executeGmailToolEnhanced "list_messages" args0 "alice" search_options
                (world0 (first_then 1 session_down session_ok)))
  = Return (Some (JStr "done")).
Proof.
  destruct (result_text_is_first_item_text_else_dump "list_messages" args0 "alice"
              search_options (world0 (first_then 1 session_down session_ok))
              1 reply0 [text_item "done"]) as [Hout _].
  - repeat split.
  - discriminate.
  - intros [|i] Hi; [exists boom; reflexivity|lia].
  - reflexivity.
  - reflexivity.
  - exact Hout.
Defined.

(** [sendMessage] on a remote that accepts the first call and never answers
    it. *)
Lemma legacy_wrapper_witness :
  let run := sendMessage "alice" mail0 (world0 (first_then 1 session_hangs session_ok)) in
  outcome_of run = Return (Some (JStr "done"))
  /\ tool_calls "send_message" (trace_of run) = 2%nat
  /\ sleeps (trace_of run) = [1000].
Proof.
  cbv zeta.
  destruct (legacy_wrapper_invokes_a_mutating_tool_twice "send_message" mail0 "alice"
              (world0 (first_then 1 session_hangs session_ok)) reply0
              eq_refl eq_refl eq_refl eq_refl eq_refl)
    as (_ & _ & _ & _ & Ho & Hn & _ & Hs).
  repeat split; assumption.
Defined.

(** ** The further properties on sample worlds *)

Import Sample2.

(** Two sessions that hang and a third that works. *)
Lemma sessions_closed_once_witness :
  let run := executeGmailToolEnhanced "list_messages" args0 "alice" search_options
               (world0 (first_then 2 session_hangs session_ok)) in
  closes_of 1 (trace_of run) = opens_of 1 (trace_of run).
Proof.
  cbv zeta.
  apply (sessions_are_closed_once_when_close_resolves "list_messages" args0 "alice"
           search_options (world0 (first_then 2 session_hangs session_ok))).
  intros k. unfold world0, first_then. cbn [remote]. destruct (Nat.ltb k 2); reflexivity.
Defined.

(** A search that is stored into a cache that was full. *)
Lemma cache_capacity_witness :
  cache_ok (searchCache (world_of (executeGmailToolEnhanced "list_messages" args0 "alice"
                                     search_options (world_full (fun _ => session_ok))))).
Proof.
  apply (cache_stays_within_its_capacity "list_messages" args0 "alice" search_options
           (world_full (fun _ => session_ok))).
  split.
  - vm_compute. reflexivity.
  - unfold world_full, full_cache. cbn [searchCache].
    apply Forall_forall. intros [k v] Hin. apply in_map_iff in Hin.
    destruct Hin as (n & Heq & _). injection Heq as <- _. discriminate.
Defined.

(** A search on a remote that is down. *)
Lemma failed_call_witness :
  searchCache (world_of (executeGmailToolEnhanced "list_messages" args0 "alice" search_options
                           (world_full (fun _ => session_down))))
  = full_cache.
Proof.
  apply (failed_call_stores_nothing "list_messages" args0 "alice" search_options
           (world_full (fun _ => session_down)) boom).
  vm_compute. reflexivity.
Defined.


(** A process without its Smithery key. *)
Lemma missing_configuration_witness :
  executeGmailToolEnhanced "send_message" mail0 "alice" (mkOptions None None None)
    world_unconfigured
  = (Throw (mkError "Gmail configuration missing"), world_unconfigured, []).
Proof.
  apply (missing_configuration_fails_at_once "send_message" mail0 "alice"
           (mkOptions None None None) world_unconfigured); reflexivity.
Defined.

(** ** Retries and backoff, for every retry budget *)







(** ** Sessions are not reused *)

Lemma tool_calls_attempt name toolName args url k s :
  tool_calls name (attempt_events toolName args url k s)
  = match on_connect s with
    | Resolves _ => if String.eqb toolName name then 1%nat else 0%nat
    | _ => 0%nat
    end.
Proof.
  unfold attempt_events.
  destruct (on_connect s); [destruct (on_callTool s); [destruct (on_close s)|..]|..];
    cbn [tool_calls]; try reflexivity; destruct (String.eqb toolName name); reflexivity.
Qed.

(** The loop opens the sessions [sessions w], [sessions w + 1], ... one per
    attempt, and invokes the remote procedure at most once on each. *)
Lemma retry_loop_sessions toolName args userId uc tmo r url n :
  forall attempt last w o w' tr,
    retry_loop n attempt last toolName r
      (attempt_body toolName args userId uc tmo url) w = (o, w', tr) ->
    exists k,
      (k <= n)%nat
      /\ connects tr = seq (sessions w) k
      /\ sessions w' = (sessions w + k)%nat
      /\ (tool_calls toolName tr <= k)%nat
      /\ (forall other, other <> toolName -> tool_calls other tr = 0%nat)
      /\ match o with Throw _ => k = n | Return _ => (0 < k)%nat end.
Proof.
  induction n as [|n IH]; intros attempt last w o w' tr.
  - rewrite retry_loop_O. intros H; triple H. exists 0%nat.
    repeat split; try reflexivity; lia.
  - rewrite retry_loop_S. cbv zeta.
    assert (Hone : (tool_calls toolName
                      (attempt_events toolName args url (sessions w) (remote w (sessions w)))
                    <= 1)%nat).
    { rewrite tool_calls_attempt. rewrite String.eqb_refl.
      destruct (on_connect _); lia. }
    assert (Hother : forall other, other <> toolName ->
              tool_calls other
                (attempt_events toolName args url (sessions w) (remote w (sessions w)))
              = 0%nat).
    { intros other Hne. rewrite tool_calls_attempt.
      replace (String.eqb toolName other) with false
        by (symmetry; apply String.eqb_neq; congruence).
      destruct (on_connect _); reflexivity. }
    destruct (attempt_result toolName tmo _) as [x|e].
    + intros H; triple H. exists 1%nat. rewrite connects_attempt.
      split; [lia|]. split; [reflexivity|]. split; [cbn [sessions after_attempt with_sessions]; lia|].
      split; [exact Hone|]. split; [exact Hother|lia].
    + destruct (attempt <? r);
        destruct (retry_loop n _ _ _ _ _ _) as [[o2 w2] t2] eqn:Hrec;
        intros H; triple H; apply IH in Hrec;
        destruct Hrec as (k & Hk & Hc & Hs & Ht & Ho & Hend);
        exists (S k);
        rewrite connects_app, connects_attempt, tool_calls_app;
        cbn [connects tool_calls app];
        change (sessions (with_now _ ?w0)) with (sessions w0) in *;
        change (sessions (after_attempt toolName args userId uc tmo w))
          with (S (sessions w)) in *;
        (split; [lia|]);
        (split; [cbn [seq]; rewrite Hc; reflexivity|]);
        (split; [lia|]);
        (split; [lia|]);
        (split; [intros other Hne; rewrite tool_calls_app, (Hother other Hne);
                 cbn [tool_calls]; rewrite (Ho other Hne); reflexivity
                |destruct o2; lia]).
Qed.

(** The sessions of a call. *)
Lemma executor_sessions :
  forall toolName args userId options w,
    let run := executeGmailToolEnhanced toolName args userId options w in
    exists k,
      (k <= Z.to_nat (default 2 (retries options) + 1)%Z)%nat
      /\ connects (trace_of run) = seq (sessions w) k
      /\ sessions (world_of run) = (sessions w + k)%nat
      /\ (tool_calls toolName (trace_of run) <= k)%nat
      /\ (forall other, other <> toolName -> tool_calls other (trace_of run) = 0%nat).
Proof.
  intros toolName args userId options w. cbv zeta.
  rewrite executeGmailToolEnhanced_run. cbv zeta.
  assert (Hnone : forall (o : Outcome jsval) tr,
            connects tr = [] -> (forall name, tool_calls name tr = 0%nat) ->
            exists k,
              (k <= Z.to_nat (default 2 (retries options) + 1)%Z)%nat
              /\ connects (trace_of (o, w, tr)) = seq (sessions w) k
              /\ sessions (world_of (o, w, tr)) = (sessions w + k)%nat
              /\ (tool_calls toolName (trace_of (o, w, tr)) <= k)%nat
              /\ (forall other, other <> toolName ->
                    tool_calls other (trace_of (o, w, tr)) = 0%nat)).
  { intros o tr Hc Ht. exists 0%nat. unfold trace_of, world_of. cbn [fst snd seq].
    rewrite Hc, Ht. repeat split; try lia. intros other _. apply Ht. }
  destruct (cached_result _ _ _ _ w); [apply Hnone; reflexivity|].
  destruct (negb (config_present (env w))); [apply Hnone; reflexivity|].
  destruct (negb (truthy_string (gmailTokens w userId))); [apply Hnone; reflexivity|].
  destruct (retry_loop _ _ _ _ _ _ _) as [[o w'] tr] eqn:Hrun.
  apply retry_loop_sessions in Hrun. destruct Hrun as (k & Hk & Hc & Hs & Ht & Ho & _).
  exists k. unfold trace_of, world_of. cbn [fst snd connects tool_calls].
  repeat split; assumption.
Qed.

(** X8: sessions are never pooled or reused.  Every call opens the sessions
    of its attempts with the next free numbers of the process, one fresh
    session per attempt and at most [retries + 1] of them, invokes the remote
    procedure it was called for at most once on each, and invokes no other
    remote procedure. *)
Theorem every_attempt_opens_a_fresh_session :
  forall toolName args userId options w,
    let run := executeGmailToolEnhanced toolName args userId options w in
    exists k,
      (k <= Z.to_nat (default 2 (retries options) + 1)%Z)%nat
      /\ connects (trace_of run) = seq (sessions w) k
      /\ sessions (world_of run) = (sessions w + k)%nat
      /\ (tool_calls toolName (trace_of run) <= k)%nat
      /\ (forall other, other <> toolName -> tool_calls other (trace_of run) = 0%nat).
Proof. exact executor_sessions. Qed.

(** ** A remote that does not answer *)





(** ** What the cache holds does not influence a remote call *)

Lemma after_attempt_on_cache toolName args userId uc tmo c w :
  after_attempt toolName args userId uc tmo (with_cache c w)
  = with_cache (attempt_cache toolName args userId uc tmo (remote w (sessions w)) (now w) c)
      (after_attempt toolName args userId uc tmo w).
Proof. destruct w as [cache t0 en tok rem n]. reflexivity. Qed.

(** The loop on another cache: the same outcome, events, clock and sessions. *)
Lemma retry_loop_cache_blind toolName args userId uc tmo r url n :
  forall attempt last w c,
    exists c',
      retry_loop n attempt last toolName r
        (attempt_body toolName args userId uc tmo url) (with_cache c w)
      = match retry_loop n attempt last toolName r
                (attempt_body toolName args userId uc tmo url) w with
        | (o, w', tr) => (o, with_cache c' w', tr)
        end.
Proof.
  induction n as [|n IH]; intros attempt last w c.
  - rewrite !retry_loop_O. eexists. reflexivity.
  - rewrite !retry_loop_S. cbv zeta.
    change (sessions (with_cache c w)) with (sessions w).
    change (remote (with_cache c w)) with (remote w).
    rewrite after_attempt_on_cache.
    set (c1 := attempt_cache toolName args userId uc tmo (remote w (sessions w)) (now w) c).
    destruct (attempt_result toolName tmo _) as [x|e].
    + exists c1. reflexivity.
    + assert (Hstep : forall w1,
                exists c',
                  retry_loop n (attempt + 1) (Some e) toolName r
                    (attempt_body toolName args userId uc tmo url) (with_cache c1 w1)
                  = match retry_loop n (attempt + 1) (Some e) toolName r
                            (attempt_body toolName args userId uc tmo url) w1 with
                    | (o, w', tr) => (o, with_cache c' w', tr)
                    end) by (intros w1; apply IH).
      destruct (attempt <? r).
      * destruct (Hstep (with_now (now (after_attempt toolName args userId uc tmo w)
                                   + 2 ^ attempt * 1000)
                           (after_attempt toolName args userId uc tmo w))) as [c' Hc'].
        exists c'.
        change (with_now (now (with_cache c1 (after_attempt toolName args userId uc tmo w))
                          + 2 ^ attempt * 1000)
                  (with_cache c1 (after_attempt toolName args userId uc tmo w)))
          with (with_cache c1
                  (with_now (now (after_attempt toolName args userId uc tmo w)
                             + 2 ^ attempt * 1000)
                     (after_attempt toolName args userId uc tmo w))).
        rewrite Hc'.
        destruct (retry_loop n (attempt + 1) (Some e) toolName r
                    (attempt_body toolName args userId uc tmo url)
                    (with_now (now (after_attempt toolName args userId uc tmo w)
                               + 2 ^ attempt * 1000)
                       (after_attempt toolName args userId uc tmo w))) as [[o2 w2] t2].
        reflexivity.
      * destruct (Hstep (after_attempt toolName args userId uc tmo w)) as [c' Hc'].
        exists c'. rewrite Hc'.
        destruct (retry_loop n (attempt + 1) (Some e) toolName r
                    (attempt_body toolName args userId uc tmo url)
                    (after_attempt toolName args userId uc tmo w)) as [[o2 w2] t2].
        reflexivity.
Qed.

(** Two calls that are both not answered from the cache differ in nothing
    but the cache they leave. *)
Lemma executor_cache_blind toolName args userId options w c :
  cached_result (default true (useCache options)) toolName args userId w = None ->
  cached_result (default true (useCache options)) toolName args userId (with_cache c w) = None ->
  exists c',
    executeGmailToolEnhanced toolName args userId options (with_cache c w)
    = (outcome_of (executeGmailToolEnhanced toolName args userId options w),
       with_cache c' (world_of (executeGmailToolEnhanced toolName args userId options w)),
       trace_of (executeGmailToolEnhanced toolName args userId options w)).
Proof.
  intros Hmiss Hmiss'.
  rewrite !executeGmailToolEnhanced_run. cbv zeta. rewrite Hmiss, Hmiss'.
  change (env (with_cache c w)) with (env w).
  change (gmailTokens (with_cache c w)) with (gmailTokens w).
  change (serverUrl_of (with_cache c w) userId) with (serverUrl_of w userId).
  destruct (negb (config_present (env w))); [exists c; reflexivity|].
  destruct (negb (truthy_string (gmailTokens w userId))); [exists c; reflexivity|].
  destruct (retry_loop_cache_blind toolName args userId (default true (useCache options))
              (default 45000 (timeout options)) (default 2 (retries options))
              (serverUrl_of w userId) (Z.to_nat (default 2 (retries options) + 1))
              0 None w c) as [c' Hc'].
  rewrite Hc'. destruct (retry_loop _ _ _ _ _ _ w) as [[o w'] tr].
  exists c'. reflexivity.
Qed.

(** A search call that is not answered from the cache and returns has
    stored what it returns. *)
Lemma executor_stores toolName args userId options w x w' tr :
  is_search_tool toolName = true ->
  default true (useCache options) = true ->
  cached_result true toolName args userId w = None ->
  executeGmailToolEnhanced toolName args userId options w = (Return x, w', tr) ->
  searchCache w'
  = stored (cacheKey userId toolName args) (mkCacheEntry x (now w')) (searchCache w).
Proof.
  intros Hs Hu Hmiss. rewrite executeGmailToolEnhanced_run. cbv zeta. rewrite Hu, Hmiss.
  destruct (negb (config_present (env w)));
    [intros H; apply triple_inv in H; destruct H as [H _]; discriminate|].
  destruct (negb (truthy_string (gmailTokens w userId)));
    [intros H; apply triple_inv in H; destruct H as [H _]; discriminate|].
  destruct (retry_loop _ _ _ _ _ _ w) as [[o w2] t2] eqn:Hloop.
  intros H. apply triple_inv in H. destruct H as (-> & -> & _).
  apply retry_loop_cache in Hloop. rewrite Hs in Hloop. exact Hloop.
Qed.

Lemma expired_entry_misses uc toolName args userId w entry :
  JsMap.get (cacheKey userId toolName args) (searchCache w) = Some entry ->
  CACHE_TTL <= now w - timestamp entry ->
  cached_result uc toolName args userId w = None.
Proof.
  intros Hget Hold. unfold cached_result. rewrite Hget.
  replace (now w - timestamp entry <? CACHE_TTL) with false
    by (symmetry; apply Z.ltb_ge; exact Hold).
  destruct (uc && is_search_tool toolName); reflexivity.
Qed.

Lemma empty_cache_misses uc toolName args userId w :
  cached_result uc toolName args userId (with_cache [] w) = None.
Proof.
  unfold cached_result. destruct (uc && is_search_tool toolName); reflexivity.
Qed.

(** [set] on a key that is present replaces its value where it stands. *)
Lemma set_in_place key old entry before after :
  JsMap.get key before = None ->
  JsMap.set key entry (before ++ (key, old) :: after)%list
  = (before ++ (key, entry) :: after)%list.
Proof.
  induction before as [|[k v] before IH]; cbn [app JsMap.set JsMap.get].
  - intros _. rewrite String.eqb_refl. reflexivity.
  - destruct (String.eqb k key); [discriminate|]. intros H. rewrite IH by exact H.
    reflexivity.
Qed.

Lemma get_in_place key entry before after :
  JsMap.get key before = None ->
  JsMap.get key (before ++ (key, entry) :: after)%list = Some entry.
Proof.
  induction before as [|[k v] before IH]; cbn [app JsMap.get].
  - intros _. rewrite String.eqb_refl. reflexivity.
  - destruct (String.eqb k key); [discriminate|]. exact IH.
Qed.

(** Refreshing a key of a cache within its capacity evicts nothing. *)
Lemma stored_in_place key old entry before after :
  JsMap.get key before = None ->
  (length (before ++ (key, old) :: after) <= 100)%nat ->
  stored key entry (before ++ (key, old) :: after)%list
  = (before ++ (key, entry) :: after)%list.
Proof.
  intros Hget Hlen. unfold stored. rewrite set_in_place by exact Hget.
  replace (JsMap.size (before ++ (key, entry) :: after)%list >? 100) with false;
    [reflexivity|].
  symmetry. rewrite Z.gtb_ltb. apply Z.ltb_ge. unfold JsMap.size.
  rewrite length_app in *. cbn [length] in *. lia.
Qed.

(** X10: an expired entry counts as absent.  A call that finds its entry
    [CACHE_TTL] (300000 ms) old or older is not answered from the cache: its
    outcome, its events, the clock and the sessions it uses are those of the
    same call on an empty cache.  When it returns (a search call with the
    cache enabled, the cache within its capacity), the new result replaces
    the old entry where it stands in the insertion order, stamped with the
    time of the return; no other entry moves or is evicted. *)
Theorem expired_entry_counts_as_absent :
  forall toolName args userId options w old before after,
    searchCache w = (before ++ (cacheKey userId toolName args, old) :: after)%list ->
    JsMap.get (cacheKey userId toolName args) before = None ->
    CACHE_TTL <= now w - timestamp old ->
    let run := executeGmailToolEnhanced toolName args userId options w in
    let fresh := executeGmailToolEnhanced toolName args userId options (with_cache [] w) in
    outcome_of run = outcome_of fresh
    /\ trace_of run = trace_of fresh
    /\ now (world_of run) = now (world_of fresh)
    /\ sessions (world_of run) = sessions (world_of fresh)
    /\ (forall x,
          outcome_of run = Return x ->
          default true (useCache options) && is_search_tool toolName = true ->
          (length (searchCache w) <= 100)%nat ->
          searchCache (world_of run)
          = (before ++ (cacheKey userId toolName args,
                        mkCacheEntry x (now (world_of run))) :: after)%list).
Proof.
  intros toolName args userId options w old before after Hcache Hbefore Hold. cbv zeta.
  assert (Hget : JsMap.get (cacheKey userId toolName args) (searchCache w) = Some old)
    by (rewrite Hcache; apply get_in_place; exact Hbefore).
  pose proof (expired_entry_misses (default true (useCache options)) _ _ _ _ _ Hget Hold)
    as Hmiss.
  destruct (executor_cache_blind toolName args userId options w [] Hmiss
              (empty_cache_misses _ _ _ _ _)) as [c' Hfresh].
  rewrite Hfresh. unfold outcome_of, world_of, trace_of. cbn [fst snd].
  do 4 (split; [reflexivity|]).
  intros x Hx Hon Hlen.
  apply andb_prop in Hon. destruct Hon as [Hu Hs].
  destruct (executeGmailToolEnhanced toolName args userId options w) as [[o w'] tr] eqn:Hrun.
  cbn [fst snd] in *. subst o.
  rewrite Hu in Hmiss.
  rewrite (executor_stores _ _ _ _ _ _ _ _ Hs Hu Hmiss Hrun), Hcache.
  apply stored_in_place; [exact Hbefore|]. rewrite <- Hcache. exact Hlen.
Qed.

(** X11: eviction goes by first insertion, not by last refresh.  When the
    oldest entry of a full cache has expired and a search call refreshes it,
    the fresh result takes the old entry's place at the head of the eviction
    order; the next search call that stores a result under a new key then
    evicts the result that was refreshed just before, and the call after that
    finds no entry for it. *)
Theorem refreshed_entry_is_evicted_first :
  forall toolName args userId options w old m x w1 tr1
         toolName2 args2 userId2 options2 x2 w2 tr2,
    is_search_tool toolName = true ->
    default true (useCache options) = true ->
    is_search_tool toolName2 = true ->
    default true (useCache options2) = true ->
    searchCache w = (cacheKey userId toolName args, old) :: m ->
    length (searchCache w) = 100%nat ->
    JsMap.get (cacheKey userId toolName args) m = None ->
    CACHE_TTL <= now w - timestamp old ->
    executeGmailToolEnhanced toolName args userId options w = (Return x, w1, tr1) ->
    cacheKey userId2 toolName2 args2 <> cacheKey userId toolName args ->
    JsMap.get (cacheKey userId2 toolName2 args2) m = None ->
    executeGmailToolEnhanced toolName2 args2 userId2 options2 w1 = (Return x2, w2, tr2) ->
    searchCache w1 = (cacheKey userId toolName args, mkCacheEntry x (now w1)) :: m
    /\ searchCache w2
       = (m ++ [(cacheKey userId2 toolName2 args2, mkCacheEntry x2 (now w2))])%list
    /\ JsMap.get (cacheKey userId toolName args) (searchCache w2) = None.
Proof.
  intros toolName args userId options w old m x w1 tr1
         toolName2 args2 userId2 options2 x2 w2 tr2
         Hs Hu Hs2 Hu2 Hcache Hlen Hfresh Hold Hrun Hne Hnew Hrun2.
  assert (Hget : JsMap.get (cacheKey userId toolName args) (searchCache w) = Some old).
  { rewrite Hcache. cbn [JsMap.get]. rewrite String.eqb_refl. reflexivity. }
  pose proof (expired_entry_misses true _ _ _ _ _ Hget Hold) as Hmiss.
  assert (Hw1 : searchCache w1 = (cacheKey userId toolName args, mkCacheEntry x (now w1)) :: m).
  { rewrite (executor_stores _ _ _ _ _ _ _ _ Hs Hu Hmiss Hrun), Hcache.
    apply (stored_in_place _ old _ [] m); [reflexivity|].
    cbn [app]. rewrite <- Hcache. lia. }
  assert (Hget2 : JsMap.get (cacheKey userId2 toolName2 args2) (searchCache w1) = None).
  { rewrite Hw1. cbn [JsMap.get].
    replace (String.eqb (cacheKey userId toolName args) (cacheKey userId2 toolName2 args2))
      with false by (symmetry; apply String.eqb_neq; congruence).
    exact Hnew. }
  assert (Hmiss2 : cached_result true toolName2 args2 userId2 w1 = None).
  { unfold cached_result. rewrite Hget2. destruct (_ && _); reflexivity. }
  assert (Hw2 : searchCache w2
                = (m ++ [(cacheKey userId2 toolName2 args2, mkCacheEntry x2 (now w2))])%list).
  { rewrite (executor_stores _ _ _ _ _ _ _ _ Hs2 Hu2 Hmiss2 Hrun2), Hw1.
    apply stored_evicts_oldest.
    - rewrite Hcache in Hlen. exact Hlen.
    - apply cacheKey_nonempty.
    - rewrite <- Hw1. exact Hget2. }
  split; [exact Hw1|]. split; [exact Hw2|].
  rewrite Hw2. clear - Hfresh Hne.
  induction m as [|[k v] m IH]; cbn [app JsMap.get] in *.
  - replace (String.eqb (cacheKey userId2 toolName2 args2) (cacheKey userId toolName args))
      with false by (symmetry; apply String.eqb_neq; exact Hne).
    reflexivity.
  - destruct (String.eqb k (cacheKey userId toolName args)); [discriminate|].
    apply IH. exact Hfresh.
Qed.

(** ** Callers do not share entries *)

Lemma colon_split u1 :
  forall u2 r1 r2,
    has_colon u1 = false -> has_colon u2 = false ->
    u1 ++ ":" ++ r1 = u2 ++ ":" ++ r2 -> u1 = u2 /\ r1 = r2.
Proof.
  induction u1 as [|c u1 IH]; intros [|d u2] r1 r2 H1 H2 Heq; cbn in *.
  - injection Heq as ->. split; reflexivity.
  - injection Heq as <- _. cbn in H2. discriminate.
  - injection Heq as -> _. cbn in H1. discriminate.
  - injection Heq as -> Heq.
    apply orb_false_elim in H1. destruct H1 as [_ H1].
    apply orb_false_elim in H2. destruct H2 as [_ H2].
    destruct (IH u2 r1 r2 H1 H2 Heq) as [-> ->]. split; reflexivity.
Qed.

Lemma cacheKey_names_its_caller u1 u2 t1 t2 a1 a2 :
  has_colon u1 = false -> has_colon u2 = false ->
  cacheKey u1 t1 a1 = cacheKey u2 t2 a2 -> u1 = u2.
Proof.
  intros H1 H2 Heq. unfold cacheKey in Heq.
  apply (colon_split u1 u2 _ _ H1 H2) in Heq. tauto.
Qed.

(** A call that is not answered from the cache and returns has read the
    caller's credential and opened a session with it. *)
Lemma miss_returns_from_the_remote toolName args userId options w x :
  cached_result (default true (useCache options)) toolName args userId w = None ->
  outcome_of (executeGmailToolEnhanced toolName args userId options w) = Return x ->
  exists rest,
    trace_of (executeGmailToolEnhanced toolName args userId options w)
    = EvGetToken userId :: EvConnect (sessions w) (serverUrl_of w userId) :: rest.
Proof.
  intros Hmiss. rewrite executeGmailToolEnhanced_run. cbv zeta. rewrite Hmiss.
  destruct (negb (config_present (env w))); [discriminate|].
  destruct (negb (truthy_string (gmailTokens w userId))); [discriminate|].
  destruct (Z.to_nat (default 2 (retries options) + 1)) as [|n]; [discriminate|].
  destruct (retry_loop_opens_first toolName args userId (default true (useCache options))
              (default 45000 (timeout options)) (default 2 (retries options))
              (serverUrl_of w userId) n 0 None w) as [rest Hrest].
  destruct (retry_loop (S n) _ _ _ _ _ _) as [[o w'] tr].
  unfold trace_of in *. cbn [snd] in *. subst tr. intros _. eexists. reflexivity.
Qed.

(** X12: cached results are private to their caller.  Callers being
    identified by strings without a colon, a call by [userId] on a cache
    whose keys were all built for other callers finds no entry, whatever tool
    and arguments those callers used: it is not answered from the cache, and
    when it returns it has read the credential of [userId] and opened a
    session with it. *)
Theorem cached_results_are_private_to_their_caller :
  forall toolName args userId options w,
    has_colon userId = false ->
    Forall (fun kv => key_of_another_caller userId (fst kv)) (searchCache w) ->
    let run := executeGmailToolEnhanced toolName args userId options w in
    JsMap.get (cacheKey userId toolName args) (searchCache w) = None
    /\ (forall x,
          outcome_of run = Return x ->
          exists rest,
            trace_of run
            = EvGetToken userId :: EvConnect (sessions w) (serverUrl_of w userId) :: rest).
Proof.
  intros toolName args userId options w Hid Hkeys. cbv zeta.
  assert (Hget : JsMap.get (cacheKey userId toolName args) (searchCache w) = None).
  { induction Hkeys as [|[k v] m Hk Hm IH]; [reflexivity|].
    cbn [JsMap.get]. destruct (String.eqb k (cacheKey userId toolName args)) eqn:E;
      [|exact IH].
    exfalso. apply String.eqb_eq in E. cbn [fst] in Hk.
    destruct Hk as (owner & t & a & Hkey & Howner & Hne).
    apply Hne. rewrite Hkey in E.
    apply (cacheKey_names_its_caller _ _ _ _ _ _ Howner Hid E). }
  split; [exact Hget|].
  intros x. apply miss_returns_from_the_remote.
  unfold cached_result. rewrite Hget. destruct (_ && _); reflexivity.
Qed.

(** ** Clearing the cache *)

(** X13: [clearGmailSearchCache] empties the cache and touches nothing
    else; the next call, whatever was cached for it before, is not answered
    from the cache: when it returns it has read the credential and opened a
    session, and its outcome and events are those of a call in a process that
    never cached anything. *)
Theorem clearing_the_cache_forces_a_fresh_call :
  forall toolName args userId options w,
    let cleared := clearGmailSearchCache w in
    let run := executeGmailToolEnhanced toolName args userId options (world_of cleared) in
    cleared = (Return tt, with_cache [] w, [])
    /\ (forall x,
          outcome_of run = Return x ->
          exists rest,
            trace_of run
            = EvGetToken userId :: EvConnect (sessions w) (serverUrl_of w userId) :: rest)
    /\ (forall entry,
          JsMap.get (cacheKey userId toolName args) (searchCache w) = Some entry ->
          default true (useCache options) && is_search_tool toolName = true ->
          now w - timestamp entry < CACHE_TTL ->
          executeGmailToolEnhanced toolName args userId options w = (Return (result entry), w, [])).
Proof.
  intros toolName args userId options w. cbv zeta.
  split; [reflexivity|]. split.
  - intros x. apply (miss_returns_from_the_remote toolName args userId options (with_cache [] w)).
    apply empty_cache_misses.
  - intros entry Hget Hon Hlive. apply andb_prop in Hon. destruct Hon as [Hu Hs].
    apply executor_serves_live_entry; assumption.
Qed.

(** ** The further properties on sample worlds, continued *)

Import Sample3.


(** Alice's entry is exactly five minutes old: the search goes to the
    remote and its result takes the entry's place. *)
Lemma expired_entry_witness :
  let run := executeGmailToolEnhanced "list_messages" args0 "alice" search_options
               (world_stale (fun _ => session_ok)) in
  connects (trace_of run) = [0%nat]
  /\ searchCache (world_of run)
     = (cacheKey "alice" "list_messages" args0,
        mkCacheEntry (Some (JStr "done")) (now (world_of run))) :: tl full_cache.
Proof.
  cbv zeta.
  destruct (expired_entry_counts_as_absent "list_messages" args0 "alice" search_options
              (world_stale (fun _ => session_ok))
              (mkCacheEntry (Some (JStr "old")) 1699999700000) [] (tl full_cache)
              eq_refl eq_refl)
    as (_ & Htr & _ & _ & Hcache).
  - vm_compute. discriminate.
  - split; [rewrite Htr; vm_compute; reflexivity|].
    apply (Hcache (Some (JStr "done"))).
    + vm_compute. reflexivity.
    + reflexivity.
    + apply Nat.leb_le. vm_compute. reflexivity.
Defined.

(** Alice refreshes her expired search, the oldest entry of a full cache,
    and then makes another search: the refreshed result is gone. *)
Lemma refreshed_entry_witness :
  let first := executeGmailToolEnhanced "list_messages" args0 "alice" search_options
                 (world_stale (fun _ => session_ok)) in
  let second := executeGmailToolEnhanced "list_messages" args1 "alice" search_options
                  (world_of first) in
  JsMap.get (cacheKey "alice" "list_messages" args0) (searchCache (world_of first))
  = Some (mkCacheEntry (Some (JStr "done")) (now (world_of first)))
  /\ JsMap.get (cacheKey "alice" "list_messages" args0) (searchCache (world_of second)) = None.
Proof.
  intros first second.
  destruct (refreshed_entry_is_evicted_first "list_messages" args0 "alice" search_options
              (world_stale (fun _ => session_ok))
              (mkCacheEntry (Some (JStr "old")) 1699999700000) (tl full_cache)
              (Some (JStr "done")) (world_of first) (trace_of first)
              "list_messages" args1 "alice" search_options (Some (JStr "done"))
              (world_of second) (trace_of second))
    as (H1 & _ & H2).
  - reflexivity.
  - reflexivity.
  - reflexivity.
  - reflexivity.
  - reflexivity.
  - vm_compute. reflexivity.
  - vm_compute. reflexivity.
  - vm_compute. discriminate.
  - vm_compute. reflexivity.
  - vm_compute. discriminate.
  - vm_compute. reflexivity.
  - vm_compute. reflexivity.
  - split; [|exact H2]. rewrite H1. cbn [JsMap.get]. rewrite String.eqb_refl. reflexivity.
Defined.

(** Bob makes the search that alice has cached. *)
Lemma private_cache_witness :
  let run := executeGmailToolEnhanced "list_messages" args0 "bob" search_options
               world_alice_cached in
  JsMap.get (cacheKey "bob" "list_messages" args0) (searchCache world_alice_cached) = None
  /\ exists rest,
       trace_of run
       = EvGetToken "bob" :: EvConnect 1 (serverUrl_of world_alice_cached "bob") :: rest.
Proof.
  cbv zeta.
  destruct (cached_results_are_private_to_their_caller "list_messages" args0 "bob"
              search_options world_alice_cached eq_refl) as [Hget Hrun].
  - constructor; [|constructor].
    exists "alice", "list_messages", args0. repeat split. discriminate.
  - split; [exact Hget|]. apply (Hrun (Some (JStr "done"))). vm_compute. reflexivity.
Defined.

(** ** Computations that ignore the cache *)

Lemma oblivious_ret {A : Type} (a : A) : cache_oblivious (ret a).
Proof. intros w c. reflexivity. Qed.

Lemma oblivious_throw {A : Type} (e : Error) : cache_oblivious (@throw A e).
Proof. intros w c. reflexivity. Qed.

Lemma oblivious_of_outcome {A : Type} (o : Outcome A) : cache_oblivious (of_outcome o).
Proof. destruct o; intros w c; reflexivity. Qed.

Lemma oblivious_Date_now : cache_oblivious Date_now.
Proof. intros w c. reflexivity. Qed.

Lemma oblivious_bind {A B : Type} (m : M A) (k : A -> M B) :
  cache_oblivious m -> (forall a, cache_oblivious (k a)) -> cache_oblivious (bind m k).
Proof.
  intros Hm Hk w c. unfold bind. rewrite Hm.
  destruct (m w) as [[[a|e] w1] t1]; [|reflexivity].
  rewrite Hk. destruct (k a w1) as [[o w2] t2]. reflexivity.
Qed.

Lemma oblivious_reify {A : Type} (m : M A) : cache_oblivious m -> cache_oblivious (reify m).
Proof.
  intros Hm w c. unfold reify. rewrite Hm. destruct (m w) as [[o w1] t1]. reflexivity.
Qed.

Lemma oblivious_try_catch {A : Type} (m : M A) (handler : Error -> M A) :
  cache_oblivious m -> (forall e, cache_oblivious (handler e)) ->
  cache_oblivious (try_catch m handler).
Proof.
  intros Hm Hh w c. unfold try_catch. rewrite Hm.
  destruct (m w) as [[[a|e] w1] t1]; [reflexivity|].
  rewrite Hh. destruct (handler e w1) as [[o w2] t2]. reflexivity.
Qed.

Lemma oblivious_cache {A : Type} (m : M A) w :
  cache_oblivious m -> searchCache (world_of (m w)) = searchCache w.
Proof.
  intros Hm. specialize (Hm w (searchCache w)).
  replace (with_cache (searchCache w) w) with w in Hm by (destruct w; reflexivity).
  destruct (m w) as [[o w'] tr]. apply triple_inv in Hm. destruct Hm as (_ & Hw & _).
  unfold world_of. cbn [fst snd]. rewrite Hw at 1. reflexivity.
Qed.

(** A call that does not use the cache, because its tool is not a search
    tool or because the cache is switched off. *)
Lemma executor_oblivious toolName args userId options :
  default true (useCache options) && is_search_tool toolName = false ->
  cache_oblivious (executeGmailToolEnhanced toolName args userId options).
Proof.
  intros Hnc w c.
  assert (Hmiss : forall w0,
            cached_result (default true (useCache options)) toolName args userId w0 = None)
    by (intros w0; unfold cached_result; rewrite Hnc; reflexivity).
  rewrite !executeGmailToolEnhanced_run. cbv zeta. rewrite !Hmiss.
  change (env (with_cache c w)) with (env w).
  change (gmailTokens (with_cache c w)) with (gmailTokens w).
  change (serverUrl_of (with_cache c w) userId) with (serverUrl_of w userId).
  destruct (negb (config_present (env w))); [reflexivity|].
  destruct (negb (truthy_string (gmailTokens w userId))); [reflexivity|].
  destruct (retry_loop _ _ _ _ _ _ w) as [[o w'] tr] eqn:Hloop.
  apply retry_loop_ignores_cache in Hloop; [|exact Hnc].
  destruct Hloop as [_ Hind]. rewrite Hind. reflexivity.
Qed.

Lemma executeGmailTool_oblivious toolName args userId :
  cache_oblivious (executeGmailTool toolName args userId).
Proof. apply executor_oblivious. reflexivity. Qed.

(** ** What one call does to its collaborators *)

Lemma executor_token_reads toolName args userId options w :
  (token_reads (trace_of (executeGmailToolEnhanced toolName args userId options w)) <= 1)%nat.
Proof.
  rewrite executeGmailToolEnhanced_run. cbv zeta.
  destruct (cached_result _ _ _ _ w); [simpl; lia|].
  destruct (negb (config_present (env w))); [simpl; lia|].
  destruct (negb (truthy_string (gmailTokens w userId))); [simpl; lia|].
  destruct (retry_loop _ _ _ _ _ _ _) as [[o w'] tr] eqn:Hrun.
  apply retry_loop_events in Hrun. destruct Hrun as [Hreads _].
  unfold trace_of. simpl. rewrite Hreads. lia.
Qed.

(** Every invocation a call makes is of its tool, with its arguments. *)
Lemma attempt_events_calls toolName args url k s j name a :
  In (EvCallTool j name a) (attempt_events toolName args url k s) ->
  name = toolName /\ a = args.
Proof.
  unfold attempt_events.
  destruct (on_connect s); [destruct (on_callTool s); [destruct (on_close s)|..]|..];
    simpl; intuition (try discriminate; try congruence).
Qed.

Lemma retry_loop_calls toolName args userId uc tmo r url n :
  forall attempt last w j name a,
    In (EvCallTool j name a)
       (trace_of (retry_loop n attempt last toolName r
                    (attempt_body toolName args userId uc tmo url) w)) ->
    name = toolName /\ a = args.
Proof.
  induction n as [|n IH]; intros attempt last w j name a.
  - rewrite retry_loop_O. intros [].
  - rewrite retry_loop_S. cbv zeta.
    destruct (attempt_result toolName tmo _) as [x|e].
    + apply attempt_events_calls.
    + destruct (attempt <? r).
      * specialize (IH (attempt + 1) (Some e)
                      (with_now (now (after_attempt toolName args userId uc tmo w)
                                 + 2 ^ attempt * 1000)
                         (after_attempt toolName args userId uc tmo w)) j name a).
        destruct (retry_loop n _ _ _ _ _ _) as [[o2 w2] t2].
        unfold trace_of in *. cbn [snd] in *.
        intros H. apply in_app_or in H. destruct H as [H|[H|H]].
        -- apply attempt_events_calls in H. exact H.
        -- discriminate.
        -- apply IH. exact H.
      * specialize (IH (attempt + 1) (Some e)
                      (after_attempt toolName args userId uc tmo w) j name a).
        destruct (retry_loop n _ _ _ _ _ _) as [[o2 w2] t2].
        unfold trace_of in *. cbn [snd] in *.
        intros H. apply in_app_or in H. destruct H as [H|H].
        -- apply attempt_events_calls in H. exact H.
        -- apply IH. exact H.
Qed.

Lemma executor_calls toolName args userId options w j name a :
  In (EvCallTool j name a)
     (trace_of (executeGmailToolEnhanced toolName args userId options w)) ->
  name = toolName /\ a = args.
Proof.
  rewrite executeGmailToolEnhanced_run. cbv zeta.
  destruct (cached_result _ _ _ _ w); [intros []|].
  destruct (negb (config_present (env w))); [intros []|].
  destruct (negb (truthy_string (gmailTokens w userId))); [intros [H|[]]; discriminate|].
  pose proof (retry_loop_calls toolName args userId (default true (useCache options))
                (default 45000 (timeout options)) (default 2 (retries options))
                (serverUrl_of w userId) (Z.to_nat (default 2 (retries options) + 1))
                0 None w j name a) as H.
  destruct (retry_loop _ _ _ _ _ _ _) as [[o w'] tr].
  unfold trace_of in *. cbn [snd] in *. intros [Hin|Hin]; [discriminate|auto].
Qed.

(** ** The listing with content *)

Lemma fetches_nothing n w : fetches_at_most n w w [].
Proof.
  unfold fetches_at_most. cbn [connects tool_calls token_reads length].
  split; [lia|]. split; [lia|]. split; [lia|]. split; [intros j name a []|].
  repeat split.
Qed.

Lemma fetches_more n m w w' tr :
  (n <= m)%nat -> fetches_at_most n w w' tr -> fetches_at_most m w w' tr.
Proof.
  unfold fetches_at_most. intros Hnm (Hc & Ht & Hr & Hcalls & Hframe).
  split; [lia|]. split; [lia|]. split; [lia|]. split; [exact Hcalls|exact Hframe].
Qed.

Lemma fetches_then n m w w1 w2 t1 t2 :
  fetches_at_most n w w1 t1 -> fetches_at_most m w1 w2 t2 ->
  fetches_at_most (n + m) w w2 (t1 ++ t2)%list.
Proof.
  unfold fetches_at_most.
  intros (Hc1 & Ht1 & Hr1 & Hcalls1 & He1 & Hg1 & Hm1)
         (Hc2 & Ht2 & Hr2 & Hcalls2 & He2 & Hg2 & Hm2).
  rewrite connects_app, length_app, tool_calls_app, token_reads_app.
  split; [lia|]. split; [lia|]. split; [lia|]. split.
  - intros j name a H. apply in_app_or in H. destruct H as [H|H]; eauto.
  - repeat split; congruence.
Qed.

(** A fetch through the legacy wrapper. *)
Lemma executeGmailTool_fetches id userId w :
  fetches_at_most 1 w
    (world_of (executeGmailTool "get_message" (get_message_args id) userId w))
    (trace_of (executeGmailTool "get_message" (get_message_args id) userId w)).
Proof.
  unfold executeGmailTool.
  destruct (executor_sessions "get_message" (get_message_args id) userId
              (mkOptions (Some false) (Some 1) None) w) as (k & Hk & Hc & _ & Ht & _).
  cbn [default retries] in Hk. change (Z.to_nat (1 + 1)) with 2%nat in Hk.
  pose proof (executor_token_reads "get_message" (get_message_args id) userId
                (mkOptions (Some false) (Some 1) None) w) as Hr.
  destruct (executor_frame "get_message" (get_message_args id) userId
              (mkOptions (Some false) (Some 1) None) w) as (He & Hg & Hm).
  unfold fetches_at_most. rewrite Hc, length_seq.
  split; [lia|]. split; [lia|]. split; [lia|]. split.
  - intros j name a H. apply executor_calls in H. destruct H as [-> ->].
    split; [reflexivity|]. exists id. reflexivity.
  - repeat split; assumption.
Qed.

Section ListingFacts.

Variable render_full : json -> json -> nat -> string * option Error.
Variable render_fallback : json -> nat -> Outcome string.

Local Abbreviation fetch_one := (fetch_email render_full render_fallback).
Local Abbreviation fetch_all := (fetch_emails render_full render_fallback).
Local Abbreviation with_content := (formatEmailResultsWithContent render_full render_fallback).

(** One iteration does to the world what its fetch does, and nothing when
    the message has no [id] to read. *)
Lemma fetch_email_effects userId email index acc w :
  exists o,
    fetch_one userId email index acc w
    = match read_property "id" email with
      | Return id =>
          (o,
           world_of (executeGmailTool "get_message" (get_message_args id) userId w),
           trace_of (executeGmailTool "get_message" (get_message_args id) userId w))
      | Throw _ => (o, w, [])
      end.
Proof.
  unfold fetch_email, bind, reify, of_outcome.
  destruct (read_property "id" email) as [id|e].
  - unfold ret at 1.
    destruct (executeGmailTool "get_message" (get_message_args id) userId w)
      as [[[data|e] w1] t1]; unfold world_of, trace_of; cbn [fst snd].
    + destruct (JSON_parse_any data) as [fullEmail|e]; unfold ret, throw; simpl.
      * destruct (render_full email fullEmail index) as [text [e|]]; simpl.
        -- destruct (render_fallback email index); simpl;
             rewrite ?app_nil_r; eexists; reflexivity.
        -- rewrite ?app_nil_r. eexists. reflexivity.
      * destruct (render_fallback email index); simpl;
          rewrite ?app_nil_r; eexists; reflexivity.
    + unfold ret, throw. simpl.
      destruct (render_fallback email index); simpl;
        rewrite ?app_nil_r; eexists; reflexivity.
  - unfold ret, throw. simpl.
    destruct (render_fallback email index); simpl; eexists; reflexivity.
Qed.

Lemma fetch_email_fetches userId email index acc w :
  fetches_at_most 1 w (world_of (fetch_one userId email index acc w))
    (trace_of (fetch_one userId email index acc w)).
Proof.
  destruct (fetch_email_effects userId email index acc w) as [o Ho]. rewrite Ho.
  destruct (read_property "id" email) as [id|e].
  - apply executeGmailTool_fetches.
  - apply fetches_nothing.
Qed.

Lemma fetch_emails_fetches userId emails :
  forall index acc w,
    fetches_at_most (length emails) w (world_of (fetch_all userId emails index acc w))
      (trace_of (fetch_all userId emails index acc w)).
Proof.
  induction emails as [|email rest IH]; intros index acc w.
  - apply fetches_nothing.
  - cbn [fetch_emails length]. unfold bind.
    pose proof (fetch_email_fetches userId email index acc w) as Hone.
    destruct (fetch_one userId email index acc w) as [[[acc1|e] w1] t1].
    + specialize (IH (S index) acc1 w1).
      destruct (fetch_all userId rest (S index) acc1 w1) as [[o2 w2] t2].
      unfold world_of, trace_of in *. cbn [fst snd] in *.
      apply (fetches_then 1 (length rest) w w1 w2 t1 t2); assumption.
    + unfold world_of, trace_of in *. cbn [fst snd] in *.
      apply (fetches_more 1); [lia|exact Hone].
Qed.

Lemma fetch_email_oblivious userId email index acc :
  cache_oblivious (fetch_one userId email index acc).
Proof.
  unfold fetch_email. apply oblivious_bind.
  - apply oblivious_reify, oblivious_bind; [apply oblivious_of_outcome|].
    intros id. apply oblivious_bind; [apply executeGmailTool_oblivious|].
    intros data. apply oblivious_of_outcome.
  - intros fetched. destruct (snd _).
    + apply oblivious_bind; [apply oblivious_of_outcome|]. intros block. apply oblivious_ret.
    + apply oblivious_ret.
Qed.

Lemma fetch_emails_oblivious userId emails :
  forall index acc, cache_oblivious (fetch_all userId emails index acc).
Proof.
  induction emails as [|email rest IH]; intros index acc; cbn [fetch_emails].
  - apply oblivious_ret.
  - apply oblivious_bind; [apply fetch_email_oblivious|]. intros acc1. apply IH.
Qed.

Lemma formatEmailResultsWithContent_oblivious emailData userId :
  cache_oblivious (with_content emailData userId).
Proof.
  unfold formatEmailResultsWithContent. apply oblivious_try_catch.
  - apply oblivious_bind; [apply oblivious_of_outcome|]. intros parsed.
    destruct (negb (truthy parsed) || negb (Array_isArray (get "messages" parsed)));
      [apply oblivious_ret|].
    cbv zeta. destruct (Nat.eqb _ 0); [apply oblivious_ret|].
    apply oblivious_bind; [apply fetch_emails_oblivious|]. intros text. apply oblivious_ret.
  - intros e. apply oblivious_ret.
Qed.

(** The listing as a case distinction on its input. *)
Lemma formatEmailResultsWithContent_run emailData userId w :
  with_content emailData userId w
  = match listed_messages emailData with
    | [] =>
        (Return (match JSON_parse_any emailData with
                 | Return parsed =>
                     if negb (truthy parsed) || negb (Array_isArray (get "messages" parsed))
                     then emailData else Some (JStr no_emails_found)
                 | Throw _ => emailData
                 end), w, [])
    | emails =>
        match fetch_all userId (firstn 5 emails) 0 (found_header (length emails)) w with
        | (Return formattedResult, w', tr) =>
            (Return (Some (JStr ((if Nat.ltb 5 (length emails)
                                  then formattedResult ++ showing_first_5 (length emails)
                                  else formattedResult) ++ content_tip))), w', tr)
        | (Throw _, w', tr) => (Return emailData, w', tr)
        end
    end.
Proof.
  unfold formatEmailResultsWithContent, listed_messages, try_catch, bind, of_outcome.
  destruct (JSON_parse_any emailData) as [parsed|e]; [|reflexivity].
  unfold ret at 1.
  destruct (negb (truthy parsed) || negb (Array_isArray (get "messages" parsed)));
    [reflexivity|].
  cbv zeta. destruct (messages_of parsed) as [|email rest] eqn:Hm; [reflexivity|].
  cbn [length Nat.eqb].
  destruct (fetch_all userId _ 0 _ w) as [[[text|e] w1] t1]; unfold ret; simpl;
    rewrite ?app_nil_r; reflexivity.
Qed.

End ListingFacts.

Lemma no_calls_of other tr :
  (forall j name a, In (EvCallTool j name a) tr -> name <> other) ->
  tool_calls other tr = 0%nat.
Proof.
  induction tr as [|[] tr IH]; intros H; cbn [tool_calls]; try reflexivity;
    try (apply IH; intros j n0 a0 Hin; apply (H j n0 a0); right; exact Hin).
  replace (String.eqb name other) with false.
  - apply IH. intros j n0 a0 Hin. apply (H j n0 a0). right. exact Hin.
  - symmetry. apply String.eqb_neq. apply (H session name args). left. reflexivity.
Qed.

(** X14: the listing with content fails open and is bounded.  On every
    input, whatever the remote does and whatever the rendering of a message
    does, [formatEmailResultsWithContent] returns and never throws.  It
    fetches at most the first five messages of the listing, each through the
    legacy wrapper: at most two sessions and two invocations of
    [get_message] and one credential read per message, and no invocation of
    any other remote procedure.  It leaves the cache as it was.  On an input
    that is not JSON, that holds no [messages] array, or whose array is
    empty, it touches no collaborator and returns the input itself or the
    sentence "No emails found matching your search criteria.". *)
Theorem content_listing_fetches_at_most_five_messages :
  forall render_full render_fallback emailData userId w,
    let run := formatEmailResultsWithContent render_full render_fallback emailData userId w in
    let n := Nat.min 5 (length (listed_messages emailData)) in
    (exists text, outcome_of run = Return text)
    /\ (length (connects (trace_of run)) <= 2 * n)%nat
    /\ (tool_calls "get_message" (trace_of run) <= 2 * n)%nat
    /\ (forall other, other <> "get_message" -> tool_calls other (trace_of run) = 0%nat)
    /\ (token_reads (trace_of run) <= n)%nat
    /\ searchCache (world_of run) = searchCache w
    /\ (listed_messages emailData = [] ->
        exists text,
          run = (Return text, w, [])
          /\ (text = emailData \/ text = Some (JStr "No emails found matching your search criteria."))).
Proof.
  intros render_full render_fallback emailData userId w. cbv zeta.
  rewrite formatEmailResultsWithContent_run.
  destruct (listed_messages emailData) as [|email rest] eqn:Hlist.
  - unfold outcome_of, trace_of, world_of in *. cbn [fst snd connects tool_calls token_reads length].
    split; [eexists; reflexivity|]. split; [lia|]. split; [lia|].
    split; [reflexivity|]. split; [lia|]. split; [reflexivity|].
    intros _. eexists. split; [reflexivity|].
    destruct (JSON_parse_any emailData) as [parsed|e]; [|left; reflexivity].
    destruct (negb (truthy parsed) || negb (Array_isArray (get "messages" parsed)));
      [left|right]; reflexivity.
  - cbv beta iota zeta.
    pose proof (fetch_emails_fetches render_full render_fallback userId
                  (firstn 5 (email :: rest)) 0 (found_header (length (email :: rest))) w)
      as Hfetch.
    rewrite length_firstn in Hfetch.
    pose proof (oblivious_cache _ w
                  (fetch_emails_oblivious render_full render_fallback userId
                     (firstn 5 (email :: rest)) 0 (found_header (length (email :: rest)))))
      as Hcache.
    set (r := fetch_emails render_full render_fallback userId (firstn 5 (email :: rest)) 0
                (found_header (length (email :: rest))) w) in *.
    clearbody r. destruct r as [[o w1] t1].
    unfold fetches_at_most, world_of, trace_of in Hfetch. cbn [fst snd] in Hfetch.
    destruct Hfetch as (Hc & Ht & Hr & Hcalls & _).
    assert (Hother : forall other, other <> "get_message" -> tool_calls other t1 = 0%nat).
    { intros other Hne. apply no_calls_of. intros j name a Hin.
      apply Hcalls in Hin. destruct Hin as [-> _]. congruence. }
    destruct o as [text|e]; unfold outcome_of, trace_of, world_of in *; cbn [fst snd] in *;
      (split; [eexists; reflexivity|]);
      (split; [exact Hc|]); (split; [exact Ht|]); (split; [exact Hother|]);
      (split; [exact Hr|]); (split; [exact Hcache|]); discriminate.
Qed.

(** ** The listing for a caller whose credential is gone *)

Lemma fetch_email_without_credential render_full render_fallback userId email index acc w block :
  gmailTokens w userId = None ->
  config_present (env w) = true ->
  render_fallback email index = Return block ->
  fetch_email render_full render_fallback userId email index acc w
  = (Return (acc ++ block), w, credential_reads userId [email]).
Proof.
  intros Htok Hcfg Hblock.
  unfold fetch_email, bind, reify, of_outcome.
  destruct email; cbn [read_property credential_reads];
    try (unfold ret at 1;
         match goal with
         | |- context [executeGmailTool ?t ?a ?u w] =>
             destruct (executor_without_credential t a u
                         (mkOptions (Some false) (Some 1) None) w Htok)
               as (_ & _ & _ & Hrun & _);
             unfold executeGmailTool; rewrite (Hrun eq_refl Hcfg)
         end);
    unfold throw; simpl; rewrite Hblock; unfold ret; simpl; reflexivity.
Qed.

Lemma fetch_emails_without_credential render_full render_fallback userId preview w emails :
  gmailTokens w userId = None ->
  config_present (env w) = true ->
  forall index acc,
    (forall i email, nth_error emails i = Some email ->
       render_fallback email (index + i)%nat = Return (preview email (index + i)%nat)) ->
    fetch_emails render_full render_fallback userId emails index acc w
    = (Return (acc ++ previews preview emails index), w, credential_reads userId emails).
Proof.
  intros Htok Hcfg. induction emails as [|email rest IH]; intros index acc Hprev.
  - cbn [fetch_emails previews credential_reads]. unfold ret.
    replace (acc ++ "") with acc; [reflexivity|].
    clear. induction acc as [|c acc IH]; simpl; congruence.
  - cbn [fetch_emails previews]. unfold bind.
    rewrite (fetch_email_without_credential render_full render_fallback userId email index acc w
               (preview email index) Htok Hcfg).
    + rewrite IH.
      * rewrite append_assoc. destruct email; reflexivity.
      * intros i e Hi. replace (S index + i)%nat with (index + S i)%nat by lia.
        apply Hprev. exact Hi.
    + specialize (Hprev 0%nat email eq_refl). rewrite Nat.add_0_r in Hprev. exact Hprev.
Qed.

(** X15: the listing degrades to previews.  For a caller whose credential
    is gone from the store (as it can be when the listing comes from the
    cache), every fetch fails before a session is opened; the listing is then
    the header, the fallback block of each of the first five messages in
    order, the note on the messages left out when there are more than five,
    and the tip.  The store is read once for every message that is not
    [null], and nothing else happens. *)
Theorem listing_degrades_to_previews_without_a_credential :
  forall render_full render_fallback preview emailData userId w,
    gmailTokens w userId = None ->
    config_present (env w) = true ->
    listed_messages emailData <> [] ->
    (forall i email,
       nth_error (firstn 5 (listed_messages emailData)) i = Some email ->
       render_fallback email i = Return (preview email i)) ->
    let emails := listed_messages emailData in
    formatEmailResultsWithContent render_full render_fallback emailData userId w
    = (Return (Some (JStr (found_header (length emails)
                             ++ previews preview (firstn 5 emails) 0
                             ++ (if Nat.ltb 5 (length emails)
                                 then showing_first_5 (length emails) else "")
                             ++ content_tip))),
       w, credential_reads userId (firstn 5 emails)).
Proof.
  intros render_full render_fallback preview emailData userId w Htok Hcfg Hne Hprev. cbv zeta.
  rewrite formatEmailResultsWithContent_run.
  destruct (listed_messages emailData) as [|email rest] eqn:Hlist; [congruence|].
  cbv beta iota zeta.
  rewrite (fetch_emails_without_credential render_full render_fallback userId preview w
             (firstn 5 (email :: rest)) Htok Hcfg 0 _ Hprev).
  destruct (Nat.ltb 5 (length (email :: rest))); rewrite !append_assoc; reflexivity.
Qed.

(** ** The search tools *)

Lemma timed_search_run searchArgs userId w :
  timed_search searchArgs userId w
  = match executeGmailToolEnhanced "list_messages" searchArgs userId
            (mkOptions (Some true) None None) w with
    | (Return result, w1, tr) => (Return (result, now w1 - now w), w1, tr)
    | (Throw e, w1, tr) => (Throw e, w1, tr)
    end.
Proof.
  unfold timed_search, bind, Date_now, read. cbn [app].
  destruct (executeGmailToolEnhanced _ _ _ _ w) as [[[result|e] w1] tr]; [|reflexivity].
  unfold ret. rewrite !app_nil_r. reflexivity.
Qed.

(** On a string, [formatEmailResults_any] is [formatEmailResults]. *)
Lemma formatEmailResults_any_string format_email text :
  formatEmailResults_any format_email (Some (JStr text))
  = Some (JStr (formatEmailResults format_email text)).
Proof.
  unfold formatEmailResults_any, formatEmailResults, formatEmailResults_try, JSON_parse_any.
  cbn [String_of ToString and_then].
  destruct (JSON_parse text) as [parsed|e]; cbn [and_then]; [|reflexivity].
  destruct (negb (truthy parsed) || negb (Array_isArray (get "messages" parsed)));
    [reflexivity|].
  unfold messages_of. cbv zeta.
  destruct (Nat.eqb _ 0); [reflexivity|].
  destruct (forEach_email _ _ _ _); reflexivity.
Qed.

(** The listing with content invokes [get_message] for one message in full
    and nothing else. *)
Lemma formatEmailResultsWithContent_calls render_full render_fallback emailData userId w
    j name a :
  In (EvCallTool j name a)
     (trace_of (formatEmailResultsWithContent render_full render_fallback emailData userId w)) ->
  name = "get_message" /\ exists id, a = get_message_args id.
Proof.
  rewrite formatEmailResultsWithContent_run.
  destruct (listed_messages emailData) as [|email rest]; [intros []|].
  cbv beta iota zeta.
  pose proof (fetch_emails_fetches render_full render_fallback userId
                (firstn 5 (email :: rest)) 0 (found_header (length (email :: rest))) w)
    as Hfetch.
  set (r := fetch_emails render_full render_fallback userId (firstn 5 (email :: rest)) 0
              (found_header (length (email :: rest))) w) in *.
  clearbody r. destruct r as [[o w1] t1].
  destruct Hfetch as (_ & _ & _ & Hcalls & _).
  unfold trace_of in *. cbn [snd] in *.
  destruct o; cbn [snd]; apply Hcalls.
Qed.

Lemma lists_or_gets_all searchArgs tr :
  (forall j name a,
     In (EvCallTool j name a) tr ->
     (name = "list_messages" /\ a = searchArgs)
     \/ (name = "get_message" /\ exists id, a = get_message_args id)) ->
  Forall (lists_or_gets searchArgs) tr.
Proof.
  intros H. apply Forall_forall. intros [] Hin; cbn [lists_or_gets]; try exact I.
  apply (H _ _ _ Hin).
Qed.

Section ToolFacts.

Variable format_email : json -> nat -> Outcome string.
Variable render_full : json -> json -> nat -> string * option Error.
Variable render_fallback : json -> nat -> Outcome string.

Local Abbreviation with_content := (formatEmailResultsWithContent render_full render_fallback).
Local Abbreviation search_options := (mkOptions (Some true) None None).

(** The tools as what the executor does, and then the history and the
    formatting. *)
Lemma listMessages_run userId args w :
  listMessages render_full render_fallback userId args w
  = match executeGmailTool "list_messages"
            (JObj (add_inbox_filter (ListMessages.q args) (ListMessages.spread args)))
            userId w with
    | (Return result, w1, t1) =>
        match with_content result userId w1 with
        | (o, w2, t2) => (o, w2, (t1 ++ t2)%list)
        end
    | (Throw e, w1, t1) => (Throw e, w1, t1)
    end.
Proof. reflexivity. Qed.

Lemma searchEmails_run userId args history w :
  searchEmails render_full render_fallback userId args history w
  = match executeGmailToolEnhanced "list_messages"
            (JObj (JsonParse.obj_set "labelIds" (strings ["INBOX"]) (SearchEmails.spread args)))
            userId search_options w with
    | (Return result, w1, t1) =>
        match with_content result userId w1 with
        | (Return text, w2, t2) =>
            (Return (text, save_search_history userId (SearchEmails.q args) result
                             (now w1 - now w) history),
             w2, (t1 ++ t2)%list)
        | (Throw e, w2, t2) => (Throw e, w2, (t1 ++ t2)%list)
        end
    | (Throw e, w1, t1) => (Throw e, w1, t1)
    end.
Proof.
  unfold searchEmails. unfold bind at 1. rewrite timed_search_run.
  destruct (executeGmailToolEnhanced _ _ _ _ w) as [[[result|e] w1] t1]; [|reflexivity].
  unfold bind.
  destruct (with_content result userId w1) as [[[text|e] w2] t2]; [|reflexivity].
  unfold ret. rewrite app_nil_r. reflexivity.
Qed.

(** The arguments [semanticEmailSearch] passes on. *)
Lemma semanticEmailSearch_run userId args history w :
  let gmailQuery := buildGmailQuery (SemanticSearch.params args) in
  let searchArgs :=
    JObj [("q", JStr gmailQuery);
          ("maxResults", JNum (SemanticSearch.maxResults args));
          ("labelIds",
           strings (if includes gmailQuery "in:sent" || includes gmailQuery ("from:" ++ userId)
                    then ["SENT"] else ["INBOX"]))] in
  semanticEmailSearch format_email userId args history w
  = match executeGmailToolEnhanced "list_messages" searchArgs userId search_options w with
    | (Return result, w1, t1) =>
        (Return (formatEmailResults_any format_email result,
                 save_search_history userId gmailQuery result (now w1 - now w) history),
         w1, t1)
    | (Throw e, w1, t1) => (Throw e, w1, t1)
    end.
Proof.
  cbv zeta. unfold semanticEmailSearch. cbv zeta. unfold bind at 1. rewrite timed_search_run.
  destruct (executeGmailToolEnhanced _ _ _ _ w) as [[[result|e] w1] t1]; [|reflexivity].
  unfold ret. rewrite app_nil_r. reflexivity.
Qed.

Lemma enhancedEmailSearch_run userId args history w :
  enhancedEmailSearch format_email userId args history w
  = match executeGmailToolEnhanced "list_messages"
            (JObj (add_inbox_filter (Some (EnhancedSearch.q args)) (EnhancedSearch.spread args)))
            userId search_options w with
    | (Return result, w1, t1) =>
        (Return (formatEmailResults_any format_email result,
                 save_search_history userId (EnhancedSearch.q args) result (now w1 - now w)
                   history),
         w1, t1)
    | (Throw e, w1, t1) => (Throw e, w1, t1)
    end.
Proof.
  unfold enhancedEmailSearch. cbv zeta. unfold bind at 1. rewrite timed_search_run.
  destruct (executeGmailToolEnhanced _ _ _ _ w) as [[[result|e] w1] t1]; [|reflexivity].
  unfold ret. rewrite app_nil_r. reflexivity.
Qed.

End ToolFacts.

(** ** Substrings and counts *)

Lemma starts_with_spec haystack :
  forall needle, starts_with haystack needle = true <-> exists b, haystack = needle ++ b.
Proof.
  induction haystack as [|c h IH]; intros [|d n]; cbn [starts_with].
  - split; [exists ""; reflexivity|reflexivity].
  - split; [discriminate|intros [b Hb]; discriminate].
  - split; [exists (String c h); reflexivity|reflexivity].
  - rewrite andb_true_iff, IH, Ascii.eqb_eq. split.
    + intros [-> [b ->]]. exists b. reflexivity.
    + intros [b Hb]. cbn in Hb. injection Hb as -> ->. split; [reflexivity|exists b; reflexivity].
Qed.

(** [haystack.includes(needle)] holds exactly when [needle] is a substring
    of [haystack]. *)
Lemma includes_spec haystack :
  forall needle,
    includes haystack needle = true <-> exists a b, haystack = a ++ needle ++ b.
Proof.
  induction haystack as [|c h IH]; intros needle; cbn [includes];
    rewrite orb_true_iff, starts_with_spec.
  - split.
    + intros [[b Hb]|H]; [exists "", b; exact Hb|discriminate].
    + intros (a & b & H). left. destruct a; [exists b; exact H|discriminate].
  - rewrite IH. split.
    + intros [[b Hb]|(a & b & H)]; [exists "", b; exact Hb|].
      exists (String c a), b. cbn. rewrite H. reflexivity.
    + intros ([|d a] & b & H).
      * left. exists b. exact H.
      * right. cbn in H. injection H as -> ->. exists a, b. reflexivity.
Qed.

Lemma all_zero_uint d :
  all_zero_digits (DecimalString.NilEmpty.string_of_uint d) = true -> Pos.of_uint d = 0%N.
Proof. induction d; cbn; try discriminate; auto. Qed.

(** The text of a positive count is truthy. *)
Lemma count_is_truthy n : truthy (JNum (string_of_Z (Z.of_nat (S n)))) = true.
Proof.
  cbn [truthy]. apply negb_true_iff.
  destruct (all_zero_digits (string_of_Z (Z.of_nat (S n)))) eqn:Hz; [|reflexivity].
  exfalso. unfold string_of_Z in Hz. cbn [Z.of_nat Z.to_int] in Hz.
  cbn [DecimalString.NilZero.string_of_int] in Hz.
  unfold DecimalString.NilZero.string_of_uint in Hz.
  pose proof (DecimalPos.Unsigned.of_to (Pos.of_succ_nat n)) as Hof.
  pose proof (DecimalPos.Unsigned.to_uint_nonnil (Pos.of_succ_nat n)) as Hnil.
  destruct (Pos.to_uint (Pos.of_succ_nat n)) eqn:Hd; try congruence;
    apply all_zero_uint in Hz; rewrite Hz in Hof; discriminate.
Qed.

(** What is saved for a listing of [items]. *)
Lemma save_search_history_listing userId query text parsed items t history :
  JsonParse.parse text = Some parsed ->
  get "messages" parsed = Some (JArr items) ->
  save_search_history userId query (Some (JStr text)) t history
  = match refuses history
            (mkSearchHistory userId query (JNum (string_of_Z (Z.of_nat (length items)))) t) with
    | None =>
        mkHistoryStore
          (rows history
           ++ [mkSearchHistory userId query (JNum (string_of_Z (Z.of_nat (length items)))) t])%list
          (refuses history)
    | Some _ => history
    end.
Proof.
  intros Hparse Hm.
  unfold save_search_history, JSON_parse_any, JSON_parse.
  cbn [String_of ToString and_then]. rewrite Hparse. cbn [and_then].
  unfold resultCount_of, read_property.
  destruct parsed; try discriminate. cbn [and_then]. rewrite Hm. cbn [length_of].
  assert (Hcount : (if truthy_jsval (Some (JNum (string_of_Z (Z.of_nat (length items)))))
                    then default (JNum "0") (Some (JNum (string_of_Z (Z.of_nat (length items)))))
                    else JNum "0")
                   = JNum (string_of_Z (Z.of_nat (length items)))).
  { destruct (length items) as [|n]; [reflexivity|].
    cbn [truthy_jsval]. rewrite count_is_truthy. reflexivity. }
  rewrite Hcount. unfold saveGmailSearchHistory.
  destruct (refuses history _); reflexivity.
Qed.

Lemma save_search_history_not_json userId query text t history :
  JsonParse.parse text = None ->
  save_search_history userId query (Some (JStr text)) t history = history.
Proof.
  intros Hparse. unfold save_search_history, JSON_parse_any, JSON_parse.
  cbn [String_of ToString and_then]. rewrite Hparse. reflexivity.
Qed.

(** The store is appended to, by one record at most, or left alone. *)
Lemma save_search_history_appends userId query result t history :
  refuses (save_search_history userId query result t history) = refuses history
  /\ (rows (save_search_history userId query result t history) = rows history
      \/ exists count,
           rows (save_search_history userId query result t history)
           = (rows history ++ [mkSearchHistory userId query count t])%list).
Proof.
  unfold save_search_history.
  destruct (and_then (JSON_parse_any result) resultCount_of) as [count|e];
    [|split; [reflexivity|left; reflexivity]].
  unfold saveGmailSearchHistory.
  destruct (refuses history _); cbn [snd rows refuses];
    (split; [reflexivity|]); [left; reflexivity|right; exists count; reflexivity].
Qed.

Lemma formatEmailResultsWithContent_returns render_full render_fallback emailData userId w :
  exists text,
    outcome_of (formatEmailResultsWithContent render_full render_fallback emailData userId w)
    = Return text.
Proof.
  rewrite formatEmailResultsWithContent_run.
  destruct (listed_messages emailData) as [|email rest]; [eexists; reflexivity|].
  cbv beta iota zeta.
  destruct (fetch_emails _ _ _ _ _ _ w) as [[[text|e] w1] t1]; eexists; reflexivity.
Qed.

(** ** The search history is best effort *)

(** X16: the history never fails a search.  The text a search tool returns
    or the error it throws, the world it leaves and the events it performs
    are the same whatever the history store holds and whether it accepts the
    record or rejects it with an error: nothing the store does reaches the
    caller of [searchEmails], [semanticEmailSearch] or [enhancedEmailSearch];
    and the store itself is left alone or appended to by one record. *)
Theorem search_history_is_best_effort :
  forall format_email render_full render_fallback userId w (h1 h2 : HistoryStore),
    (forall args,
       let run := searchEmails render_full render_fallback userId args in
       text_of (outcome_of (run h1 w)) = text_of (outcome_of (run h2 w))
       /\ world_of (run h1 w) = world_of (run h2 w)
       /\ trace_of (run h1 w) = trace_of (run h2 w))
    /\ (forall args,
       let run := semanticEmailSearch format_email userId args in
       text_of (outcome_of (run h1 w)) = text_of (outcome_of (run h2 w))
       /\ world_of (run h1 w) = world_of (run h2 w)
       /\ trace_of (run h1 w) = trace_of (run h2 w))
    /\ (forall args,
       let run := enhancedEmailSearch format_email userId args in
       text_of (outcome_of (run h1 w)) = text_of (outcome_of (run h2 w))
       /\ world_of (run h1 w) = world_of (run h2 w)
       /\ trace_of (run h1 w) = trace_of (run h2 w))
    /\ (forall query result t,
          refuses (save_search_history userId query result t h1) = refuses h1
          /\ (rows (save_search_history userId query result t h1) = rows h1
              \/ exists count,
                   rows (save_search_history userId query result t h1)
                   = (rows h1 ++ [mkSearchHistory userId query count t])%list)).
Proof.
  intros format_email render_full render_fallback userId w h1 h2.
  split; [|split; [|split]].
  - intros args. cbv zeta. rewrite !searchEmails_run.
    destruct (executeGmailToolEnhanced _ _ _ _ w) as [[[result|e] w1] t1];
      [|repeat split].
    destruct (formatEmailResultsWithContent _ _ result userId w1) as [[[text|e] w2] t2];
      repeat split.
  - intros args. cbv zeta.
    rewrite (semanticEmailSearch_run format_email userId args h1 w).
    rewrite (semanticEmailSearch_run format_email userId args h2 w). cbv zeta.
    destruct (executeGmailToolEnhanced _ _ _ _ w) as [[[result|e] w1] t1]; repeat split.
  - intros args. cbv zeta. rewrite !enhancedEmailSearch_run.
    destruct (executeGmailToolEnhanced _ _ _ _ w) as [[[result|e] w1] t1]; repeat split.
  - intros query result t. apply save_search_history_appends.
Qed.

(** X17: what the history records.  When the search of a search tool
    returns a result, the store the tool leaves is the one [saveGmailSearchHistory]
    leaves for the caller, the query (the built Gmail query for
    [semanticEmailSearch]) and the time that passed on the clock during the
    search; when the search throws, the tool throws the same error.  For a
    result text that is a JSON listing, the record counts the messages of the
    listing, and it is appended unless the store rejects it; for a result
    text that is not JSON, nothing is recorded. *)
Theorem a_search_is_recorded_with_its_count_and_duration :
  forall format_email render_full render_fallback userId history w,
    let search searchArgs :=
      executeGmailToolEnhanced "list_messages" searchArgs userId
        (mkOptions (Some true) None None) w in
    let records (query : string) (searchArgs : json)
                (run : Outcome (jsval * HistoryStore) * World * list Event) :=
      (forall result w1 tr,
         search searchArgs = (Return result, w1, tr) ->
         history_of (outcome_of run) history
         = save_search_history userId query result (now w1 - now w) history)
      /\ (forall e, outcome_of (search searchArgs) = Throw e -> outcome_of run = Throw e) in
    (forall args,
       records (SearchEmails.q args)
         (JObj (JsonParse.obj_set "labelIds" (strings ["INBOX"]) (SearchEmails.spread args)))
         (searchEmails render_full render_fallback userId args history w))
    /\ (forall args,
       records (buildGmailQuery (SemanticSearch.params args))
         (JObj [("q", JStr (buildGmailQuery (SemanticSearch.params args)));
                ("maxResults", JNum (SemanticSearch.maxResults args));
                ("labelIds",
                 strings (if includes (buildGmailQuery (SemanticSearch.params args)) "in:sent"
                             || includes (buildGmailQuery (SemanticSearch.params args))
                                  ("from:" ++ userId)
                          then ["SENT"] else ["INBOX"]))])
         (semanticEmailSearch format_email userId args history w))
    /\ (forall args,
       records (EnhancedSearch.q args)
         (JObj (add_inbox_filter (Some (EnhancedSearch.q args)) (EnhancedSearch.spread args)))
         (enhancedEmailSearch format_email userId args history w))
    /\ (forall query text parsed items t,
          JsonParse.parse text = Some parsed ->
          get "messages" parsed = Some (JArr items) ->
          let record :=
            mkSearchHistory userId query (JNum (string_of_Z (Z.of_nat (length items)))) t in
          save_search_history userId query (Some (JStr text)) t history
          = match refuses history record with
            | None => mkHistoryStore (rows history ++ [record])%list (refuses history)
            | Some _ => history
            end)
    /\ (forall query text t,
          JsonParse.parse text = None ->
          save_search_history userId query (Some (JStr text)) t history = history).
Proof.
  intros format_email render_full render_fallback userId history w. cbv zeta.
  split; [|split; [|split; [|split]]].
  - intros args. rewrite searchEmails_run. split.
    + intros result w1 tr Hrun. rewrite Hrun.
      destruct (formatEmailResultsWithContent_returns render_full render_fallback
                  result userId w1) as [text Htext].
      destruct (formatEmailResultsWithContent _ _ result userId w1) as [[o w2] t2].
      unfold outcome_of in *. cbn [fst] in *. subst o. reflexivity.
    + intros e.
      destruct (executeGmailToolEnhanced _ _ _ _ w) as [[[result|e0] w1] t1];
        [discriminate|]. unfold outcome_of. cbn [fst]. intros [= ->]. reflexivity.
  - intros args.
    rewrite (semanticEmailSearch_run format_email userId args history w). cbv zeta. split.
    + intros result w1 tr Hrun. rewrite Hrun. reflexivity.
    + intros e.
      destruct (executeGmailToolEnhanced _ _ _ _ w) as [[[result|e0] w1] t1];
        [discriminate|]. unfold outcome_of. cbn [fst]. intros [= ->]. reflexivity.
  - intros args. rewrite enhancedEmailSearch_run. split.
    + intros result w1 tr Hrun. rewrite Hrun. reflexivity.
    + intros e.
      destruct (executeGmailToolEnhanced _ _ _ _ w) as [[[result|e0] w1] t1];
        [discriminate|]. unfold outcome_of. cbn [fst]. intros [= ->]. reflexivity.
  - intros query text parsed items t Hparse Hm. cbv zeta.
    apply (save_search_history_listing _ _ _ _ _ _ _ Hparse Hm).
  - intros query text t. apply save_search_history_not_json.
Qed.

(** ** [listMessages] and the cache *)

Lemma listMessages_oblivious render_full render_fallback userId args :
  cache_oblivious (listMessages render_full render_fallback userId args).
Proof.
  unfold listMessages. apply oblivious_bind; [apply executeGmailTool_oblivious|].
  intros result. apply formatEmailResultsWithContent_oblivious.
Qed.

(** X18: [listMessages] never uses the cache, although the remote
    procedure it invokes is [list_messages].  It runs through the legacy
    wrapper: it leaves the cache as it found it, its outcome and its events
    are the same whatever the cache holds, and whenever the process is
    configured and the caller has a credential it reads the credential and
    opens a session, however often the same listing was made before. *)
Theorem listMessages_bypasses_the_cache :
  forall render_full render_fallback userId args w,
    let run := listMessages render_full render_fallback userId args w in
    searchCache (world_of run) = searchCache w
    /\ (forall c,
          listMessages render_full render_fallback userId args (with_cache c w)
          = (outcome_of run, with_cache c (world_of run), trace_of run))
    /\ (config_present (env w) = true ->
        truthy_string (gmailTokens w userId) = true ->
        exists rest,
          trace_of run
          = EvGetToken userId :: EvConnect (sessions w) (serverUrl_of w userId) :: rest).
Proof.
  intros render_full render_fallback userId args w. cbv zeta.
  split; [|split].
  - apply oblivious_cache, listMessages_oblivious.
  - intros c. rewrite (listMessages_oblivious render_full render_fallback userId args w c).
    destruct (listMessages _ _ _ _ w) as [[o w'] tr]. reflexivity.
  - intros Hcfg Htok. rewrite listMessages_run.
    destruct (executor_goes_remote "list_messages"
                (JObj (add_inbox_filter (ListMessages.q args) (ListMessages.spread args)))
                userId (mkOptions (Some false) (Some 1) None) w) as [rest Hrest].
    + split; [reflexivity|]. split; assumption.
    + discriminate.
    + unfold executeGmailTool.
      destruct (executeGmailToolEnhanced _ _ _ _ w) as [[[result|e] w1] t1];
        unfold trace_of in *; cbn [snd] in *; subst t1.
      * destruct (formatEmailResultsWithContent _ _ result userId w1) as [[o w2] t2].
        eexists. reflexivity.
      * eexists. reflexivity.
Qed.

(** ** The remote procedures the listing tools invoke *)

Lemma lists_or_gets_app searchArgs t1 t2 :
  (forall j name a, In (EvCallTool j name a) t1 -> name = "list_messages" /\ a = searchArgs) ->
  (forall j name a,
     In (EvCallTool j name a) t2 -> name = "get_message" /\ exists id, a = get_message_args id) ->
  Forall (lists_or_gets searchArgs) (t1 ++ t2)%list.
Proof.
  intros H1 H2. apply lists_or_gets_all. intros j name a Hin.
  apply in_app_or in Hin. destruct Hin as [Hin|Hin]; [left|right]; eauto.
Qed.

Lemma lists_or_gets_no_other searchArgs tr other :
  Forall (lists_or_gets searchArgs) tr ->
  other <> "list_messages" -> other <> "get_message" ->
  tool_calls other tr = 0%nat.
Proof.
  intros Hall Hl Hg. apply no_calls_of. intros j name a Hin.
  rewrite Forall_forall in Hall. specialize (Hall _ Hin). cbn [lists_or_gets] in Hall.
  destruct Hall as [[-> _]|[-> _]]; congruence.
Qed.

(** The invocations of each tool. *)
Lemma listMessages_calls render_full render_fallback userId args w :
  Forall (lists_or_gets
            (JObj (add_inbox_filter (ListMessages.q args) (ListMessages.spread args))))
    (trace_of (listMessages render_full render_fallback userId args w)).
Proof.
  rewrite listMessages_run. unfold executeGmailTool.
  pose proof (fun j name a =>
                executor_calls "list_messages"
                  (JObj (add_inbox_filter (ListMessages.q args) (ListMessages.spread args)))
                  userId (mkOptions (Some false) (Some 1) None) w j name a) as Hexec.
  destruct (executeGmailToolEnhanced _ _ _ _ w) as [[[result|e] w1] t1];
    unfold trace_of in *; cbn [snd] in *.
  - pose proof (formatEmailResultsWithContent_calls render_full render_fallback
                  result userId w1) as Hget.
    destruct (formatEmailResultsWithContent _ _ result userId w1) as [[o w2] t2].
    unfold trace_of in *. cbn [snd] in *.
    apply lists_or_gets_app; assumption.
  - apply lists_or_gets_all. intros j name a Hin. left. apply (Hexec _ _ _ Hin).
Qed.

Lemma searchEmails_calls render_full render_fallback userId args history w :
  Forall (lists_or_gets
            (JObj (JsonParse.obj_set "labelIds" (strings ["INBOX"]) (SearchEmails.spread args))))
    (trace_of (searchEmails render_full render_fallback userId args history w)).
Proof.
  rewrite searchEmails_run.
  pose proof (fun j name a =>
                executor_calls "list_messages"
                  (JObj (JsonParse.obj_set "labelIds" (strings ["INBOX"])
                           (SearchEmails.spread args)))
                  userId (mkOptions (Some true) None None) w j name a) as Hexec.
  destruct (executeGmailToolEnhanced _ _ _ _ w) as [[[result|e] w1] t1];
    unfold trace_of in *; cbn [snd] in *.
  - pose proof (formatEmailResultsWithContent_calls render_full render_fallback
                  result userId w1) as Hget.
    destruct (formatEmailResultsWithContent _ _ result userId w1) as [[[text|e] w2] t2];
      unfold trace_of in *; cbn [snd] in *; apply lists_or_gets_app; assumption.
  - apply lists_or_gets_all. intros j name a Hin. left. apply (Hexec _ _ _ Hin).
Qed.

(** A search through the executor alone. *)
Lemma executor_lists searchArgs userId options w :
  Forall (lists_or_gets searchArgs)
    (trace_of (executeGmailToolEnhanced "list_messages" searchArgs userId options w))
  /\ tool_calls "get_message"
       (trace_of (executeGmailToolEnhanced "list_messages" searchArgs userId options w))
     = 0%nat.
Proof.
  split.
  - apply lists_or_gets_all. intros j name a Hin. left. apply (executor_calls _ _ _ _ _ _ _ _ Hin).
  - apply no_calls_of. intros j name a Hin. apply executor_calls in Hin.
    destruct Hin as [-> _]. discriminate.
Qed.

(** The two tools that format without content do what their search does. *)
Lemma semanticEmailSearch_effects format_email userId args history w :
  let searchArgs :=
    JObj [("q", JStr (buildGmailQuery (SemanticSearch.params args)));
          ("maxResults", JNum (SemanticSearch.maxResults args));
          ("labelIds",
           strings (if includes (buildGmailQuery (SemanticSearch.params args)) "in:sent"
                       || includes (buildGmailQuery (SemanticSearch.params args))
                            ("from:" ++ userId)
                    then ["SENT"] else ["INBOX"]))] in
  let call := executeGmailToolEnhanced "list_messages" searchArgs userId
                (mkOptions (Some true) None None) w in
  let run := semanticEmailSearch format_email userId args history w in
  world_of run = world_of call
  /\ trace_of run = trace_of call
  /\ text_of (outcome_of run)
     = match outcome_of call with
       | Return result => Return (formatEmailResults_any format_email result)
       | Throw e => Throw e
       end.
Proof.
  cbv zeta. rewrite (semanticEmailSearch_run format_email userId args history w). cbv zeta.
  destruct (executeGmailToolEnhanced _ _ _ _ w) as [[[result|e] w1] t1]; repeat split.
Qed.

Lemma enhancedEmailSearch_effects format_email userId args history w :
  let searchArgs :=
    JObj (add_inbox_filter (Some (EnhancedSearch.q args)) (EnhancedSearch.spread args)) in
  let call := executeGmailToolEnhanced "list_messages" searchArgs userId
                (mkOptions (Some true) None None) w in
  let run := enhancedEmailSearch format_email userId args history w in
  world_of run = world_of call
  /\ trace_of run = trace_of call
  /\ text_of (outcome_of run)
     = match outcome_of call with
       | Return result => Return (formatEmailResults_any format_email result)
       | Throw e => Throw e
       end.
Proof.
  cbv zeta. rewrite enhancedEmailSearch_run.
  destruct (executeGmailToolEnhanced _ _ _ _ w) as [[[result|e] w1] t1]; repeat split.
Qed.

(** X19: the listing tools only list and get.  Every remote procedure
    that [listMessages], [searchEmails], [semanticEmailSearch] or
    [enhancedEmailSearch] invokes is [list_messages], with the arguments the
    tool built, or [get_message] for one message in full; the two tools that
    format without content never invoke [get_message].  No run of these tools
    invokes [search_emails], the other name the cache accepts, or a procedure
    that sends, creates or deletes. *)
Theorem listing_tools_only_list_and_get :
  forall format_email render_full render_fallback userId history w,
    let only searchArgs tr :=
      Forall (lists_or_gets searchArgs) tr
      /\ (forall other, other <> "list_messages" -> other <> "get_message" ->
            tool_calls other tr = 0%nat) in
    (forall args,
       only (JObj (add_inbox_filter (ListMessages.q args) (ListMessages.spread args)))
         (trace_of (listMessages render_full render_fallback userId args w)))
    /\ (forall args,
       only (JObj (JsonParse.obj_set "labelIds" (strings ["INBOX"]) (SearchEmails.spread args)))
         (trace_of (searchEmails render_full render_fallback userId args history w)))
    /\ (forall args,
       let tr := trace_of (semanticEmailSearch format_email userId args history w) in
       only (JObj [("q", JStr (buildGmailQuery (SemanticSearch.params args)));
                   ("maxResults", JNum (SemanticSearch.maxResults args));
                   ("labelIds",
                    strings (if includes (buildGmailQuery (SemanticSearch.params args)) "in:sent"
                                || includes (buildGmailQuery (SemanticSearch.params args))
                                     ("from:" ++ userId)
                             then ["SENT"] else ["INBOX"]))]) tr
       /\ tool_calls "get_message" tr = 0%nat)
    /\ (forall args,
       let tr := trace_of (enhancedEmailSearch format_email userId args history w) in
       only (JObj (add_inbox_filter (Some (EnhancedSearch.q args)) (EnhancedSearch.spread args)))
         tr
       /\ tool_calls "get_message" tr = 0%nat).
Proof.
  intros format_email render_full render_fallback userId history w. cbv zeta.
  assert (Honly : forall searchArgs tr,
            Forall (lists_or_gets searchArgs) tr ->
            Forall (lists_or_gets searchArgs) tr
            /\ (forall other, other <> "list_messages" -> other <> "get_message" ->
                  tool_calls other tr = 0%nat)).
  { intros searchArgs tr H. split; [exact H|].
    intros other. apply (lists_or_gets_no_other searchArgs). exact H. }
  split; [|split; [|split]].
  - intros args. apply Honly, listMessages_calls.
  - intros args. apply Honly, searchEmails_calls.
  - intros args.
    destruct (semanticEmailSearch_effects format_email userId args history w) as (_ & Htr & _).
    cbv zeta in Htr. rewrite Htr.
    destruct (executor_lists
                (JObj [("q", JStr (buildGmailQuery (SemanticSearch.params args)));
                       ("maxResults", JNum (SemanticSearch.maxResults args));
                       ("labelIds",
                        strings (if includes (buildGmailQuery (SemanticSearch.params args))
                                      "in:sent"
                                    || includes (buildGmailQuery (SemanticSearch.params args))
                                         ("from:" ++ userId)
                                 then ["SENT"] else ["INBOX"]))])
                userId (mkOptions (Some true) None None) w) as [Hall Hnone].
    split; [apply Honly; exact Hall|exact Hnone].
  - intros args.
    destruct (enhancedEmailSearch_effects format_email userId args history w) as (_ & Htr & _).
    cbv zeta in Htr. rewrite Htr.
    destruct (executor_lists
                (JObj (add_inbox_filter (Some (EnhancedSearch.q args))
                         (EnhancedSearch.spread args)))
                userId (mkOptions (Some true) None None) w) as [Hall Hnone].
    split; [apply Honly; exact Hall|exact Hnone].
Qed.

(** ** Which folder is searched *)

Lemma list_call_args searchArgs tr j a :
  Forall (lists_or_gets searchArgs) tr ->
  In (EvCallTool j "list_messages" a) tr -> a = searchArgs.
Proof.
  intros Hall Hin. rewrite Forall_forall in Hall. specialize (Hall _ Hin).
  cbn [lists_or_gets] in Hall. destruct Hall as [[_ ->]|[H _]]; [reflexivity|discriminate].
Qed.

(** X20: which folder a search reaches.  The arguments of every
    [list_messages] invocation carry the query and a label filter:
    [searchEmails] always filters by INBOX, also when the query asks for sent
    mail; [semanticEmailSearch] filters by SENT when the built query contains
    "in:sent" or "from:" followed by the caller's identifier, and by INBOX
    otherwise; [listMessages] and [enhancedEmailSearch] pass the labels they
    were given, and without labels filter by INBOX unless the query contains
    "in:sent", in which case they send no label filter.  "Contains" is the
    substring test. *)
Theorem searches_are_confined_to_a_folder :
  forall format_email render_full render_fallback userId history w,
    (forall args j a,
       In (EvCallTool j "list_messages" a)
          (trace_of (searchEmails render_full render_fallback userId args history w)) ->
       get "q" a = Some (JStr (SearchEmails.q args))
       /\ get "labelIds" a = Some (strings ["INBOX"]))
    /\ (forall args j a,
       In (EvCallTool j "list_messages" a)
          (trace_of (semanticEmailSearch format_email userId args history w)) ->
       let gmailQuery := buildGmailQuery (SemanticSearch.params args) in
       get "q" a = Some (JStr gmailQuery)
       /\ get "labelIds" a
          = Some (strings [if includes gmailQuery "in:sent"
                              || includes gmailQuery ("from:" ++ userId)
                           then "SENT" else "INBOX"]))
    /\ (forall args j a,
       In (EvCallTool j "list_messages" a)
          (trace_of (listMessages render_full render_fallback userId args w)) ->
       get "labelIds" a
       = match ListMessages.labelIds args with
         | Some labels => Some (strings labels)
         | None =>
             if includes (default "" (ListMessages.q args)) "in:sent" then None
             else Some (strings ["INBOX"])
         end)
    /\ (forall args j a,
       In (EvCallTool j "list_messages" a)
          (trace_of (enhancedEmailSearch format_email userId args history w)) ->
       get "labelIds" a
       = match EnhancedSearch.labelIds args with
         | Some labels => Some (strings labels)
         | None =>
             if includes (EnhancedSearch.q args) "in:sent" then None
             else Some (strings ["INBOX"])
         end)
    /\ (forall haystack needle,
          includes haystack needle = true <-> exists a b, haystack = a ++ needle ++ b).
Proof.
  intros format_email render_full render_fallback userId history w.
  split; [|split; [|split; [|split]]].
  - intros args j a Hin.
    apply (list_call_args _ _ _ _ (searchEmails_calls _ _ _ _ _ _)) in Hin. subst a.
    split; reflexivity.
  - intros args j a Hin. cbv zeta.
    destruct (semanticEmailSearch_effects format_email userId args history w) as (_ & Htr & _).
    cbv zeta in Htr. rewrite Htr in Hin.
    apply (list_call_args _ _ _ _ (proj1 (executor_lists _ _ _ _))) in Hin. subst a.
    split; [reflexivity|]. cbn [get assoc String.eqb Ascii.eqb Bool.eqb].
    destruct (includes _ "in:sent" || includes _ ("from:" ++ userId)); reflexivity.
  - intros args j a Hin.
    apply (list_call_args _ _ _ _ (listMessages_calls _ _ _ _ _)) in Hin. subst a.
    unfold add_inbox_filter, ListMessages.spread.
    destruct args as [[[|c q]|] maxResults [labels|]];
      cbn [ListMessages.q ListMessages.labelIds ListMessages.maxResults option_map property
           app assoc String.eqb Ascii.eqb Bool.eqb truthy_jsval truthy strings negb andb orb
           truthy_string default get JsonParse.obj_set];
      try reflexivity;
      destruct (includes _ _);
      cbn [negb get assoc String.eqb Ascii.eqb Bool.eqb JsonParse.obj_set]; reflexivity.
  - intros args j a Hin.
    destruct (enhancedEmailSearch_effects format_email userId args history w) as (_ & Htr & _).
    cbv zeta in Htr. rewrite Htr in Hin.
    apply (list_call_args _ _ _ _ (proj1 (executor_lists _ _ _ _))) in Hin. subst a.
    unfold add_inbox_filter, EnhancedSearch.spread.
    destruct args as [[|c q] maxResults [pageToken|] includeSpamTrash format [labels|]];
      cbn [EnhancedSearch.q EnhancedSearch.labelIds EnhancedSearch.maxResults
           EnhancedSearch.pageToken EnhancedSearch.includeSpamTrash EnhancedSearch.format
           option_map property
           app assoc String.eqb Ascii.eqb Bool.eqb truthy_jsval truthy strings negb andb orb
           truthy_string default get JsonParse.obj_set];
      try reflexivity;
      destruct (includes _ _);
      cbn [negb get assoc String.eqb Ascii.eqb Bool.eqb JsonParse.obj_set]; reflexivity.
  - intros haystack needle. apply includes_spec.
Qed.

(** ** A search answered from the cache *)

(** X21: a cached search still goes to the remote for the messages.  When
    [searchEmails] finds a live entry for its search, it makes no
    [list_messages] invocation and records the search with an execution time
    of 0; but the listing is formatted with content as ever: the tool does
    what [formatEmailResultsWithContent] does on the cached text, fetching up
    to five messages through sessions of their own. *)
Theorem cached_search_still_fetches_the_messages :
  forall render_full render_fallback userId args history w entry,
    JsMap.get
      (cacheKey userId "list_messages"
         (JObj (JsonParse.obj_set "labelIds" (strings ["INBOX"]) (SearchEmails.spread args))))
      (searchCache w) = Some entry ->
    now w - timestamp entry < CACHE_TTL ->
    let run := searchEmails render_full render_fallback userId args history w in
    let listing :=
      formatEmailResultsWithContent render_full render_fallback (result entry) userId w in
    text_of (outcome_of run) = outcome_of listing
    /\ world_of run = world_of listing
    /\ trace_of run = trace_of listing
    /\ tool_calls "list_messages" (trace_of run) = 0%nat
    /\ history_of (outcome_of run) history
       = save_search_history userId (SearchEmails.q args) (result entry) 0 history.
Proof.
  intros render_full render_fallback userId args history w entry Hget Hlive. cbv zeta.
  rewrite searchEmails_run.
  rewrite (executor_serves_live_entry "list_messages" _ userId
             (mkOptions (Some true) None None) w entry eq_refl eq_refl Hget Hlive).
  rewrite Z.sub_diag.
  pose proof (formatEmailResultsWithContent_calls render_full render_fallback
                (result entry) userId w) as Hcalls.
  destruct (formatEmailResultsWithContent_returns render_full render_fallback
              (result entry) userId w) as [text Htext].
  destruct (formatEmailResultsWithContent _ _ (result entry) userId w) as [[o w2] t2].
  unfold outcome_of, world_of, trace_of in *. cbn [fst snd app] in *. subst o.
  cbn [text_of history_of fst snd].
  repeat split.
  apply no_calls_of. intros j name a Hin. apply Hcalls in Hin.
  destruct Hin as [-> _]. discriminate.
Qed.

(** ** The tools that format without content *)

(** X22: [semanticEmailSearch] and [enhancedEmailSearch] are their search
    and the list normalizer.  Each does to the world exactly what its one
    call of the executor does (so at most three sessions, and none on a cache
    hit), throws what that call throws, and returns what [formatEmailResults]
    makes of the text that call returns. *)
Theorem semantic_and_enhanced_search_format_the_list_only :
  forall format_email userId history w,
    (forall args,
       let gmailQuery := buildGmailQuery (SemanticSearch.params args) in
       let call :=
         executeGmailToolEnhanced "list_messages"
           (JObj [("q", JStr gmailQuery);
                  ("maxResults", JNum (SemanticSearch.maxResults args));
                  ("labelIds",
                   strings (if includes gmailQuery "in:sent"
                               || includes gmailQuery ("from:" ++ userId)
                            then ["SENT"] else ["INBOX"]))])
           userId (mkOptions (Some true) None None) w in
       let run := semanticEmailSearch format_email userId args history w in
       world_of run = world_of call
       /\ trace_of run = trace_of call
       /\ (forall e, outcome_of call = Throw e -> outcome_of run = Throw e)
       /\ (forall text,
             outcome_of call = Return (Some (JStr text)) ->
             text_of (outcome_of run)
             = Return (Some (JStr (formatEmailResults format_email text)))))
    /\ (forall args,
       let call :=
         executeGmailToolEnhanced "list_messages"
           (JObj (add_inbox_filter (Some (EnhancedSearch.q args)) (EnhancedSearch.spread args)))
           userId (mkOptions (Some true) None None) w in
       let run := enhancedEmailSearch format_email userId args history w in
       world_of run = world_of call
       /\ trace_of run = trace_of call
       /\ (forall e, outcome_of call = Throw e -> outcome_of run = Throw e)
       /\ (forall text,
             outcome_of call = Return (Some (JStr text)) ->
             text_of (outcome_of run)
             = Return (Some (JStr (formatEmailResults format_email text))))).
Proof.
  intros format_email userId history w. split.
  - intros args. cbv zeta.
    rewrite (semanticEmailSearch_run format_email userId args history w). cbv zeta.
    destruct (executeGmailToolEnhanced _ _ _ _ w) as [[[result|e] w1] t1];
      unfold outcome_of, world_of, trace_of; cbn [fst snd text_of];
      (split; [reflexivity|]); (split; [reflexivity|]); split;
      try discriminate.
    + intros text [= ->]. rewrite formatEmailResults_any_string. reflexivity.
    + intros e0 [= ->]. reflexivity.
  - intros args. cbv zeta. rewrite enhancedEmailSearch_run.
    destruct (executeGmailToolEnhanced _ _ _ _ w) as [[[result|e] w1] t1];
      unfold outcome_of, world_of, trace_of; cbn [fst snd text_of];
      (split; [reflexivity|]); (split; [reflexivity|]); split;
      try discriminate.
    + intros text [= ->]. rewrite formatEmailResults_any_string. reflexivity.
    + intros e0 [= ->]. reflexivity.
Qed.

(** ** The cache is shared between the tools *)

(** X23: the search tools share their cache entries.  The key of an entry
    names the caller, the remote procedure and the serialized arguments, not
    the tool; so when [searchEmails] has returned, a [semanticEmailSearch] of
    the same caller whose built query and result limit are those of that
    search, and whose query names no sent mail, is answered from the entry
    [searchEmails] left, as long as the entry is live: it opens no session,
    and formats and records the cached text. *)
Theorem search_tools_share_cache_entries :
  forall format_email render_full render_fallback userId sargs margs history w text,
    buildGmailQuery (SemanticSearch.params margs) = SearchEmails.q sargs ->
    SemanticSearch.maxResults margs = SearchEmails.maxResults sargs ->
    includes (SearchEmails.q sargs) "in:sent"
    || includes (SearchEmails.q sargs) ("from:" ++ userId) = false ->
    (length (searchCache w) <= 100)%nat ->
    let first := searchEmails render_full render_fallback userId sargs history w in
    text_of (outcome_of first) = Return text ->
    exists entry,
      JsMap.get
        (cacheKey userId "list_messages"
           (JObj (JsonParse.obj_set "labelIds" (strings ["INBOX"]) (SearchEmails.spread sargs))))
        (searchCache (world_of first)) = Some entry
      /\ forall history2 w2,
           searchCache w2 = searchCache (world_of first) ->
           now w2 - timestamp entry < CACHE_TTL ->
           semanticEmailSearch format_email userId margs history2 w2
           = (Return (formatEmailResults_any format_email (result entry),
                      save_search_history userId (SearchEmails.q sargs) (result entry) 0
                        history2),
              w2, []).
Proof.
  intros format_email render_full render_fallback userId sargs margs history w text
         Hq Hm Hsent Hlen. cbv zeta.
  rewrite searchEmails_run.
  destruct (executeGmailToolEnhanced _ _ _ _ w) as [[[result|e] w1] t1] eqn:Hrun;
    [|discriminate].
  destruct (executor_result_is_cached "list_messages" _ userId
              (mkOptions (Some true) None None) w result w1 t1 eq_refl eq_refl Hlen Hrun)
    as (entry & Hget & _).
  pose proof (oblivious_cache _ w1
                (formatEmailResultsWithContent_oblivious render_full render_fallback
                   result userId)) as Hkeep.
  destruct (formatEmailResultsWithContent _ _ result userId w1) as [[[text1|e] w2] t2];
    [|discriminate].
  unfold world_of in *. cbn [fst snd] in *. intros _.
  exists entry. split; [rewrite Hkeep; exact Hget|].
  intros history2 w3 Hcache Hlive.
  rewrite (semanticEmailSearch_run format_email userId margs history2 w3). cbv zeta.
  rewrite Hq, Hm, Hsent.
  rewrite (executor_serves_live_entry "list_messages" _ userId
             (mkOptions (Some true) None None) w3 entry eq_refl eq_refl).
  - rewrite Z.sub_diag. reflexivity.
  - rewrite Hcache, Hkeep. exact Hget.
  - exact Hlive.
Qed.

(** ** The list normalizer renders all messages or none *)

Lemma forEach_email_all format_email block emails :
  forall index acc,
    (forall i email, nth_error emails i = Some email ->
       format_email email (index + i)%nat = Return (block email (index + i)%nat)) ->
    forEach_email format_email emails index acc
    = Return (acc ++ previews block emails index).
Proof.
  induction emails as [|email rest IH]; intros index acc Hall.
  - cbn [forEach_email previews]. f_equal.
    clear. induction acc as [|c acc IH]; simpl; congruence.
  - cbn [forEach_email previews].
    pose proof (Hall 0%nat email eq_refl) as H0. rewrite Nat.add_0_r in H0. rewrite H0.
    cbn [and_then]. rewrite IH.
    + rewrite append_assoc. reflexivity.
    + intros i e Hi. replace (S index + i)%nat with (index + S i)%nat by lia.
      apply Hall. exact Hi.
Qed.

Lemma forEach_email_throws format_email emails :
  forall index acc i email e,
    nth_error emails i = Some email ->
    format_email email (index + i)%nat = Throw e ->
    exists e', forEach_email format_email emails index acc = Throw e'.
Proof.
  induction emails as [|first rest IH]; intros index acc i email e Hnth Hthrow.
  - destruct i; discriminate.
  - cbn [forEach_email]. destruct i as [|i].
    + injection Hnth as ->. rewrite Nat.add_0_r in Hthrow. rewrite Hthrow.
      exists e. reflexivity.
    + destruct (format_email first index) as [block|e0]; [|exists e0; reflexivity].
      cbn [and_then]. apply (IH (S index) _ i email e Hnth).
      replace (S index + i)%nat with (index + S i)%nat by lia. exact Hthrow.
Qed.

(** X24: the list normalizer renders every message or none.  For a text
    that parses to a listing with at least one message: when the rendering of
    every message returns, the result is the header with the count, the
    blocks of all messages in the order of the listing, numbered from 0, and
    the tip; when the rendering of one message throws, whichever it is, the
    blocks of the others are dropped and the result is the raw text. *)
Theorem formatEmailResults_renders_every_message_or_none :
  forall format_email emailData parsed emails,
    JsonParse.parse emailData = Some parsed ->
    get "messages" parsed = Some (JArr emails) ->
    emails <> [] ->
    (forall block,
       (forall i email, nth_error emails i = Some email ->
          format_email email i = Return (block email i)) ->
       formatEmailResults format_email emailData
       = found_header (length emails) ++ previews block emails 0 ++ tip_line)
    /\ (forall i email e,
          nth_error emails i = Some email ->
          format_email email i = Throw e ->
          formatEmailResults format_email emailData = emailData).
Proof.
  intros format_email emailData parsed emails Hparse Hm Hne.
  assert (Htry : formatEmailResults_try format_email emailData
                 = and_then (forEach_email format_email emails 0 (found_header (length emails)))
                     (fun formattedResult => Return (formattedResult ++ tip_line))).
  { unfold formatEmailResults_try, JSON_parse. rewrite Hparse. cbn [and_then]. rewrite Hm.
    destruct parsed; try discriminate. cbn [truthy negb Array_isArray orb].
    destruct emails as [|email rest]; [congruence|]. reflexivity. }
  unfold formatEmailResults. rewrite Htry. split.
  - intros block Hall. rewrite (forEach_email_all format_email block emails 0 _ Hall).
    cbn [and_then]. rewrite append_assoc. reflexivity.
  - intros i email e Hnth Hthrow.
    destruct (forEach_email_throws format_email emails 0 (found_header (length emails))
                i email e Hnth Hthrow) as [e' He'].
    rewrite He'. reflexivity.
Qed.

(** ** The tools on a sample mailbox *)

Import Sample4.

(** [listMessages] on a working remote: the listing, then one fetch per
    message, each on a session of its own; [semanticEmailSearch] makes the
    search only; and a history store that is down changes nothing of what
    [searchEmails] returns. *)
Example tools_on_the_sample_mailbox :
  let listed := listMessages plain_full plain_fallback "alice" list_inbox (world0 mailbox) in
  let semantic := semanticEmailSearch plain_email "alice" semantic_invoice store0 (world0 mailbox) in
  let search store := searchEmails plain_full plain_fallback "alice" search_invoice store
                        (world0 mailbox) in
  outcome_of listed
  = Return (Some (JStr (found_header 2 ++ "+ fetched" ++ newline ++ "+ fetched" ++ newline
                          ++ content_tip)))
  /\ connects (trace_of listed) = [0; 1; 2]%nat
  /\ tool_calls "list_messages" (trace_of listed) = 1%nat
  /\ tool_calls "get_message" (trace_of listed) = 2%nat
  /\ searchCache (world_of listed) = []
  /\ text_of (outcome_of semantic)
     = Return (Some (JStr (found_header 2 ++ "* listed" ++ newline ++ "* listed" ++ newline
                             ++ tip_line)))
  /\ connects (trace_of semantic) = [0%nat]
  /\ rows (history_of (outcome_of semantic) store0)
     = [mkSearchHistory "alice" "invoice" (JNum "2") 460]
  /\ text_of (outcome_of (search store_down)) = text_of (outcome_of (search store0))
  /\ rows (history_of (outcome_of (search store_down)) store_down) = []
  /\ rows (history_of (outcome_of (search store0)) store0)
     = [mkSearchHistory "alice" "invoice" (JNum "2") 460].
Proof. vm_compute. repeat split. Qed.

(** The listing of six messages for a caller without a credential, with a
    fallback that cannot read a [null] message: the raw text comes back. *)
Example null_message_discards_the_listing :
  formatEmailResultsWithContent plain_full plain_fallback (Some (JStr long_listing_text))
    "alice" world_listing_cached
  = (Return (Some (JStr long_listing_text)), world_listing_cached,
     [EvGetToken "alice"; EvGetToken "alice"]).
Proof. vm_compute. reflexivity. Qed.

(** Alice's cached listing, after her credential is gone. *)
Lemma listing_degrades_witness :
  formatEmailResultsWithContent plain_full plain_fallback (Some (JStr listing_text))
    "alice" world_listing_cached
  = (Return (Some (JStr (found_header 2 ++ "- preview" ++ newline ++ "- preview" ++ newline
                           ++ content_tip))),
     world_listing_cached, [EvGetToken "alice"; EvGetToken "alice"]).
Proof.
  pose proof (listing_degrades_to_previews_without_a_credential plain_full plain_fallback
                (fun _ _ => "- preview" ++ newline) (Some (JStr listing_text)) "alice"
                world_listing_cached eq_refl eq_refl) as H.
  cbv zeta in H. rewrite H.
  - vm_compute. reflexivity.
  - vm_compute. discriminate.
  - intros [|[|[|i]]] email Hnth; vm_compute in Hnth; try discriminate;
      injection Hnth as <-; reflexivity.
Defined.

(** The same search through [searchEmails]: no session is opened, and the
    search is recorded with an execution time of 0. *)
Lemma cached_search_witness :
  let run := searchEmails plain_full plain_fallback "alice" search_invoice store0
               world_listing_cached in
  connects (trace_of run) = []
  /\ tool_calls "list_messages" (trace_of run) = 0%nat
  /\ rows (history_of (outcome_of run) store0)
     = [mkSearchHistory "alice" "invoice" (JNum "2") 0].
Proof.
  cbv zeta.
  destruct (cached_search_still_fetches_the_messages plain_full plain_fallback "alice"
              search_invoice store0 world_listing_cached
              (mkCacheEntry (Some (JStr listing_text)) 1700000000000))
    as (_ & _ & Htr & Hlist & Hhist).
  - vm_compute. reflexivity.
  - vm_compute. reflexivity.
  - split; [rewrite Htr; vm_compute; reflexivity|]. split; [exact Hlist|].
    rewrite Hhist. vm_compute. reflexivity.
Defined.

(** Alice searches for "invoice" with [searchEmails], and then with
    [semanticEmailSearch]. *)
Lemma shared_entry_witness :
  let first := searchEmails plain_full plain_fallback "alice" search_invoice store0
                 (world0 mailbox) in
  trace_of (semanticEmailSearch plain_email "alice" semantic_invoice store0 (world_of first))
  = [].
Proof.
  cbv zeta.
  destruct (search_tools_share_cache_entries plain_email plain_full plain_fallback "alice"
              search_invoice semantic_invoice store0 (world0 mailbox)
              (Some (JStr (found_header 2 ++ "+ fetched" ++ newline ++ "+ fetched" ++ newline
                             ++ content_tip))))
    as (entry & Hget & Hhit).
  - reflexivity.
  - reflexivity.
  - vm_compute. reflexivity.
  - apply Nat.le_0_l.
  - vm_compute. reflexivity.
  - rewrite (Hhit store0 _ eq_refl); [reflexivity|].
    vm_compute in Hget. injection Hget as <-. vm_compute. reflexivity.
Defined.

(** The sample listing, and the listing of six messages for a rendering
    that cannot read the [null] among them. *)
Lemma formatEmailResults_witness :
  formatEmailResults plain_email listing_text
  = found_header 2 ++ "* listed" ++ newline ++ "* listed" ++ newline ++ tip_line
  /\ formatEmailResults plain_fallback long_listing_text = long_listing_text.
Proof.
  split.
  - destruct (formatEmailResults_renders_every_message_or_none plain_email listing_text
                listing
                [JObj [("id", JStr "m1"); ("snippet", JStr "first")];
                 JObj [("id", JStr "m2"); ("snippet", JStr "second")]])
      as [Hall _].
    + vm_compute. reflexivity.
    + reflexivity.
    + discriminate.
    + rewrite (Hall (fun _ _ => "* listed" ++ newline)); [reflexivity|].
      intros i email _. reflexivity.
  - destruct (formatEmailResults_renders_every_message_or_none plain_fallback
                long_listing_text
                (JObj [("messages",
                        JArr [JObj [("id", JStr "m1")]; JObj [("id", JStr "m2")]; JNull;
                              JObj [("id", JStr "m4")]; JObj [("id", JStr "m5")];
                              JObj [("id", JStr "m6")]])])
                [JObj [("id", JStr "m1")]; JObj [("id", JStr "m2")]; JNull;
                 JObj [("id", JStr "m4")]; JObj [("id", JStr "m5")];
                 JObj [("id", JStr "m6")]])
      as [_ Hnone].
    + vm_compute. reflexivity.
    + reflexivity.
    + discriminate.
    + apply (Hnone 2%nat JNull (TypeError "Cannot read properties of null (reading 'payload')"));
        reflexivity.
Defined.

(** ** Strings as [JSON.stringify] quotes them *)

Lemma string_body_plain c rest :
  (JsonParse.code c =? 34)%N = false ->
  (JsonParse.code c =? 92)%N = false ->
  (JsonParse.code c <? 32)%N = false ->
  JsonParse.string_body (String c rest)
  = JsonParse.prepend (String c "") (JsonParse.string_body rest).
Proof. intros H1 H2 H3. cbn [JsonParse.string_body]. rewrite H1, H2, H3. reflexivity. Qed.

Lemma string_body_simple e ch rest :
  (JsonParse.code e =? 117)%N = false ->
  JsonParse.simple_escape e = Some ch ->
  JsonParse.string_body (String "\" (String e rest))
  = JsonParse.prepend (String ch "") (JsonParse.string_body rest).
Proof. intros H1 H2. cbn [JsonParse.string_body]. cbn. rewrite H1, H2. reflexivity. Qed.

Lemma string_body_unicode h1 h2 h3 h4 hi text rest :
  JsonParse.hex4 h1 h2 h3 h4 = Some hi ->
  JsonParse.is_high_surrogate hi = false ->
  JsonParse.utf8 hi = text ->
  JsonParse.string_body (String "\" (String "u" (String h1 (String h2 (String h3 (String h4 rest))))))
  = JsonParse.prepend text (JsonParse.string_body rest).
Proof.
  intros Hhex Hhigh <-.
  change (JsonParse.string_body
            (String "\" (String "u" (String h1 (String h2 (String h3 (String h4 rest)))))))
    with (match JsonParse.hex4 h1 h2 h3 h4 with
          | None => None
          | Some hi =>
              match rest with
              | String b (String u (String l1 (String l2 (String l3 (String l4 rest3))))) =>
                  match JsonParse.hex4 l1 l2 l3 l4 with
                  | Some lo =>
                      if JsonParse.is_high_surrogate hi && (JsonParse.code b =? 92)%N
                         && (JsonParse.code u =? 117)%N && JsonParse.is_low_surrogate lo
                      then JsonParse.prepend
                             (JsonParse.utf8 (65536 + (hi - 55296) * 1024 + (lo - 56320))%N)
                             (JsonParse.string_body rest3)
                      else JsonParse.prepend (JsonParse.utf8 hi) (JsonParse.string_body rest)
                  | None => JsonParse.prepend (JsonParse.utf8 hi) (JsonParse.string_body rest)
                  end
              | _ => JsonParse.prepend (JsonParse.utf8 hi) (JsonParse.string_body rest)
              end
          end).
  rewrite Hhex.
  destruct rest as [|b [|u [|l1 [|l2 [|l3 [|l4 rest3]]]]]]; try reflexivity.
  destruct (JsonParse.hex4 l1 l2 l3 l4); [|reflexivity].
  rewrite Hhigh. reflexivity.
Qed.

(** Reading back one quoted character. *)
Lemma string_body_quote_char c rest :
  JsonParse.string_body (quote_char c ++ rest)
  = JsonParse.prepend (String c "") (JsonParse.string_body rest).
Proof.
  destruct c as [[] [] [] [] [] [] [] []];
    match goal with
    | |- context [quote_char ?c] =>
        let v := eval vm_compute in (quote_char c) in
        change (quote_char c) with v
    end;
    cbn [append];
    first [ apply string_body_plain; reflexivity
          | apply string_body_simple; reflexivity
          | eapply string_body_unicode; reflexivity ].
Qed.

(** [JSON.parse] reads back what [JSON.stringify] quoted. *)
Lemma string_body_quote_chars s rest :
  JsonParse.string_body (quote_chars s ++ dquote ++ rest) = Some (s, rest).
Proof.
  induction s as [|c s IH]; [reflexivity|].
  cbn [quote_chars]. rewrite append_assoc, string_body_quote_char, IH. reflexivity.
Qed.

(** A quoted string is read in one way. *)
Lemma quote_unique s1 s2 r1 r2 :
  quote s1 ++ r1 = quote s2 ++ r2 -> s1 = s2 /\ r1 = r2.
Proof.
  unfold quote. rewrite !append_assoc. cbn [dquote append]. intros [= H].
  rewrite ?append_assoc in H.
  pose proof (string_body_quote_chars s1 r1) as H1.
  pose proof (string_body_quote_chars s2 r2) as H2.
  cbn [dquote append] in H1, H2. rewrite H in H1. rewrite H1 in H2.
  injection H2 as -> ->. split; reflexivity.
Qed.

(** ** Values as [JSON.stringify] writes them *)

Lemma join_after_first rest :
  forall part closing,
    join "," (part :: rest) ++ closing = part ++ after_first rest closing.
Proof.
  induction rest as [|next rest IH]; intros part closing.
  - reflexivity.
  - change (join "," (part :: next :: rest)) with (part ++ "," ++ join "," (next :: rest)).
    rewrite !append_assoc, IH. reflexivity.
Qed.

Lemma join_seq_text parts closing : join "," parts ++ closing = seq_text parts closing.
Proof. destruct parts as [|part rest]; [reflexivity|apply join_after_first]. Qed.

Lemma stringify_array items rest :
  stringify (JArr items) ++ rest
  = String "[" (seq_text (map stringify items) (String "]" rest)).
Proof.
  rewrite <- join_seq_text. unfold stringify. cbn [serialize append]. unfold wrap.
  destruct items as [|item items]; [reflexivity|].
  cbn [map is_empty]. rewrite append_assoc. cbn [append]. rewrite append_assoc. reflexivity.
Qed.

Lemma stringify_object members rest :
  stringify (JObj members) ++ rest
  = String "{" (seq_text (map member_text members) (String "}" rest)).
Proof.
  rewrite <- join_seq_text. unfold stringify. cbn [serialize]. unfold wrap.
  match goal with
  | |- context [map ?f members] =>
      assert (Hmap : map f members = map member_text members)
        by (apply map_ext; intros [k x]; reflexivity);
      rewrite Hmap
  end.
  cbn [is_empty].
  destruct (map member_text members) as [|part parts]; [reflexivity|].
  rewrite append_assoc. cbn [append]. rewrite append_assoc. reflexivity.
Qed.

Lemma number_char_not_delimiter c rest :
  is_number_char c = true -> delimited (String c rest) = false.
Proof. destruct c as [[] [] [] [] [] [] [] []]; vm_compute; congruence. Qed.

Lemma number_head_not_delimiter c rest :
  JsonParse.is_digit c || (c =? "-")%char = true -> delimited (String c rest) = false.
Proof. destruct c as [[] [] [] [] [] [] [] []]; vm_compute; congruence. Qed.

(** A value does not start with a comma or a closing bracket. *)
Lemma stringify_head v rest :
  well_formed v = true -> delimited (stringify v ++ rest) = false.
Proof.
  destruct v as [|[]|text|s|items|members]; intros Hwf.
  - reflexivity.
  - reflexivity.
  - reflexivity.
  - destruct text as [|c text]; [discriminate|].
    cbn [well_formed number_text] in Hwf. apply andb_prop in Hwf.
    apply number_head_not_delimiter. tauto.
  - reflexivity.
  - rewrite stringify_array. reflexivity.
  - rewrite stringify_object. reflexivity.
Qed.

(** A number's text ends where the first character that is not of a number
    stands. *)
Lemma number_unique t1 :
  forall t2 r1 r2,
    number_chars t1 = true -> number_chars t2 = true ->
    delimited r1 = true -> delimited r2 = true ->
    t1 ++ r1 = t2 ++ r2 -> t1 = t2 /\ r1 = r2.
Proof.
  induction t1 as [|c t1 IH]; intros [|d t2] r1 r2 H1 H2 Hr1 Hr2 Heq; cbn [append] in Heq.
  - split; [reflexivity|exact Heq].
  - subst r1. cbn [number_chars] in H2. apply andb_prop in H2.
    rewrite number_char_not_delimiter in Hr1 by tauto. discriminate.
  - subst r2. cbn [number_chars] in H1. apply andb_prop in H1.
    rewrite number_char_not_delimiter in Hr2 by tauto. discriminate.
  - injection Heq as -> Heq. cbn [number_chars] in H1, H2.
    apply andb_prop in H1. apply andb_prop in H2.
    destruct (IH t2 r1 r2) as [-> ->]; first [tauto|split; reflexivity].
Qed.

Section Sequences.

Variable A : Type.
Variable text : A -> string.
Variable ok : A -> Prop.

Hypothesis text_head : forall y t, ok y -> delimited (text y ++ t) = false.

Lemma after_first_delimited parts c rest :
  delimited (String c rest) = true -> delimited (after_first parts (String c rest)) = true.
Proof. destruct parts; intros H; [exact H|reflexivity]. Qed.

Lemma after_first_unique c l1 :
  (c = "]" \/ c = "}")%char ->
  Forall (read_once text ok) l1 ->
  forall l2 r1 r2,
    Forall ok l2 ->
    after_first (map text l1) (String c r1) = after_first (map text l2) (String c r2) ->
    l1 = l2 /\ r1 = r2.
Proof.
  intros Hc Hall. induction Hall as [|x l1 Hx Hall IH]; intros [|y l2] r1 r2 Hok Heq;
    cbn [map after_first append] in Heq.
  - injection Heq as ->. split; reflexivity.
  - exfalso. destruct Hc as [-> | ->]; discriminate.
  - exfalso. destruct Hc as [-> | ->]; discriminate.
  - injection Heq as Heq. inversion Hok as [|? ? Hy Hok']; subst.
    assert (Hd : forall l r, delimited (after_first (map text l) (String c r)) = true).
    { intros l r. apply after_first_delimited. destruct Hc as [-> | ->]; reflexivity. }
    destruct (Hx y _ _ Hy (Hd _ _) (Hd _ _) Heq) as [-> Htail].
    destruct (IH l2 r1 r2 Hok' Htail) as [-> ->]. split; reflexivity.
Qed.

Lemma seq_text_unique c l1 :
  (c = "]" \/ c = "}")%char ->
  Forall (read_once text ok) l1 ->
  forall l2 r1 r2,
    Forall ok l1 -> Forall ok l2 ->
    seq_text (map text l1) (String c r1) = seq_text (map text l2) (String c r2) ->
    l1 = l2 /\ r1 = r2.
Proof.
  intros Hc Hall l2 r1 r2 Hok1 Hok2 Heq.
  assert (Hclose : forall r, delimited (String c r) = true)
    by (intros r; destruct Hc as [-> | ->]; reflexivity).
  destruct l1 as [|x l1], l2 as [|y l2]; cbn [map seq_text] in Heq.
  - injection Heq as ->. split; reflexivity.
  - exfalso. inversion Hok2 as [|? ? Hy _]; subst.
    pose proof (text_head y (after_first (map text l2) (String c r2)) Hy) as Hhead.
    rewrite <- Heq, Hclose in Hhead. discriminate.
  - exfalso. inversion Hok1 as [|? ? Hx _]; subst.
    pose proof (text_head x (after_first (map text l1) (String c r1)) Hx) as Hhead.
    rewrite Heq, Hclose in Hhead. discriminate.
  - inversion Hall as [|? ? Hx Hall']; subst.
    inversion Hok2 as [|? ? Hy Hok2']; subst.
    destruct (Hx y _ _ Hy (after_first_delimited _ _ _ (Hclose r1))
                (after_first_delimited _ _ _ (Hclose r2)) Heq) as [-> Htail].
    destruct (after_first_unique c l1 Hc Hall' l2 r1 r2 Hok2' Htail) as [-> ->].
    split; reflexivity.
Qed.

End Sequences.

Lemma forallb_Forall {A : Type} (f : A -> bool) l :
  forallb f l = true -> Forall (fun x => f x = true) l.
Proof.
  intros H. apply Forall_forall. intros x Hin.
  rewrite forallb_forall in H. apply H. exact Hin.
Qed.

(** [JSON.stringify] writes a value in one way: a text that starts with the
    serialization of a value, followed by nothing, a comma or a closing
    bracket, starts with the serialization of no other value. *)
Lemma stringify_unique v1 :
  well_formed v1 = true ->
  forall v2 r1 r2,
    well_formed v2 = true -> delimited r1 = true -> delimited r2 = true ->
    stringify v1 ++ r1 = stringify v2 ++ r2 -> v1 = v2 /\ r1 = r2.
Proof.
  induction v1 as [|b1|t1|s1|items1 IH|members1 IH] using json_induction;
    intros Hwf1 v2 r1 r2 Hwf2 Hr1 Hr2 Heq.
  - destruct v2 as [|[]|[|c t2]|s2|items2|members2];
      rewrite ?stringify_array, ?stringify_object in Heq; try discriminate.
    + injection Heq as ->. split; reflexivity.
    + exfalso. cbn in Heq. injection Heq as <- _. discriminate.
  - destruct v2 as [|b2|[|c t2]|s2|items2|members2];
      rewrite ?stringify_array, ?stringify_object in Heq;
      destruct b1; try destruct b2; try discriminate;
      try (injection Heq as ->; split; reflexivity);
      exfalso; cbn in Heq; injection Heq as <- _; discriminate.
  - destruct t1 as [|c t1]; [discriminate|].
    destruct v2 as [|[]|[|d t2]|s2|items2|members2];
      rewrite ?stringify_array, ?stringify_object in Heq;
      try discriminate;
      try (exfalso; cbn in Heq; injection Heq as -> _; discriminate).
    cbn in Heq. injection Heq as -> Heq.
    cbn [well_formed number_text] in Hwf1, Hwf2.
    apply andb_prop in Hwf1. apply andb_prop in Hwf2.
    destruct (number_unique t1 t2 r1 r2) as [-> ->]; first [tauto|split; reflexivity].
  - destruct v2 as [|[]|[|c t2]|s2|items2|members2];
      rewrite ?stringify_array, ?stringify_object in Heq; try discriminate.
    + exfalso. cbn in Heq. injection Heq as <- _. discriminate.
    + change (stringify (JStr s1)) with (quote s1) in Heq.
      change (stringify (JStr s2)) with (quote s2) in Heq.
      apply quote_unique in Heq. destruct Heq as [-> ->]. split; reflexivity.
  - destruct v2 as [|[]|[|c t2]|s2|items2|members2];
      rewrite ?stringify_array, ?stringify_object in Heq; try discriminate.
    + exfalso. cbn in Heq. injection Heq as <- _. discriminate.
    + injection Heq as Heq.
      cbn [well_formed] in Hwf1, Hwf2.
      apply forallb_Forall in Hwf1. apply forallb_Forall in Hwf2.
      destruct (seq_text_unique json stringify (fun v => well_formed v = true)
                  (fun y t => stringify_head y t) "]" items1 (or_introl eq_refl))
        with (l2 := items2) (r1 := r1) (r2 := r2) as [-> ->]; try assumption.
      * apply Forall_forall. intros x Hin y t1 t2 Hy Ht1 Ht2 Hxy.
        rewrite Forall_forall in IH, Hwf1. apply (IH x Hin (Hwf1 x Hin) y t1 t2 Hy Ht1 Ht2 Hxy).
      * split; reflexivity.
  - destruct v2 as [|[]|[|c t2]|s2|items2|members2];
      rewrite ?stringify_array, ?stringify_object in Heq; try discriminate.
    + exfalso. cbn in Heq. injection Heq as <- _. discriminate.
    + injection Heq as Heq.
      cbn [well_formed] in Hwf1, Hwf2.
      apply forallb_Forall in Hwf1. apply forallb_Forall in Hwf2.
      destruct (seq_text_unique (string * json) member_text
                  (fun kv => well_formed (snd kv) = true)) with
        (c := "}"%char) (l1 := members1) (l2 := members2) (r1 := r1) (r2 := r2)
        as [-> ->]; try assumption.
      * intros [k y] t _. reflexivity.
      * right. reflexivity.
      * apply Forall_forall. intros [k1 x] Hin [k2 y] t1 t2 Hy Ht1 Ht2 Hxy.
        unfold member_text in Hxy. cbn [fst snd] in *. rewrite !append_assoc in Hxy.
        apply quote_unique in Hxy. destruct Hxy as [-> Hxy].
        cbn [append] in Hxy. injection Hxy as Hxy.
        rewrite Forall_forall in IH, Hwf1.
        destruct (IH (k2, x) Hin (Hwf1 (k2, x) Hin) y t1 t2 Hy Ht1 Ht2 Hxy) as [Hv ->].
        cbn [snd] in Hv. subst y. split; reflexivity.
      * split; reflexivity.
Qed.

(** [JSON.stringify] is injective on well-formed values. *)
Lemma stringify_injective v1 v2 :
  well_formed v1 = true -> well_formed v2 = true ->
  stringify v1 = stringify v2 -> v1 = v2.
Proof.
  intros H1 H2 Heq.
  destruct (stringify_unique v1 H1 v2 "" "" H2 eq_refl eq_refl) as [Hv _]; [|exact Hv].
  rewrite Heq. reflexivity.
Qed.

(** ** Cache keys *)

Lemma append_cancel_l (a b c : string) : a ++ b = a ++ c -> b = c.
Proof. induction a as [|x a IH]; cbn [append]; [auto|]. intros [= H]. auto. Qed.

Lemma cacheKey_injective userId1 toolName1 args1 userId2 toolName2 args2 :
  has_colon userId1 = false -> has_colon userId2 = false ->
  has_colon toolName1 = false -> has_colon toolName2 = false ->
  well_formed args1 = true -> well_formed args2 = true ->
  cacheKey userId1 toolName1 args1 = cacheKey userId2 toolName2 args2 ->
  userId1 = userId2 /\ toolName1 = toolName2 /\ args1 = args2.
Proof.
  intros Hu1 Hu2 Ht1 Ht2 Ha1 Ha2 Heq. unfold cacheKey in Heq.
  destruct (colon_split _ _ _ _ Hu1 Hu2 Heq) as [-> Heq1].
  destruct (colon_split _ _ _ _ Ht1 Ht2 Heq1) as [-> Heq2].
  repeat split. apply stringify_injective; assumption.
Qed.

(** X25: a cache key stands for one call.  With callers and tools named
    by strings without a colon and arguments whose numbers are written as
    numbers, two calls have the same key only if they have the same caller,
    the same tool and the same arguments: [JSON.stringify] writes different
    values differently.  Hence, in a cache whose every entry holds a result
    that belongs to the caller, tool and arguments of its key, a call that is
    answered from the cache is answered with a result that belongs to its own
    caller, tool and arguments; and [searchEmails] is never answered with the
    listing cached for another query or another result limit. *)
Theorem cache_keys_distinguish_their_calls :
  forall userId toolName args,
    has_colon userId = false -> has_colon toolName = false -> well_formed args = true ->
    (forall userId2 toolName2 args2,
       has_colon userId2 = false -> has_colon toolName2 = false -> well_formed args2 = true ->
       cacheKey userId toolName args = cacheKey userId2 toolName2 args2 ->
       userId = userId2 /\ toolName = toolName2 /\ args = args2)
    /\ (forall belongs options w cachedResult,
          labelled belongs (searchCache w) ->
          cached_result (default true (useCache options)) toolName args userId w
          = Some cachedResult ->
          executeGmailToolEnhanced toolName args userId options w = (Return cachedResult, w, [])
          /\ belongs userId toolName args cachedResult)
    /\ (forall search1 search2,
          number_text (SearchEmails.maxResults search1) = true ->
          number_text (SearchEmails.maxResults search2) = true ->
          cacheKey userId "list_messages"
            (JObj (JsonParse.obj_set "labelIds" (strings ["INBOX"]) (SearchEmails.spread search1)))
          = cacheKey userId "list_messages"
              (JObj (JsonParse.obj_set "labelIds" (strings ["INBOX"])
                       (SearchEmails.spread search2))) ->
          search1 = search2).
Proof.
  intros userId toolName args Hu Ht Ha. split; [|split].
  - intros userId2 toolName2 args2 Hu2 Ht2 Ha2. apply cacheKey_injective; assumption.
  - intros belongs options w cachedResult Hlab Hhit. split.
    + rewrite executeGmailToolEnhanced_run. cbv zeta. rewrite Hhit. reflexivity.
    + unfold cached_result in Hhit.
      destruct (default true (useCache options) && is_search_tool toolName); [|discriminate].
      destruct (JsMap.get (cacheKey userId toolName args) (searchCache w)) as [entry|] eqn:Hget;
        [|discriminate].
      destruct (now w - timestamp entry <? CACHE_TTL); [|discriminate].
      injection Hhit as <-.
      unfold labelled in Hlab. induction Hlab as [|[k e] m Hk Hm IH]; [discriminate|].
      cbn [JsMap.get] in Hget. destruct (String.eqb k (cacheKey userId toolName args)) eqn:E.
      * injection Hget as ->. apply String.eqb_eq in E. cbn [fst snd] in Hk.
        destruct Hk as (u & t & a & Hkey & Hcu & Hct & Hwa & Hb).
        rewrite Hkey in E.
        destruct (cacheKey_injective _ _ _ _ _ _ Hcu Hu Hct Ht Hwa Ha E) as (-> & -> & ->).
        exact Hb.
      * apply IH. exact Hget.
  - intros [q1 m1] [q2 m2] Hm1 Hm2 Heq. cbn [SearchEmails.maxResults] in Hm1, Hm2.
    unfold cacheKey in Heq. apply append_cancel_l in Heq.
    apply (append_cancel_l ":list_messages:") in Heq.
    apply stringify_injective in Heq.
    + cbn in Heq. injection Heq as -> ->. reflexivity.
    + cbn. rewrite Hm1. reflexivity.
    + cbn. rewrite Hm2. reflexivity.
Qed.

(** Alice's search for "invoice", cached, and the same search made again. *)
Lemma cache_keys_witness :
  executeGmailToolEnhanced "list_messages" Sample.args0 "alice" Sample.search_options
    Sample.world_cached_and_disconnected
  = (Return (Some (JStr "cached text")), Sample.world_cached_and_disconnected, []).
Proof.
  destruct (cache_keys_distinguish_their_calls "alice" "list_messages" Sample.args0
              eq_refl eq_refl eq_refl) as (_ & Hhit & _).
  destruct (Hhit (fun _ _ _ _ => True) Sample.search_options
              Sample.world_cached_and_disconnected (Some (JStr "cached text"))) as [Hrun _].
  - constructor; [|constructor].
    exists "alice", "list_messages", Sample.args0. repeat split.
  - reflexivity.
  - exact Hrun.
Defined.

(** ** The connection URL *)

Lemma b64_index_char n : (n < 64)%nat -> b64_index (b64_char n) = n.
Proof.
  intros Hn. do 64 (destruct n as [|n]; [reflexivity|]). lia.
Qed.

Lemma b64_char_not_padding n : Ascii.eqb (b64_char n) "=" = false.
Proof.
  do 64 (destruct n as [|n]; [reflexivity|]). destruct n; reflexivity.
Qed.

Lemma three_by_three (P : list nat -> Prop) :
  P [] -> (forall a, P [a]) -> (forall a b, P [a; b]) ->
  (forall a b c rest, P rest -> P (a :: b :: c :: rest)) ->
  forall l, P l.
Proof.
  intros H0 H1 H2 H3 l.
  assert (H : P l /\ (forall a, P (a :: l)) /\ (forall a b, P (a :: b :: l))).
  { induction l as [|x l (IH0 & IH1 & IH2)].
    - repeat split; auto.
    - split; [apply IH1|]. split; [intros a; apply IH2|].
      intros a b. apply H3. exact IH0. }
  tauto.
Qed.

Lemma sextets a b c :
  (a < 256)%nat -> (b < 256)%nat -> (c < 256)%nat ->
  (Nat.div a 4 < 64
   /\ Nat.modulo a 4 * 16 + Nat.div b 16 < 64
   /\ Nat.modulo b 16 * 4 + Nat.div c 64 < 64
   /\ Nat.modulo c 64 < 64
   /\ Nat.div a 4 * 4 + Nat.div (Nat.modulo a 4 * 16 + Nat.div b 16) 16 = a
   /\ Nat.modulo (Nat.modulo a 4 * 16 + Nat.div b 16) 16 * 16
      + Nat.div (Nat.modulo b 16 * 4 + Nat.div c 64) 4 = b
   /\ Nat.modulo (Nat.modulo b 16 * 4 + Nat.div c 64) 4 * 64 + Nat.modulo c 64 = c)%nat.
Proof.
  intros Ha Hb Hc.
  pose proof (Nat.div_mod_eq a 4) as Ea. pose proof (Nat.mod_upper_bound a 4 ltac:(lia)) as Ma.
  pose proof (Nat.div_mod_eq b 16) as Eb. pose proof (Nat.mod_upper_bound b 16 ltac:(lia)) as Mb.
  pose proof (Nat.div_mod_eq c 64) as Ec. pose proof (Nat.mod_upper_bound c 64 ltac:(lia)) as Mc.
  assert (Da : (Nat.div a 4 < 64)%nat) by (apply Nat.Div0.div_lt_upper_bound; lia).
  assert (Db : (Nat.div b 16 < 16)%nat) by (apply Nat.Div0.div_lt_upper_bound; lia).
  assert (Dc : (Nat.div c 64 < 4)%nat) by (apply Nat.Div0.div_lt_upper_bound; lia).
  assert (Q2 : (Nat.div (Nat.modulo a 4 * 16 + Nat.div b 16) 16 = Nat.modulo a 4)%nat).
  { rewrite Nat.div_add_l by lia. rewrite (Nat.div_small (Nat.div b 16)) by lia. lia. }
  assert (R2 : (Nat.modulo (Nat.modulo a 4 * 16 + Nat.div b 16) 16 = Nat.div b 16)%nat).
  { rewrite Nat.add_comm, Nat.Div0.mod_add. apply Nat.mod_small. lia. }
  assert (Q3 : (Nat.div (Nat.modulo b 16 * 4 + Nat.div c 64) 4 = Nat.modulo b 16)%nat).
  { rewrite Nat.div_add_l by lia. rewrite (Nat.div_small (Nat.div c 64)) by lia. lia. }
  assert (R3 : (Nat.modulo (Nat.modulo b 16 * 4 + Nat.div c 64) 4 = Nat.div c 64)%nat).
  { rewrite Nat.add_comm, Nat.Div0.mod_add. apply Nat.mod_small. lia. }
  rewrite Q2, R2, Q3, R3. repeat split; lia.
Qed.

(** Decoding reads back the bytes that were encoded. *)
Lemma decode_groups_b64_groups bytes :
  Forall (fun n => (n < 256)%nat) bytes -> decode_groups (b64_groups bytes) = bytes.
Proof.
  induction bytes as [|a|a b|a b c rest IH] using three_by_three; intros Hall.
  - reflexivity.
  - inversion Hall as [|? ? Ha _]; subst.
    destruct (sextets a 0 0 Ha) as (S1 & S2 & _ & _ & E1 & _); try lia.
    cbn [b64_groups decode_groups]. cbn [Ascii.eqb Bool.eqb].
    change (Nat.div 0 16) with 0%nat in *. rewrite Nat.add_0_r in *.
    rewrite !b64_index_char by assumption. rewrite E1. reflexivity.
  - inversion Hall as [|? ? Ha Hall']; subst. inversion Hall' as [|? ? Hb _]; subst.
    destruct (sextets a b 0 Ha Hb) as (S1 & S2 & S3 & _ & E1 & E2 & _); try lia.
    cbn [b64_groups decode_groups]. rewrite b64_char_not_padding. cbn [Ascii.eqb Bool.eqb].
    change (Nat.div 0 64) with 0%nat in *. rewrite Nat.add_0_r in *.
    rewrite !b64_index_char by assumption. rewrite E1, E2. reflexivity.
  - inversion Hall as [|? ? Ha Hall1]; subst. inversion Hall1 as [|? ? Hb Hall2]; subst.
    inversion Hall2 as [|? ? Hc Hall3]; subst.
    destruct (sextets a b c Ha Hb Hc) as (S1 & S2 & S3 & S4 & E1 & E2 & E3).
    cbn [b64_groups decode_groups]. rewrite !b64_char_not_padding.
    rewrite !b64_index_char by assumption. rewrite E1, E2, E3, IH by assumption.
    reflexivity.
Qed.

(** The receiver of the URL reads back the text that was encoded. *)
Lemma base64_decode_base64 s : base64_decode (base64 s) = s.
Proof.
  unfold base64_decode, base64. rewrite decode_groups_b64_groups.
  - rewrite map_map. rewrite (map_ext _ (fun c => c)) by apply ascii_nat_embedding.
    rewrite map_id. apply string_of_list_ascii_of_string.
  - apply Forall_forall. intros n Hin. apply in_map_iff in Hin.
    destruct Hin as (c & <- & _). apply nat_ascii_bounded.
Qed.

(** X26: the connection URL carries the credentials, and nothing is lost.
    The URL of a call is the address of the Gmail server with "/mcp", a
    [config] parameter and, for a non-empty key, an [api_key] parameter with
    the key itself, and no [profile]; the [config] parameter is the base64 of
    the JSON text of { debug: false, CLIENT_ID, CLIENT_SECRET, REFRESH_TOKEN },
    and decoding it gives that text back.  So two calls have the same URL
    only if they use the same key, client and credential: callers with
    different refresh tokens never open a session with the same URL. *)
Theorem connection_url_carries_the_credentials :
  forall smitheryApiKey clientId clientSecret refreshToken,
    let configuration :=
      JObj [("debug", JBool false); ("CLIENT_ID", JStr clientId);
            ("CLIENT_SECRET", JStr clientSecret); ("REFRESH_TOKEN", JStr refreshToken)] in
    let url := gmailServerUrl smitheryApiKey clientId clientSecret refreshToken in
    href url = "https://server.smithery.ai/@shinzo-labs/gmail-mcp/mcp"
    /\ searchParams url
       = (("config", base64 (stringify configuration))
          :: (if truthy_string (Some smitheryApiKey) then [("api_key", smitheryApiKey)] else []))
    /\ base64_decode (base64 (stringify configuration)) = stringify configuration
    /\ (forall smitheryApiKey2 clientId2 clientSecret2 refreshToken2,
          gmailServerUrl smitheryApiKey2 clientId2 clientSecret2 refreshToken2 = url ->
          smitheryApiKey2 = smitheryApiKey /\ clientId2 = clientId
          /\ clientSecret2 = clientSecret /\ refreshToken2 = refreshToken).
Proof.
  intros k c s t. cbv zeta.
  assert (Hparams : forall k0 c0 s0 t0,
            searchParams (gmailServerUrl k0 c0 s0 t0)
            = ("config",
               base64 (stringify (JObj [("debug", JBool false); ("CLIENT_ID", JStr c0);
                                         ("CLIENT_SECRET", JStr s0);
                                         ("REFRESH_TOKEN", JStr t0)])))
              :: (if truthy_string (Some k0) then [("api_key", k0)] else [])).
  { intros k0 c0 s0 t0. unfold gmailServerUrl, createSmitheryUrl.
    cbn [config apiKey profile truthy]. destruct k0 as [|x k0]; reflexivity. }
  split; [|split; [|split]].
  - unfold gmailServerUrl, createSmitheryUrl.
    cbn [config apiKey profile truthy]. destruct k as [|x k]; reflexivity.
  - apply Hparams.
  - apply base64_decode_base64.
  - intros k2 c2 s2 t2 Hurl. apply (f_equal searchParams) in Hurl.
    rewrite !Hparams in Hurl.
    pose proof (f_equal (fun params => base64_decode (hd "" (map snd params))) Hurl) as Hconfig.
    pose proof (f_equal (@tl _) Hurl) as Hkey.
    cbv beta in Hconfig. cbn [map snd hd tl] in Hconfig, Hkey.
    rewrite !base64_decode_base64 in Hconfig.
    apply stringify_injective in Hconfig; [|reflexivity|reflexivity].
    injection Hconfig as -> -> ->.
    destruct k as [|x k], k2 as [|y k2]; cbn [truthy_string] in Hkey;
      try discriminate; [repeat split|].
    injection Hkey as -> ->. repeat split.
Qed.

(** ** A reply without a content list *)

(** X27: replies that are not a list of items.  When an attempt of a call
    succeeds with a reply whose [content] is [undefined], the call returns
    [undefined], not a string; when the content is anything but an array
    ([null], a string, a number, an object), the call returns its JSON text
    indented by two spaces; when the first item of the content is text-typed,
    the call returns the item's [text] whatever it is, also when it is absent
    or not a string.  The listings pass [undefined] on unchanged. *)
Theorem reply_without_a_content_list :
  forall toolName args userId options w k reply,
    reaches_remote options toolName args userId w ->
    Z.of_nat k <= default 2 (retries options) ->
    (forall i, (i < k)%nat ->
       exists e, attempt_outcome toolName (default 45000 (timeout options))
                   (remote w (sessions w + i)) = Throw e) ->
    attempt_outcome toolName (default 45000 (timeout options))
      (remote w (sessions w + k)) = Return reply ->
    let run := executeGmailToolEnhanced toolName args userId options w in
    (content reply = None -> outcome_of run = Return None)
    /\ (forall value,
          content reply = Some value -> Array_isArray (Some value) = false ->
          outcome_of run = Return (Some (JStr (stringify2 value))))
    /\ (forall first rest,
          content reply = Some (JArr (first :: rest)) ->
          get "type" first = Some (JStr "text") ->
          outcome_of run = Return (get "text" first))
    /\ (forall format_email render_full render_fallback w0,
          formatEmailResultsWithContent render_full render_fallback None userId w0
          = (Return None, w0, [])
          /\ formatEmailResults_any format_email None = None).
Proof.
  intros toolName args userId options w k reply Hreach Hk Hfail Hok. cbv zeta.
  assert (Hout : outcome_of (executeGmailToolEnhanced toolName args userId options w)
                 = Return (extractResultText reply)).
  { rewrite (executor_enters_loop _ _ _ _ _ Hreach).
    destruct (retry_loop_succeeds toolName args userId (default true (useCache options))
                (default 45000 (timeout options)) (default 2 (retries options))
                (serverUrl_of w userId) k
                (Z.to_nat (default 2 (retries options) + 1)) 0 None w reply)
      as (w' & tr & Hrun & _); try assumption; try lia.
    rewrite Hrun. reflexivity. }
  rewrite Hout. unfold extractResultText. split; [|split; [|split]].
  - intros ->. reflexivity.
  - intros value -> Harr. rewrite Harr, andb_false_r. reflexivity.
  - intros first rest -> Htype.
    cbn [truthy_jsval truthy Array_isArray item0 opt_get andb strict_equals_string].
    rewrite Htype. reflexivity.
  - intros format_email render_full render_fallback w0. split; reflexivity.
Qed.

(** ** The listing when every fetch is answered *)

(** A call through the legacy wrapper whose first session answers. *)
Lemma executeGmailTool_answered toolName args userId w reply :
  config_present (env w) = true ->
  truthy_string (gmailTokens w userId) = true ->
  attempt_outcome toolName 45000 (remote w (sessions w)) = Return reply ->
  executeGmailTool toolName args userId w
  = (Return (extractResultText reply),
     after_attempt toolName args userId false 45000 w,
     [EvGetToken userId; EvConnect (sessions w) (serverUrl_of w userId);
      EvCallTool (sessions w) toolName args; EvClose (sessions w)]).
Proof.
  intros Hcfg Htok Hok. unfold executeGmailTool.
  rewrite executor_enters_loop by (split; [reflexivity|split; assumption]).
  cbn [default useCache retries timeout]. change (Z.to_nat (1 + 1)) with 2%nat.
  rewrite retry_loop_S. cbv zeta. unfold attempt_result. rewrite Hok.
  rewrite (attempt_success_events _ _ _ _ _ _ _ Hok). reflexivity.
Qed.

Section Answered.

Variable render_full : json -> json -> nat -> string * option Error.
Variable render_fallback : json -> nat -> Outcome string.
Variable block : json -> nat -> string.
Variable userId : string.

Lemma fetch_email_answered email index acc w :
  config_present (env w) = true ->
  truthy_string (gmailTokens w userId) = true ->
  answers render_full block (remote w (sessions w)) email index ->
  fetch_email render_full render_fallback userId email index acc w
  = (Return (acc ++ block email index),
     after_attempt "get_message" (get_message_args (get "id" email)) userId false 45000 w,
     [EvGetToken userId; EvConnect (sessions w) (serverUrl_of w userId);
      EvCallTool (sessions w) "get_message" (get_message_args (get "id" email));
      EvClose (sessions w)]).
Proof.
  intros Hcfg Htok (Hnull & reply & fullEmail & Hok & Hparse & Hrender).
  unfold fetch_email, bind, reify, of_outcome.
  assert (Hid : read_property "id" email = Return (get "id" email))
    by (destruct email; try reflexivity; congruence).
  rewrite Hid. unfold ret at 1.
  rewrite (executeGmailTool_answered _ _ _ _ _ Hcfg Htok Hok).
  rewrite Hparse. unfold ret. cbn [app]. rewrite Hrender. cbn [fst snd app].
  rewrite ?app_nil_r. reflexivity.
Qed.

Lemma fetch_emails_answered emails :
  forall index acc w,
    config_present (env w) = true ->
    truthy_string (gmailTokens w userId) = true ->
    (forall i email, nth_error emails i = Some email ->
       answers render_full block (remote w (sessions w + i)) email (index + i)%nat) ->
    exists w' tr,
      fetch_emails render_full render_fallback userId emails index acc w
      = (Return (acc ++ previews block emails index), w', tr)
      /\ connects tr = seq (sessions w) (length emails)
      /\ invocations tr = map fetch_of emails
      /\ token_reads tr = length emails
      /\ sleeps tr = [].
Proof.
  induction emails as [|email rest IH]; intros index acc w Hcfg Htok Hall.
  - cbn [fetch_emails previews]. unfold ret. exists w, []. split; [|repeat split].
    replace (acc ++ "") with acc; [reflexivity|].
    clear. induction acc as [|c acc IH]; simpl; congruence.
  - cbn [fetch_emails previews]. unfold bind.
    pose proof (Hall 0%nat email eq_refl) as H0. rewrite !Nat.add_0_r in H0.
    rewrite (fetch_email_answered email index acc w Hcfg Htok H0).
    destruct (IH (S index) (acc ++ block email index)
                (after_attempt "get_message" (get_message_args (get "id" email)) userId
                   false 45000 w))
      as (w' & tr & Hrun & Hc & Hi & Ht & Hs).
    + exact Hcfg.
    + exact Htok.
    + intros i e Hnth.
      change (remote (after_attempt _ _ _ _ _ w)) with (remote w).
      change (sessions (after_attempt _ _ _ _ _ w)) with (S (sessions w)).
      replace (S (sessions w) + i)%nat with (sessions w + S i)%nat by lia.
      replace (S index + i)%nat with (index + S i)%nat by lia.
      apply Hall. exact Hnth.
    + rewrite Hrun. eexists _, _. split; [rewrite append_assoc; reflexivity|].
      change (sessions (after_attempt _ _ _ _ _ w)) with (S (sessions w)) in Hc.
      cbn [app connects invocations token_reads sleeps length seq map].
      rewrite Hc, Hi, Ht, Hs. repeat split.
Qed.

End Answered.

(** X28: the listing when every fetch is answered.  For a caller with a
    credential, a listing with at least one message none of whose first
    five is [null], and a remote whose next sessions each answer
    [get_message] with a message that parses and renders: the listing with
    content is the header, the rendered block of each of the first five
    messages in the order of the listing, the note when more than five are
    listed, and the tip; the tool fetched exactly those messages, in that
    order, each by its [id] and in full, each on one fresh session and after
    one read of the credential, without a retry. *)
Theorem content_listing_fetches_each_message_in_order :
  forall render_full render_fallback block emailData userId w,
    config_present (env w) = true ->
    truthy_string (gmailTokens w userId) = true ->
    listed_messages emailData <> [] ->
    (forall i email,
       nth_error (firstn 5 (listed_messages emailData)) i = Some email ->
       answers render_full block (remote w (sessions w + i)) email i) ->
    let emails := listed_messages emailData in
    let run := formatEmailResultsWithContent render_full render_fallback emailData userId w in
    outcome_of run
    = Return (Some (JStr (found_header (length emails)
                            ++ previews block (firstn 5 emails) 0
                            ++ (if Nat.ltb 5 (length emails)
                                then showing_first_5 (length emails) else "")
                            ++ content_tip)))
    /\ invocations (trace_of run) = map fetch_of (firstn 5 emails)
    /\ connects (trace_of run) = seq (sessions w) (Nat.min 5 (length emails))
    /\ token_reads (trace_of run) = Nat.min 5 (length emails)
    /\ sleeps (trace_of run) = [].
Proof.
  intros render_full render_fallback block emailData userId w Hcfg Htok Hne Hall. cbv zeta.
  rewrite formatEmailResultsWithContent_run.
  destruct (listed_messages emailData) as [|email rest] eqn:Hlist; [congruence|].
  cbv beta iota zeta.
  destruct (fetch_emails_answered render_full render_fallback block userId
              (firstn 5 (email :: rest)) 0 (found_header (length (email :: rest))) w
              Hcfg Htok Hall)
    as (w' & tr & Hrun & Hc & Hi & Ht & Hs).
  rewrite Hrun. unfold outcome_of, trace_of. cbn [fst snd].
  rewrite length_firstn in Hc, Ht.
  split; [|repeat split; assumption].
  destruct (Nat.ltb 5 (length (email :: rest))); rewrite !append_assoc; reflexivity.
Qed.

(** ** The last properties on sample data *)

(** Base64 as RFC 4648 gives it, read back. *)
Example base64_decode_samples :
  map base64_decode ["TQ=="; "TWE="; "TWFu"; "Zm9vYmFy"; ""] = ["M"; "Ma"; "Man"; "foobar"; ""]
  /\ map (fun s => base64_decode (base64 s)) ["M"; "Ma"; "Man"; "foobar"; ""]
     = ["M"; "Ma"; "Man"; "foobar"; ""].
Proof. split; reflexivity. Qed.

(** A reply without content, on the second attempt. *)
Lemma reply_without_content_witness :
  outcome_of (executeGmailToolEnhanced "get_message" args0 "alice" (mkOptions None None None)
                (world0 (first_then 1 session_down session_no_content)))
  = Return None.
Proof.
  destruct (reply_without_a_content_list "get_message" args0 "alice" (mkOptions None None None)
              (world0 (first_then 1 session_down session_no_content)) 1
              (mkCallToolResult None)) as [Hnone _].
  - repeat split.
  - discriminate.
  - intros [|i] Hi; [exists boom; reflexivity|lia].
  - reflexivity.
  - apply Hnone. reflexivity.
Defined.

(** The sample listing on a remote that answers every fetch. *)
Lemma content_listing_witness :
  let run := formatEmailResultsWithContent plain_full plain_fallback (Some (JStr listing_text))
               "alice" (world0 (fun _ => session_gets)) in
  outcome_of run
  = Return (Some (JStr (found_header 2 ++ "+ fetched" ++ newline ++ "+ fetched" ++ newline
                          ++ content_tip)))
  /\ invocations (trace_of run)
     = [("get_message", JObj [("id", JStr "m1"); ("format", JStr "full")]);
        ("get_message", JObj [("id", JStr "m2"); ("format", JStr "full")])]
  /\ connects (trace_of run) = [0; 1]%nat.
Proof.
  cbv zeta.
  destruct (content_listing_fetches_each_message_in_order plain_full plain_fallback
              (fun _ _ => "+ fetched" ++ newline) (Some (JStr listing_text)) "alice"
              (world0 (fun _ => session_gets)) eq_refl eq_refl)
    as (Ho & Hi & Hc & _).
  - vm_compute. discriminate.
  - intros i email Hnth.
    assert (Hemail : email <> JNull).
    { destruct i as [|[|[|i]]]; vm_compute in Hnth; try discriminate;
        injection Hnth as <-; discriminate. }
    split; [exact Hemail|].
    exists (mkCallToolResult (Some (JArr [text_item message_text]))),
           (JObj [("id", JStr "m1"); ("snippet", JStr "first")]).
    split; [reflexivity|]. split; [vm_compute; reflexivity|reflexivity].
  - rewrite Ho, Hi, Hc. vm_compute. repeat split.
Defined.

(** ** The fallback block *)

Lemma fallback_block_bare email id index :
  bare_message email id -> fallback_block email index = Return (bare_block id index).
Proof.
  intros (members & -> & Hid & Hpayload & Hsnippet).
  unfold fallback_block, header_value, read_property. cbn [and_then get].
  rewrite Hpayload, Hsnippet, Hid. reflexivity.
Qed.

Lemma bare_message_id email id : bare_message email id -> id_of email = id.
Proof.
  intros (members & -> & Hid & _). unfold id_of. cbn [get]. rewrite Hid. reflexivity.
Qed.

(** An iteration on a [null] message throws: neither its [id] nor its
    [payload] can be read. *)
Lemma fetch_email_null render_full userId index acc w :
  exists e, fetch_email render_full fallback_block userId JNull index acc w = (Throw e, w, []).
Proof. eexists. reflexivity. Qed.

Lemma fetch_emails_null render_full userId emails :
  In JNull emails ->
  forall index acc w,
    exists e, outcome_of (fetch_emails render_full fallback_block userId emails index acc w)
              = Throw e.
Proof.
  induction emails as [|email rest IH]; intros Hin index acc w; [destruct Hin|].
  cbn [fetch_emails]. unfold bind.
  destruct (fetch_email render_full fallback_block userId email index acc w)
    as [[[acc1|e] w1] t1] eqn:Hone.
  - destruct Hin as [->|Hin].
    + destruct (fetch_email_null render_full userId index acc w) as [e He].
      rewrite He in Hone. discriminate.
    + destruct (IH Hin (S index) acc1 w1) as [e He].
      destruct (fetch_emails _ _ _ rest (S index) acc1 w1) as [[o w2] t2].
      unfold outcome_of in *. cbn [fst] in *. subst o. exists e. reflexivity.
  - exists e. reflexivity.
Qed.

Lemma credential_reads_open_nothing userId emails :
  connects (credential_reads userId emails) = [].
Proof. induction emails as [|[] emails IH]; cbn [credential_reads connects]; exact IH || reflexivity. Qed.

(** X29: the fallback block, as the code writes it.  For a caller whose
    credential is gone and a listing whose first five messages carry an id
    and neither payload nor snippet (as [list_messages] lists them), the
    listing with content is the header, for each of those messages the block
    "<n>. **No Subject**", "Preview: No preview available", "ID: <id>",
    "Could not fetch full content", numbered from 1, then the note when more
    than five are listed, and the tip; no session is opened.  And whatever the
    remote does and however the fetched messages render, a [null] among the
    first five messages makes the listing with content return its raw
    input. *)
Theorem listing_of_bare_messages_without_a_credential :
  forall render_full emailData userId w,
    let emails := listed_messages emailData in
    let run := formatEmailResultsWithContent render_full fallback_block emailData userId w in
    (gmailTokens w userId = None ->
     config_present (env w) = true ->
     emails <> [] ->
     (forall email, In email (firstn 5 emails) -> bare_message email (id_of email)) ->
     run = (Return (Some (JStr (found_header (length emails)
                                 ++ previews (fun email index => bare_block (id_of email) index)
                                      (firstn 5 emails) 0
                                 ++ (if Nat.ltb 5 (length emails)
                                     then showing_first_5 (length emails) else "")
                                 ++ content_tip))),
            w, credential_reads userId (firstn 5 emails))
     /\ connects (trace_of run) = [])
    /\ (In JNull (firstn 5 emails) -> outcome_of run = Return emailData).
Proof.
  intros render_full emailData userId w. cbv zeta. split.
  - intros Htok Hcfg Hne Hbare.
    assert (Hrun : formatEmailResultsWithContent render_full fallback_block emailData userId w
                   = (Return (Some (JStr (found_header (length (listed_messages emailData))
                                            ++ previews
                                                 (fun email index => bare_block (id_of email) index)
                                                 (firstn 5 (listed_messages emailData)) 0
                                            ++ (if Nat.ltb 5 (length (listed_messages emailData))
                                                then showing_first_5
                                                       (length (listed_messages emailData))
                                                else "")
                                            ++ content_tip))),
                      w, credential_reads userId (firstn 5 (listed_messages emailData)))).
    { rewrite formatEmailResultsWithContent_run.
      destruct (listed_messages emailData) as [|email rest] eqn:Hlist; [congruence|].
      cbv beta iota zeta.
      rewrite (fetch_emails_without_credential render_full fallback_block userId
                 (fun email index => bare_block (id_of email) index) w
                 (firstn 5 (email :: rest)) Htok Hcfg 0).
      - destruct (Nat.ltb 5 (length (email :: rest))); rewrite !append_assoc; reflexivity.
      - intros i e Hnth. apply fallback_block_bare. apply Hbare.
        apply (nth_error_In _ _ Hnth). }
    split; [exact Hrun|]. rewrite Hrun. unfold trace_of. cbn [snd].
    apply credential_reads_open_nothing.
  - intros Hnull. rewrite formatEmailResultsWithContent_run.
    destruct (listed_messages emailData) as [|email rest] eqn:Hlist; [destruct Hnull|].
    cbv beta iota zeta.
    destruct (fetch_emails_null render_full userId (firstn 5 (email :: rest)) Hnull 0
                (found_header (length (email :: rest))) w) as [e He].
    destruct (fetch_emails _ _ _ _ _ _ w) as [[o w1] t1].
    unfold outcome_of in *. cbn [fst] in *. subst o. reflexivity.
Qed.

(** Alice's bare listing after her credential is gone, and a listing with a
    [null] among its messages on a working remote. *)
Lemma bare_listing_witness :
  formatEmailResultsWithContent Sample4.plain_full fallback_block
    (Some (JStr Sample5.bare_listing_text)) "alice" Sample4.world_listing_cached
  = (Return (Some (JStr (found_header 2 ++ bare_block "m1" 0 ++ bare_block "m2" 1
                           ++ content_tip))),
     Sample4.world_listing_cached, [EvGetToken "alice"; EvGetToken "alice"])
  /\ outcome_of (formatEmailResultsWithContent Sample4.plain_full fallback_block
                   (Some (JStr Sample4.long_listing_text)) "alice"
                   (Sample.world0 (fun _ => Sample4.session_gets)))
     = Return (Some (JStr Sample4.long_listing_text)).
Proof.
  split.
  - destruct (listing_of_bare_messages_without_a_credential Sample4.plain_full
                (Some (JStr Sample5.bare_listing_text)) "alice" Sample4.world_listing_cached)
      as [Hbare _].
    destruct (Hbare eq_refl eq_refl) as [Hrun _].
    + vm_compute. discriminate.
    + intros email Hin. vm_compute in Hin.
      destruct Hin as [<-|[<-|[]]]; eexists; repeat split.
    + rewrite Hrun. vm_compute. reflexivity.
  - destruct (listing_of_bare_messages_without_a_credential Sample4.plain_full
                (Some (JStr Sample4.long_listing_text)) "alice"
                (Sample.world0 (fun _ => Sample4.session_gets)))
      as [_ Hnull].
    apply Hnull. vm_compute. tauto.
Defined.

(** ** How many sessions a tool opens *)

Lemma formatEmailResultsWithContent_fetches render_full render_fallback emailData userId w :
  fetches_at_most 5 w
    (world_of (formatEmailResultsWithContent render_full render_fallback emailData userId w))
    (trace_of (formatEmailResultsWithContent render_full render_fallback emailData userId w)).
Proof.
  rewrite formatEmailResultsWithContent_run.
  destruct (listed_messages emailData) as [|email rest]; [apply fetches_nothing|].
  cbv beta iota zeta.
  pose proof (fetch_emails_fetches render_full render_fallback userId
                (firstn 5 (email :: rest)) 0 (found_header (length (email :: rest))) w)
    as Hfetch.
  apply (fetches_more _ 5) in Hfetch; [|rewrite length_firstn; apply Nat.le_min_l].
  destruct (fetch_emails _ _ _ _ _ _ w) as [[[text|e] w1] t1]; exact Hfetch.
Qed.

(** X30: the sessions a tool opens are bounded.  Whatever the listing
    holds and whatever the remote does, [listMessages] opens at most 12
    sessions (2 for the list, 2 for each of at most 5 messages), [searchEmails]
    at most 13 (3 for the search), and [semanticEmailSearch] and
    [enhancedEmailSearch] at most 3; each session sees at most one invocation,
    so the same bounds hold for the remote procedures a tool invokes; and the
    credential store is read at most 6 times, once for the list and once for
    each message. *)
Theorem a_tool_opens_a_bounded_number_of_sessions :
  forall format_email render_full render_fallback userId history w,
    (forall args,
       let tr := trace_of (listMessages render_full render_fallback userId args w) in
       (length (connects tr) <= 12)%nat
       /\ (tool_calls "list_messages" tr + tool_calls "get_message" tr <= 12)%nat
       /\ (token_reads tr <= 6)%nat)
    /\ (forall args,
       let tr := trace_of (searchEmails render_full render_fallback userId args history w) in
       (length (connects tr) <= 13)%nat
       /\ (tool_calls "list_messages" tr + tool_calls "get_message" tr <= 13)%nat
       /\ (token_reads tr <= 6)%nat)
    /\ (forall args,
       let tr := trace_of (semanticEmailSearch format_email userId args history w) in
       (length (connects tr) <= 3)%nat
       /\ (tool_calls "list_messages" tr <= 3)%nat
       /\ (token_reads tr <= 1)%nat)
    /\ (forall args,
       let tr := trace_of (enhancedEmailSearch format_email userId args history w) in
       (length (connects tr) <= 3)%nat
       /\ (tool_calls "list_messages" tr <= 3)%nat
       /\ (token_reads tr <= 1)%nat).
Proof.
  intros format_email render_full render_fallback userId history w.
  assert (Hexec : forall searchArgs options,
            let tr := trace_of (executeGmailToolEnhanced "list_messages" searchArgs userId
                                  options w) in
            (length (connects tr) <= Z.to_nat (default 2 (retries options) + 1)%Z)%nat
            /\ (tool_calls "list_messages" tr <= Z.to_nat (default 2 (retries options) + 1)%Z)%nat
            /\ tool_calls "get_message" tr = 0%nat
            /\ (token_reads tr <= 1)%nat).
  { intros searchArgs options. cbv zeta.
    destruct (executor_sessions "list_messages" searchArgs userId options w)
      as (k & Hk & Hc & _ & Ht & Ho).
    rewrite Hc, length_seq. split; [exact Hk|]. split; [lia|].
    split; [apply Ho; discriminate|apply executor_token_reads]. }
  assert (Hcontent : forall result w1,
            let tr := trace_of (formatEmailResultsWithContent render_full render_fallback
                                  result userId w1) in
            (length (connects tr) <= 10)%nat
            /\ (tool_calls "get_message" tr <= 10)%nat
            /\ tool_calls "list_messages" tr = 0%nat
            /\ (token_reads tr <= 5)%nat).
  { intros result w1. cbv zeta.
    destruct (formatEmailResultsWithContent_fetches render_full render_fallback result userId w1)
      as (Hc & Ht & Hr & Hcalls & _).
    split; [lia|]. split; [lia|]. split; [|exact Hr].
    apply no_calls_of. intros j name a Hin. apply Hcalls in Hin.
    destruct Hin as [-> _]. discriminate. }
  split; [|split; [|split]].
  - intros args. cbv zeta. rewrite listMessages_run. unfold executeGmailTool.
    specialize (Hexec (JObj (add_inbox_filter (ListMessages.q args) (ListMessages.spread args)))
                  (mkOptions (Some false) (Some 1) None)).
    cbv zeta in Hexec. cbn [default retries] in Hexec.
    change (Z.to_nat (1 + 1)) with 2%nat in Hexec.
    destruct (executeGmailToolEnhanced _ _ _ _ w) as [[[result|e] w1] t1];
      unfold trace_of in *; cbn [snd] in *; [|lia].
    specialize (Hcontent result w1). cbv zeta in Hcontent.
    destruct (formatEmailResultsWithContent _ _ result userId w1) as [[o w2] t2].
    unfold trace_of in *. cbn [snd] in *.
    rewrite connects_app, length_app, !tool_calls_app, token_reads_app. lia.
  - intros args. cbv zeta. rewrite searchEmails_run.
    specialize (Hexec (JObj (JsonParse.obj_set "labelIds" (strings ["INBOX"])
                               (SearchEmails.spread args)))
                  (mkOptions (Some true) None None)).
    cbv zeta in Hexec. cbn [default retries] in Hexec.
    change (Z.to_nat (2 + 1)) with 3%nat in Hexec.
    destruct (executeGmailToolEnhanced _ _ _ _ w) as [[[result|e] w1] t1];
      unfold trace_of in *; cbn [snd] in *; [|lia].
    specialize (Hcontent result w1). cbv zeta in Hcontent.
    destruct (formatEmailResultsWithContent _ _ result userId w1) as [[[text|e] w2] t2];
      unfold trace_of in *; cbn [snd] in *;
      rewrite connects_app, length_app, !tool_calls_app, token_reads_app; lia.
  - intros args. cbv zeta.
    destruct (semanticEmailSearch_effects format_email userId args history w) as (_ & Htr & _).
    cbv zeta in Htr. rewrite Htr.
    match goal with
    | |- context [executeGmailToolEnhanced "list_messages" ?sa userId ?o w] =>
        specialize (Hexec sa o)
    end.
    cbv zeta in Hexec. cbn [default retries] in Hexec.
    change (Z.to_nat (2 + 1)) with 3%nat in Hexec. tauto.
  - intros args. cbv zeta.
    destruct (enhancedEmailSearch_effects format_email userId args history w) as (_ & Htr & _).
    cbv zeta in Htr. rewrite Htr.
    match goal with
    | |- context [executeGmailToolEnhanced "list_messages" ?sa userId ?o w] =>
        specialize (Hexec sa o)
    end.
    cbv zeta in Hexec. cbn [default retries] in Hexec.
    change (Z.to_nat (2 + 1)) with 3%nat in Hexec. tauto.
Qed.
